(** * Super Arya World: the physics engine (src/scripts/engine/physics.js)

    A shallow embedding of the [Physics] class: body registration, the
    per-tick [update] (integration, pairwise AABB detection, resolution,
    grounding) and the slab-method ray caster.  The parts that follow it
    embed the base class of the entities (entity.js), the Entity Manager
    (entityManager.js) and the probes with which the power-up and the
    player call the ray caster.

    Conventions of the embedding.
    - A JavaScript number is an exact rational ([Q]); rounding, NaN and the
      infinities are outside the model, except where the source creates them
      itself ([-Infinity]/[Infinity] in [raycastCollider], a division by a
      zero length in [raycast]), where they are written out.  Where a
      property depends on rounding, the overlap test and the resolver are
      taken in binary64 (module [Double]).
    - A collision layer or mask is an integer ([Z]); [a & b] is [Z.land].
    - A collider is a JavaScript object, compared by reference and mutated in
      place.  Objects live in a store ([gmap handle Body]); the three arrays
      of the class hold handles.
    - [onCollision] is gameplay code.  A call is recorded in a trace together
      with what the callee can observe of the two bodies; it does not change
      the store.  The trace records the calls of [resolveCollision] too. *)

From Stdlib Require Import QArith Qabs Qround Lqa ZArith List Bool Lia Floats.
From stdpp Require Import base option list gmap strings.

Open Scope Q_scope.

(** ** Numbers *)

Definition Qltb (a b : Q) : bool := negb (Qle_bool b a).
Definition Qgtb (a b : Q) : bool := Qltb b a.
Definition Qgeb (a b : Q) : bool := Qle_bool b a.

Definition Math_min (a b : Q) : Q := if Qle_bool a b then a else b.
Definition Math_max (a b : Q) : Q := if Qle_bool a b then b else a.
Definition Math_abs (a : Q) : Q := Qabs a.

(** ** Bodies *)

Definition handle := nat.

Record Body := mkBody {
  x : Q;
  y : Q;
  width : Q;
  height : Q;
  velocityX : Q;
  velocityY : Q;
  prevX : option Q;
  prevY : option Q;
  affectedByGravity : bool;
  isStatic : bool;
  collisionLayer : Z;
  collisionMask : Z;
  active : bool;
  onGround : bool;
  onCollision : bool
}.

Definition set_x (v : Q) (c : Body) : Body :=
  mkBody v (y c) (width c) (height c) (velocityX c) (velocityY c)
    (prevX c) (prevY c) (affectedByGravity c) (isStatic c)
    (collisionLayer c) (collisionMask c) (active c) (onGround c) (onCollision c).

Definition set_y (v : Q) (c : Body) : Body :=
  mkBody (x c) v (width c) (height c) (velocityX c) (velocityY c)
    (prevX c) (prevY c) (affectedByGravity c) (isStatic c)
    (collisionLayer c) (collisionMask c) (active c) (onGround c) (onCollision c).

Definition set_velocityX (v : Q) (c : Body) : Body :=
  mkBody (x c) (y c) (width c) (height c) v (velocityY c)
    (prevX c) (prevY c) (affectedByGravity c) (isStatic c)
    (collisionLayer c) (collisionMask c) (active c) (onGround c) (onCollision c).

Definition set_velocityY (v : Q) (c : Body) : Body :=
  mkBody (x c) (y c) (width c) (height c) (velocityX c) v
    (prevX c) (prevY c) (affectedByGravity c) (isStatic c)
    (collisionLayer c) (collisionMask c) (active c) (onGround c) (onCollision c).

Definition set_prev (px py : Q) (c : Body) : Body :=
  mkBody (x c) (y c) (width c) (height c) (velocityX c) (velocityY c)
    (Some px) (Some py) (affectedByGravity c) (isStatic c)
    (collisionLayer c) (collisionMask c) (active c) (onGround c) (onCollision c).

Definition set_onGround (v : bool) (c : Body) : Body :=
  mkBody (x c) (y c) (width c) (height c) (velocityX c) (velocityY c)
    (prevX c) (prevY c) (affectedByGravity c) (isStatic c)
    (collisionLayer c) (collisionMask c) (active c) v (onCollision c).

(** ** Collision Detector and Resolver *)

(** [checkCollision] (physics.js 195-203). *)
Definition checkCollision (colliderA colliderB : Body) : bool :=
  Qltb (x colliderA) (x colliderB + width colliderB) &&
  Qgtb (x colliderA + width colliderA) (x colliderB) &&
  Qltb (y colliderA) (y colliderB + height colliderB) &&
  Qgtb (y colliderA + height colliderA) (y colliderB).

Definition overlapX (colliderA colliderB : Body) : Q :=
  Math_min (x colliderA + width colliderA - x colliderB)
           (x colliderB + width colliderB - x colliderA).

Definition overlapY (colliderA colliderB : Body) : Q :=
  Math_min (y colliderA + height colliderA - y colliderB)
           (y colliderB + height colliderB - y colliderA).

(** [resolveCollision] (physics.js 210-244); the source mutates [colliderA],
    the result is its new content. *)
Definition resolveCollision (colliderA colliderB : Body) : Body :=
  if Qltb (overlapX colliderA colliderB) (overlapY colliderA colliderB) then
    let a1 :=
      if Qltb (x colliderA) (x colliderB)
      then set_x (x colliderB - width colliderA) colliderA
      else set_x (x colliderB + width colliderB) colliderA in
    set_velocityX (- velocityX a1 * (5 # 10)) a1
  else
    if Qltb (y colliderA) (y colliderB) then
      set_velocityY 0
        (set_onGround true (set_y (y colliderB - height colliderA) colliderA))
    else
      set_velocityY 0 (set_y (y colliderB + height colliderB) colliderA).

(** [checkGrounded] (physics.js 252-262). *)
Definition groundCheckOffset : Q := 1.

Definition checkGrounded (collider ground : Body) : bool :=
  Qle_bool (Math_abs (y collider + height collider - y ground)) groundCheckOffset &&
  Qltb (x collider) (x ground + width ground) &&
  Qgtb (x collider + width collider) (x ground).

(** ** The Physics object, the object store and the trace of callbacks *)

(** The fields of a [Physics] instance (physics.js 7-28). *)
Record Physics := mkPhysics {
  gravity : Q;
  friction : Q;
  terminalVelocity : Q;
  colliders : list handle;
  staticColliders : list handle;
  dynamicColliders : list handle
}.

(** What the trace records: a call [resolveCollision(collider, other)], with
    the collider as the call leaves it, and a call
    [receiver.onCollision(other)], with the two objects as they are when the
    call is made. *)
Inductive Event :=
  | Resolved (collider other : handle) (after : Body)
  | Called (receiver other : handle) (receiverSeen otherSeen : Body).

Record Mem := mkMem {
  store : gmap handle Body;
  trace : list Event
}.

Definition write (h : handle) (c : Body) (m : Mem) : Mem :=
  mkMem (<[h := c]> (store m)) (trace m).

Definition emit (e : Event) (m : Mem) : Mem :=
  mkMem (store m) (trace m ++ [e]).

(** [config.f || d]: the default replaces a missing or zero value. *)
Definition orDefaultQ (o : option Q) (d : Q) : Q :=
  match o with
  | Some v => if Qeq_bool v 0 then d else v
  | None => d
  end.

Definition orDefaultZ (o : option Z) (d : Z) : Z :=
  match o with
  | Some v => if Z.eqb v 0 then d else v
  | None => d
  end.

Record Config := mkConfig {
  config_gravity : option Q;
  config_friction : option Q;
  config_terminalVelocity : option Q
}.

Definition newPhysics (config : Config) : Physics :=
  mkPhysics (orDefaultQ (config_gravity config) (5 # 10))
            (orDefaultQ (config_friction config) (8 # 10))
            (orDefaultQ (config_terminalVelocity config) 10)
            [] [] [].

Definition layer_DEFAULT : Z := 1.

(** ** Body Registry: [addCollider] and [removeCollider] *)

(** The object handed to [addCollider]: geometry is present, the rest may be
    undefined. *)
Record ColliderInit := mkColliderInit {
  init_x : Q;
  init_y : Q;
  init_width : Q;
  init_height : Q;
  init_velocityX : option Q;
  init_velocityY : option Q;
  init_affectedByGravity : option bool;
  init_isStatic : option bool;
  init_collisionLayer : option Z;
  init_collisionMask : option Z;
  init_active : option bool;
  init_onCollision : bool
}.

Definition withDefaults (o : ColliderInit) : Body :=
  mkBody (init_x o) (init_y o) (init_width o) (init_height o)
    (orDefaultQ (init_velocityX o) 0)
    (orDefaultQ (init_velocityY o) 0)
    None None
    (default true (init_affectedByGravity o))
    (default false (init_isStatic o))
    (orDefaultZ (init_collisionLayer o) layer_DEFAULT)
    (orDefaultZ (init_collisionMask o) 65535)
    (default true (init_active o))
    false
    (init_onCollision o).

(** [addCollider] (physics.js 141-162): the object [h], whose fields are [o]
    when the call is made, gets its defaults and is pushed on the flat array
    and on one partition, at once. *)
Definition addCollider (h : handle) (o : ColliderInit)
    (w : Physics * gmap handle Body) : Physics * gmap handle Body :=
  let this := w.1 in
  let collider := withDefaults o in
  (mkPhysics (gravity this) (friction this) (terminalVelocity this)
     (colliders this ++ [h])
     (if isStatic collider then staticColliders this ++ [h] else staticColliders this)
     (if isStatic collider then dynamicColliders this else dynamicColliders this ++ [h]),
   <[h := collider]> w.2).

(** [indexOf] followed by [splice(index, 1)]: the first occurrence goes. *)
Fixpoint removeFirst (h : handle) (l : list handle) : list handle :=
  match l with
  | [] => []
  | k :: l' => if Nat.eqb k h then l' else k :: removeFirst h l'
  end.

(** [removeCollider] (physics.js 168-187). *)
Definition removeCollider (h : handle)
    (w : Physics * gmap handle Body) : Physics * gmap handle Body :=
  let this := w.1 in
  match w.2 !! h with
  | Some collider =>
      (mkPhysics (gravity this) (friction this) (terminalVelocity this)
         (removeFirst h (colliders this))
         (if isStatic collider then removeFirst h (staticColliders this)
          else staticColliders this)
         (if isStatic collider then dynamicColliders this
          else removeFirst h (dynamicColliders this)),
       w.2)
  | None => w
  end.

(** What detection ([update]) and the ray caster iterate over. *)
Definition visibleToDetection (this : Physics) : list handle :=
  staticColliders this ++ dynamicColliders this.

Definition visibleToRaycast (this : Physics) : list handle :=
  colliders this.

(** ** Integrator *)

(** [applyGravity] (physics.js 269-283). *)
Definition applyGravity (this : Physics) (collider : Body) (deltaTime : Q) : Body :=
  if onGround collider && Qgeb (velocityY collider) 0 then
    set_velocityY 0 collider
  else
    let c1 := set_velocityY (velocityY collider + gravity this * deltaTime) collider in
    if Qgtb (velocityY c1) (terminalVelocity this)
    then set_velocityY (terminalVelocity this) c1
    else c1.

(** [applyFriction] (physics.js 290-297). *)
Definition applyFriction (this : Physics) (collider : Body) (deltaTime : Q) : Body :=
  if Qgtb (Math_abs (velocityX collider)) (1 # 100)
  then set_velocityX (velocityX collider * friction this) collider
  else set_velocityX 0 collider.

(** Lines 51-67 of [update], for one active dynamic collider. *)
Definition integrate (this : Physics) (deltaTime : Q) (collider : Body) : Body :=
  let c1 := set_prev (x collider) (y collider) collider in
  let c2 := if affectedByGravity c1 then applyGravity this c1 deltaTime else c1 in
  let c3 := if onGround c2 then applyFriction this c2 deltaTime else c2 in
  let c4 := set_x (x c3 + velocityX c3 * deltaTime) c3 in
  set_y (y c4 + velocityY c4 * deltaTime) c4.

(** ** The tick *)

(** [(collider.collisionMask & other.collisionLayer)] is truthy. *)
Definition maskMatches (collider other : Body) : bool :=
  negb (Z.eqb (Z.land (collisionMask collider) (collisionLayer other)) 0).

(** [if (r.onCollision) r.onCollision(a)]. *)
Definition notify (r a : handle) (m : Mem) : Mem :=
  match store m !! r, store m !! a with
  | Some rb, Some ab =>
      if onCollision rb then emit (Called r a rb ab) m else m
  | _, _ => m
  end.

(** The body of the two inner detection loops (physics.js 70-91 and 94-115)
    for the collider [h] against [o]. *)
Definition collide (h o : handle) (m : Mem) : Mem :=
  match store m !! h, store m !! o with
  | Some collider, Some otherCollider =>
      if negb (active otherCollider) then m
      else if negb (maskMatches collider otherCollider) then m
      else if checkCollision collider otherCollider then
        let resolved := resolveCollision collider otherCollider in
        let m1 := emit (Resolved h o resolved) (write h resolved m) in
        let m2 := notify h o m1 in
        notify o h m2
      else m
  | _, _ => m
  end.

Definition collideStatics (this : Physics) (h : handle) (m : Mem) : Mem :=
  fold_left (fun m o => collide h o m) (staticColliders this) m.

Definition collideDynamics (this : Physics) (h : handle) (m : Mem) : Mem :=
  fold_left (fun m o => if Nat.eqb h o then m else collide h o m)
            (dynamicColliders this) m.

(** One iteration of the last loop (physics.js 121-133). *)
Definition standsOn (st : gmap handle Body) (collider : Body) (o : handle) : bool :=
  match st !! o with
  | Some ground =>
      active ground && maskMatches collider ground && checkGrounded collider ground
  | None => false
  end.

(** Grounding Classifier (physics.js 117-133). *)
Definition classify (this : Physics) (h : handle) (m : Mem) : Mem :=
  match store m !! h with
  | Some collider =>
      let m0 := write h (set_onGround false collider) m in
      match store m0 !! h with
      | Some c0 =>
          if existsb (standsOn (store m0) c0) (staticColliders this)
          then write h (set_onGround true c0) m0
          else m0
      | None => m0
      end
  | None => m
  end.

(** The body of the outer loop of [update] for the collider [h]. *)
Definition stepCollider (this : Physics) (deltaTime : Q) (h : handle) (m : Mem) : Mem :=
  match store m !! h with
  | Some collider =>
      if negb (active collider) then m
      else
        let m1 := write h (integrate this deltaTime collider) m in
        let m2 := collideStatics this h m1 in
        let m3 := collideDynamics this h m2 in
        classify this h m3
  | None => m
  end.

Definition updateOver (this : Physics) (deltaTime : Q) (l : list handle) (m : Mem) : Mem :=
  fold_left (fun m h => stepCollider this deltaTime h m) l m.

(** [update] (physics.js 45-135). *)
Definition update (this : Physics) (deltaTime : Q) (m : Mem) : Mem :=
  updateOver this deltaTime (dynamicColliders this) m.

Fixpoint ticks (n : nat) (this : Physics) (deltaTime : Q) (m : Mem) : Mem :=
  match n with
  | O => m
  | S n' => ticks n' this deltaTime (update this deltaTime m)
  end.

(** ** Ray Caster *)

(** [tMin] and [tMax] start at [-Infinity] and [Infinity]. *)
Inductive ExtQ :=
  | NegInfinity
  | Finite (q : Q)
  | Infinity.

Definition ext_leb (a b : ExtQ) : bool :=
  match a, b with
  | NegInfinity, _ => true
  | _, Infinity => true
  | Finite p, Finite q => Qle_bool p q
  | _, _ => false
  end.

Definition ext_ltb (a b : ExtQ) : bool := negb (ext_leb b a).

Definition ext_eqb (a b : ExtQ) : bool :=
  match a, b with
  | NegInfinity, NegInfinity => true
  | Infinity, Infinity => true
  | Finite p, Finite q => Qeq_bool p q
  | _, _ => false
  end.

Definition ext_max (a b : ExtQ) : ExtQ := if ext_leb a b then b else a.
Definition ext_min (a b : ExtQ) : ExtQ := if ext_leb a b then a else b.

Record Hit := mkHit {
  hitCollider : handle;
  distance : Q;
  point : Q * Q;
  normal : Z * Z
}.

(** The slab of one axis (physics.js 362-371 and 374-387 share it): the new
    [tMin] and [tMax], and the two candidate entry parameters. *)
Definition slab (lo hi start dir : Q) (tMin tMax : ExtQ) : ExtQ * ExtQ * Q * Q :=
  let t1 := (lo - start) / dir in
  let t2 := (hi - start) / dir in
  (ext_max tMin (Finite (Math_min t1 t2)),
   ext_min tMax (Finite (Math_max t1 t2)), t1, t2).

(** [raycastCollider] (physics.js 348-406). *)
Definition raycastCollider (startX startY dirX dirY maxDistance : Q)
    (h : handle) (collider : Body) : option Hit :=
  let minX := x collider in
  let minY := y collider in
  let maxX := x collider + width collider in
  let maxY := y collider + height collider in
  let '(tMin1, tMax1, hitNormalX1) :=
    if negb (Qeq_bool dirX 0) then
      let '(tMin, tMax, t1, t2) := slab minX maxX startX dirX NegInfinity Infinity in
      let n := if ext_eqb tMin (Finite t1) then (-1)%Z else 0%Z in
      let n := if ext_eqb tMin (Finite t2) then 1%Z else n in
      (tMin, tMax, n)
    else (NegInfinity, Infinity, 0%Z) in
  let '(tMin2, tMax2, hitNormalX2, hitNormalY2) :=
    if negb (Qeq_bool dirY 0) then
      let '(tMin, tMax, t1, t2) := slab minY maxY startY dirY tMin1 tMax1 in
      if negb (ext_eqb tMin tMin1) then
        let n := if ext_eqb tMin (Finite t1) then (-1)%Z else 0%Z in
        let n := if ext_eqb tMin (Finite t2) then 1%Z else n in
        (tMin, tMax, 0%Z, n)
      else (tMin, tMax, hitNormalX1, 0%Z)
    else (tMin1, tMax1, hitNormalX1, 0%Z) in
  if ext_leb tMin2 tMax2 && ext_leb (Finite 0) tMin2
     && ext_leb tMin2 (Finite maxDistance) then
    match tMin2 with
    | Finite t =>
        Some (mkHit h t (startX + dirX * t, startY + dirY * t)
                    (hitNormalX2, hitNormalY2))
    | _ => None
    end
  else None.

Section RayCaster.

(** [Math.sqrt], the host's square root. *)
Variable Math_sqrt : Q -> Q.

(** The loop body of [raycast] (physics.js 322-333). *)
Definition raycastStep (st : gmap handle Body)
    (startX startY normDirX normDirY dist : Q) (mask : Z)
    (acc : option Hit * ExtQ) (h : handle) : option Hit * ExtQ :=
  match st !! h with
  | Some collider =>
      if negb (active collider)
         || Z.eqb (Z.land (collisionLayer collider) mask) 0 then acc
      else
        match raycastCollider startX startY normDirX normDirY dist h collider with
        | Some hit =>
            if ext_ltb (Finite (distance hit)) acc.2
            then (Some hit, Finite (distance hit))
            else acc
        | None => acc
        end
  | None => acc
  end.

(** [raycast] (physics.js 308-336).  A segment of length zero has the
    direction [0/0], which is NaN: every comparison of [raycastCollider]
    is then false and no collider is hit. *)
Definition raycast (this : Physics) (st : gmap handle Body)
    (startX startY endX endY : Q) (collisionMask : option Z) : option Hit :=
  let mask := default 65535%Z collisionMask in
  let dirX := endX - startX in
  let dirY := endY - startY in
  let dist := Math_sqrt (dirX * dirX + dirY * dirY) in
  if Qeq_bool dist 0 then None
  else
    let normDirX := dirX / dist in
    let normDirY := dirY / dist in
    (fold_left (raycastStep st startX startY normDirX normDirY dist mask)
               (colliders this) (None, Infinity)).1.

End RayCaster.

(** A square root that is exact on the squares of integers. *)
Definition sqrtFloor (q : Q) : Q := inject_Z (Z.sqrt (Qfloor q)).

(** * Entities (src/scripts/entities/entity.js)

    The base class of every game object.  The record holds the fields that
    [update], [updateCollider], [onCollision] and [destroy] read or write,
    and the ones the Entity Manager reads; the fields that only [render]
    uses (sprite, flips, opacity, tags, id) are left out. *)

Module Entity.

(** The numbers of the physics object that [update] reads. *)
Definition physics_gravity : Physics -> Q := gravity.
Definition physics_terminalVelocity : Physics -> Q := terminalVelocity.

(** [this.collider]. *)
Record Box := mkBox {
  box_x : Q;
  box_y : Q;
  box_width : Q;
  box_height : Q;
  offsetX : Q;
  offsetY : Q
}.

(** [this.animation]: of the animation object only the number of frames is
    read. *)
Record Animation := mkAnimation {
  frames_length : nat
}.

Record t := mk {
  x : Q;
  y : Q;
  width : Q;
  height : Q;
  velocityX : Q;
  velocityY : Q;
  accelerationX : Q;
  accelerationY : Q;
  friction : Q;
  gravity : bool;
  solid : bool;
  mass : Q;
  bounciness : Q;
  collider : Box;
  collisionLayer : Z;
  collisionMask : Z;
  animation : option Animation;
  (** [None] is NaN, the result of [% 0]. *)
  currentFrame : option nat;
  frameTime : Q;
  frameDuration : Q;
  zIndex : Q;
  visible : bool;
  type : string;
  active : bool
}.

(** The [config] object of the constructor. *)
Record Config := mkConfig {
  config_x : option Q;
  config_y : option Q;
  config_width : option Q;
  config_height : option Q;
  config_friction : option Q;
  config_gravity : option bool;
  config_solid : option bool;
  config_mass : option Q;
  config_bounciness : option Q;
  config_colliderOffsetX : option Q;
  config_colliderOffsetY : option Q;
  config_collisionLayer : option Z;
  config_collisionMask : option Z;
  config_animation : option Animation;
  config_frameDuration : option Q;
  config_zIndex : option Q;
  config_visible : option bool;
  config_type : option string
}.

(** [config.type || 'entity']: the empty string is falsy. *)
Definition orDefaultString (o : option string) (d : string) : string :=
  match o with
  | Some s => if String.eqb s "" then d else s
  | None => d
  end.

(** The constructor (entity.js 7-62). *)
Definition new (config : Config) : t :=
  let x0 := orDefaultQ (config_x config) 0 in
  let y0 := orDefaultQ (config_y config) 0 in
  let w0 := orDefaultQ (config_width config) 32 in
  let h0 := orDefaultQ (config_height config) 32 in
  mk x0 y0 w0 h0 0 0 0 0
     (orDefaultQ (config_friction config) (8 # 10))
     (default true (config_gravity config))
     (default true (config_solid config))
     (orDefaultQ (config_mass config) 1)
     (orDefaultQ (config_bounciness config) 0)
     (mkBox x0 y0 w0 h0
            (orDefaultQ (config_colliderOffsetX config) 0)
            (orDefaultQ (config_colliderOffsetY config) 0))
     (orDefaultZ (config_collisionLayer config) 1)
     (orDefaultZ (config_collisionMask config) 1)
     (config_animation config)
     (Some O) 0
     (orDefaultQ (config_frameDuration config) (1 # 10))
     (orDefaultQ (config_zIndex config) 0)
     (default true (config_visible config))
     (orDefaultString (config_type config) "entity")
     true.

Definition set_position (px py : Q) (e : t) : t :=
  mk px py (width e) (height e) (velocityX e) (velocityY e)
     (accelerationX e) (accelerationY e) (friction e) (gravity e) (solid e)
     (mass e) (bounciness e) (collider e) (collisionLayer e) (collisionMask e)
     (animation e) (currentFrame e) (frameTime e) (frameDuration e)
     (zIndex e) (visible e) (type e) (active e).

Definition set_velocity (vx vy : Q) (e : t) : t :=
  mk (x e) (y e) (width e) (height e) vx vy
     (accelerationX e) (accelerationY e) (friction e) (gravity e) (solid e)
     (mass e) (bounciness e) (collider e) (collisionLayer e) (collisionMask e)
     (animation e) (currentFrame e) (frameTime e) (frameDuration e)
     (zIndex e) (visible e) (type e) (active e).

Definition set_acceleration (ax ay : Q) (e : t) : t :=
  mk (x e) (y e) (width e) (height e) (velocityX e) (velocityY e)
     ax ay (friction e) (gravity e) (solid e)
     (mass e) (bounciness e) (collider e) (collisionLayer e) (collisionMask e)
     (animation e) (currentFrame e) (frameTime e) (frameDuration e)
     (zIndex e) (visible e) (type e) (active e).

Definition set_collider (b : Box) (e : t) : t :=
  mk (x e) (y e) (width e) (height e) (velocityX e) (velocityY e)
     (accelerationX e) (accelerationY e) (friction e) (gravity e) (solid e)
     (mass e) (bounciness e) b (collisionLayer e) (collisionMask e)
     (animation e) (currentFrame e) (frameTime e) (frameDuration e)
     (zIndex e) (visible e) (type e) (active e).

Definition set_frame (frame : option nat) (time : Q) (e : t) : t :=
  mk (x e) (y e) (width e) (height e) (velocityX e) (velocityY e)
     (accelerationX e) (accelerationY e) (friction e) (gravity e) (solid e)
     (mass e) (bounciness e) (collider e) (collisionLayer e) (collisionMask e)
     (animation e) frame time (frameDuration e)
     (zIndex e) (visible e) (type e) (active e).

Definition set_active (a : bool) (e : t) : t :=
  mk (x e) (y e) (width e) (height e) (velocityX e) (velocityY e)
     (accelerationX e) (accelerationY e) (friction e) (gravity e) (solid e)
     (mass e) (bounciness e) (collider e) (collisionLayer e) (collisionMask e)
     (animation e) (currentFrame e) (frameTime e) (frameDuration e)
     (zIndex e) (visible e) (type e) a.

(** [updateCollider] (entity.js 145-150). *)
Definition updateCollider (e : t) : t :=
  let c := collider e in
  set_collider
    (mkBox (x e + offsetX c) (y e + offsetY c)
           (width e - 2 * offsetX c) (height e - 2 * offsetY c)
           (offsetX c) (offsetY c)) e.

(** The two-sided clamp of a velocity component (entity.js 82-92). *)
Definition clampVelocity (v limit : Q) : Q :=
  if Qgtb v limit then limit
  else if Qltb v (- limit) then - limit
  else v.

(** [(currentFrame + 1) % frames.length]. *)
Definition nextFrame (frame : option nat) (n : nat) : option nat :=
  match frame, n with
  | Some k, S _ => Some ((k + 1) mod n)%nat
  | _, _ => None
  end.

(** The animation step of [update] (entity.js 101-108). *)
Definition animate (deltaTime : Q) (e : t) : t :=
  match animation e with
  | Some a =>
      let time := frameTime e + deltaTime in
      if Qgeb time (frameDuration e)
      then set_frame (nextFrame (currentFrame e) (frames_length a)) 0 e
      else set_frame (currentFrame e) time e
  | None => e
  end.

(** [update] (entity.js 68-109). *)
Definition update (physics : Physics) (deltaTime : Q) (e : t) : t :=
  let vx1 := velocityX e + accelerationX e * deltaTime in
  let vy1 := velocityY e + accelerationY e * deltaTime in
  let vy2 := if gravity e
             then vy1 + physics_gravity physics * mass e * deltaTime
             else vy1 in
  let vx2 := vx1 * friction e in
  let vx3 := clampVelocity vx2 (physics_terminalVelocity physics) in
  let vy3 := clampVelocity vy2 (physics_terminalVelocity physics) in
  let e1 := set_velocity vx3 vy3 e in
  let e2 := set_position (x e1 + vx3 * deltaTime) (y e1 + vy3 * deltaTime) e1 in
  animate deltaTime (updateCollider e2).

(** The [collision] argument of [onCollision]. *)
Record Collision := mkCollision {
  normal_x : Q;
  normal_y : Q;
  overlap : Q
}.

(** [onCollision] (entity.js 157-185). *)
Definition onCollision (other : t) (collision : Collision) (e : t) : t :=
  if solid e && solid other then
    let e1 :=
      if negb (Qeq_bool (normal_x collision) 0) then
        set_acceleration 0 (accelerationY e)
          (set_velocity 0 (velocityY e)
             (set_position (x e + overlap collision * normal_x collision) (y e) e))
      else e in
    let e2 :=
      if negb (Qeq_bool (normal_y collision) 0) then
        let moved :=
          set_position (x e1) (y e1 + overlap collision * normal_y collision) e1 in
        let bounced :=
          if Qgtb (bounciness moved) 0
          then set_velocity (velocityX moved)
                 (- velocityY moved * bounciness moved) moved
          else set_velocity (velocityX moved) 0 moved in
        set_acceleration (accelerationX bounced) 0 bounced
      else e1 in
    updateCollider e2
  else e.

(** The collider box is where [updateCollider] puts it. *)
Definition colliderInSync (e : t) : Prop :=
  box_x (collider e) == x e + offsetX (collider e) /\
  box_y (collider e) == y e + offsetY (collider e) /\
  box_width (collider e) == width e - 2 * offsetX (collider e) /\
  box_height (collider e) == height e - 2 * offsetY (collider e).

End Entity.
(** * Entity Manager (src/scripts/engine/entityManager.js)

    Entities are objects of a store ([gmap handle Entity.t]); the arrays of
    the manager hold handles.  [entityTypes] is a plain JavaScript object
    used as a dictionary from type names to arrays: its own properties are
    a [gmap], and a name that it does not own is looked up in
    [Object.prototype].  Calling [push], [indexOf] or [filter] on what is
    found there throws a [TypeError]; what the manager holds after an
    exception is not modelled. *)

Module EntityManager.

(** The result of a call: it returns, or it throws a [TypeError]. *)
Inductive Outcome (A : Type) : Type :=
  | Returns (a : A)
  | Throws.
Arguments Returns {A} a.
Arguments Throws {A}.

Record t := mk {
  entities : list handle;
  entitiesToAdd : list handle;
  entitiesToRemove : list handle;
  entityTypes : gmap string (list handle)
}.

(** The constructor (entityManager.js 7-22). *)
Definition new : t := mk [] [] [] ∅.

(** The names of the properties of [Object.prototype]. *)
Definition objectPrototypeKeys : list string :=
  ["constructor"; "__defineGetter__"; "__defineSetter__"; "hasOwnProperty";
   "__lookupGetter__"; "__lookupSetter__"; "isPrototypeOf";
   "propertyIsEnumerable"; "toString"; "valueOf"; "__proto__";
   "toLocaleString"]%string.

Definition inherited (key : string) : bool :=
  existsb (String.eqb key) objectPrototypeKeys.

(** What [this.entityTypes[key]] evaluates to: an array that the object
    owns, a function or object inherited from [Object.prototype], or
    [undefined]. *)
Inductive Value :=
  | Array (l : list handle)
  | Inherited
  | Undefined.

Definition getProperty (types : gmap string (list handle)) (key : string) : Value :=
  match types !! key with
  | Some l => Array l
  | None => if inherited key then Inherited else Undefined
  end.

(** [addEntity] (entityManager.js 90-94). *)
Definition addEntity (entity : handle) (this : t) : t :=
  mk (entities this) (entitiesToAdd this ++ [entity])
     (entitiesToRemove this) (entityTypes this).

(** [removeEntity] (entityManager.js 100-103). *)
Definition removeEntity (entity : handle) (this : t) : t :=
  mk (entities this) (entitiesToAdd this)
     (entitiesToRemove this ++ [entity]) (entityTypes this).

(** [clearEntities] (entityManager.js 108-113). *)
Definition clearEntities (this : t) : t := new.

(** [getEntitiesByType] (entityManager.js 120-122):
    [this.entityTypes[type] || []]; an array, also an empty one, and an
    inherited function or object are truthy. *)
Definition getEntitiesByType (type : string) (this : t) : Value :=
  match getProperty (entityTypes this) type with
  | Array l => Array l
  | Inherited => Inherited
  | Undefined => Array []
  end.

(** The callback of [filter] in [getEntitiesInArea]. *)
Definition inArea (st : gmap handle Entity.t) (ax ay aw ah : Q) (h : handle) : bool :=
  match st !! h with
  | Some entity =>
      Entity.active entity &&
      Qltb (Entity.x entity) (ax + aw) &&
      Qgtb (Entity.x entity + Entity.width entity) ax &&
      Qltb (Entity.y entity) (ay + ah) &&
      Qgtb (Entity.y entity + Entity.height entity) ay
  | None => false
  end.

(** [getEntitiesInArea] (entityManager.js 133-143); a missing or empty
    [type] is falsy and selects every entity; [filter] is a method of
    arrays only. *)
Definition getEntitiesInArea (st : gmap handle Entity.t) (ax ay aw ah : Q)
    (type : option string) (this : t) : Outcome (list handle) :=
  let entitiesToCheck :=
    match type with
    | Some ty => if String.eqb ty "" then Array (entities this)
                 else getEntitiesByType ty this
    | None => Array (entities this)
    end in
  match entitiesToCheck with
  | Array l => Returns (List.filter (inArea st ax ay aw ah) l)
  | Inherited => Throws
  | Undefined => Throws
  end.

(** The callback of [forEach] in the first block of [update]
    (entityManager.js 35-40): the array of the type is created when the
    lookup is falsy, then the entity is pushed on what the lookup finds. *)
Definition registerType (st : gmap handle Entity.t)
    (types : gmap string (list handle)) (entity : handle)
    : Outcome (gmap string (list handle)) :=
  match st !! entity with
  | Some e =>
      match getProperty types (Entity.type e) with
      | Array l => Returns (<[Entity.type e := l ++ [entity]]> types)
      | Undefined => Returns (<[Entity.type e := [entity]]> types)
      | Inherited => Throws
      end
  | None => Returns types
  end.

(** [forEach] over an array, up to the first exception. *)
Fixpoint forEach {S : Type} (f : S -> handle -> Outcome S)
    (l : list handle) (s : S) : Outcome S :=
  match l with
  | [] => Returns s
  | h :: l' =>
      match f s h with
      | Returns s' => forEach f l' s'
      | Throws => Throws
      end
  end.

(** The first block of [update] (entityManager.js 30-42): the pending
    entities join [entities] and the type mapping. *)
Definition processAdds (st : gmap handle Entity.t) (this : t) : Outcome t :=
  match entitiesToAdd this with
  | [] => Returns this
  | _ :: _ =>
      match forEach (registerType st) (entitiesToAdd this) (entityTypes this) with
      | Returns types =>
          Returns (mk (entities this ++ entitiesToAdd this) []
                      (entitiesToRemove this) types)
      | Throws => Throws
      end
  end.

(** The callback of [forEach] in the last block of [update]
    (entityManager.js 55-62). *)
Definition unregisterType (st : gmap handle Entity.t)
    (types : gmap string (list handle)) (entity : handle)
    : Outcome (gmap string (list handle)) :=
  match st !! entity with
  | Some e =>
      match getProperty types (Entity.type e) with
      | Array l => Returns (<[Entity.type e := removeFirst entity l]> types)
      | Undefined => Returns types
      | Inherited => Throws
      end
  | None => Returns types
  end.

Definition includes (l : list handle) (h : handle) : bool :=
  existsb (Nat.eqb h) l.

(** The last block of [update] (entityManager.js 53-67). *)
Definition processRemoves (st : gmap handle Entity.t) (this : t) : Outcome t :=
  match entitiesToRemove this with
  | [] => Returns this
  | _ :: _ =>
      match forEach (unregisterType st) (entitiesToRemove this)
                    (entityTypes this) with
      | Returns types =>
          Returns
            (mk (List.filter (fun h => negb (includes (entitiesToRemove this) h))
                             (entities this))
                (entitiesToAdd this) [] types)
      | Throws => Throws
      end
  end.

Section Dispatch.

(** [entity.update(deltaTime)] is the method of the entity's class.  It may
    change the entity objects, and it reaches the manager through
    [addEntity] and [removeEntity] only (the base class does so in
    [destroy]): its effect is the new store and the entities it passed to
    [addEntity] and to [removeEntity], in the order of the calls. *)
Variable entityUpdate :
  Q -> handle -> gmap handle Entity.t ->
  gmap handle Entity.t * list handle * list handle.

(** One iteration of the loop over [entities] (entityManager.js 45-50). *)
Definition updateEntity (deltaTime : Q)
    (w : t * gmap handle Entity.t) (h : handle) : t * gmap handle Entity.t :=
  match w.2 !! h with
  | Some entity =>
      if Entity.active entity then
        let '(st', added, removed) := entityUpdate deltaTime h w.2 in
        (mk (entities w.1) (entitiesToAdd w.1 ++ added)
            (entitiesToRemove w.1 ++ removed) (entityTypes w.1), st')
      else w
  | None => w
  end.

(** The loop over [entities] (entityManager.js 45-50). *)
Definition updateAll (deltaTime : Q)
    (w : t * gmap handle Entity.t) : t * gmap handle Entity.t :=
  fold_left (updateEntity deltaTime) (entities w.1) w.

(** [update] (entityManager.js 28-68). *)
Definition update (deltaTime : Q)
    (w : t * gmap handle Entity.t) : Outcome (t * gmap handle Entity.t) :=
  match processAdds w.2 w.1 with
  | Returns this1 =>
      let w2 := updateAll deltaTime (this1, w.2) in
      match processRemoves w2.2 w2.1 with
      | Returns this3 => Returns (this3, w2.2)
      | Throws => Throws
      end
  | Throws => Throws
  end.

End Dispatch.

(** [entity.update] of the base class, for the entity [h]. *)
Definition baseUpdate (physics : Physics) (deltaTime : Q) (h : handle)
    (st : gmap handle Entity.t)
    : gmap handle Entity.t * list handle * list handle :=
  match st !! h with
  | Some e => (<[h := Entity.update physics deltaTime e]> st, [], [])
  | None => (st, [], [])
  end.

(** [destroy] (entity.js 190-193) called by the entity [h] on itself, as the
    whole of its update. *)
Definition destroyUpdate (deltaTime : Q) (h : handle)
    (st : gmap handle Entity.t)
    : gmap handle Entity.t * list handle * list handle :=
  match st !! h with
  | Some e => (<[h := Entity.set_active false e]> st, [], [h])
  | None => (st, [], [])
  end.

(** The entity [h] exists and its type is [ty]. *)
Definition hasType (st : gmap handle Entity.t) (ty : string) (h : handle) : bool :=
  match st !! h with
  | Some e => String.eqb (Entity.type e) ty
  | None => false
  end.

(** The array that [entityTypes] owns for a type, empty if it owns none. *)
Definition ownArray (ty : string) (this : t) : list handle :=
  default [] (entityTypes this !! ty).

(** The type mapping agrees with the array of entities: the array kept
    for a type holds the entities of that type, in the order of
    [entities]. *)
Definition indexed (st : gmap handle Entity.t) (this : t) : Prop :=
  forall ty, ownArray ty this = List.filter (hasType st ty) (entities this).

(** No entity has a type that names a property of [Object.prototype]. *)
Definition ordinaryTypes (st : gmap handle Entity.t) : Prop :=
  forall h e, st !! h = Some e -> inherited (Entity.type e) = false.

(** [entityTypes] owns no property that [Object.prototype] has too; the
    code never creates one. *)
Definition noShadowing (this : t) : Prop :=
  forall key, inherited key = true -> entityTypes this !! key = None.

(** An update method by class: the entities listed in [doomed] call
    [destroy] on themselves, the others run the update of the base
    class. *)
Definition classUpdate (physics : Physics) (doomed : list handle)
    (deltaTime : Q) (h : handle) (st : gmap handle Entity.t)
    : gmap handle Entity.t * list handle * list handle :=
  if includes doomed h then destroyUpdate deltaTime h st
  else baseUpdate physics deltaTime h st.

End EntityManager.
(** * The callers of the ray caster *)

(** A hit object is truthy, [null] is falsy. *)
Definition truthy (hit : option Hit) : bool :=
  match hit with
  | Some _ => true
  | None => false
  end.

(** ** Power-ups (src/scripts/entities/powerup.js)

    Of the power-up only the probe that turns it around is modelled: the
    fields of the base class and [direction]. *)

Module Powerup.

Record t := mk {
  entity : Entity.t;
  direction : Q
}.

Section Sensors.

Variable Math_sqrt : Q -> Q.
Variable physics : Physics.
Variable st : gmap handle Body.

(** [wallCheckX] and [edgeCheckX] (powerup.js 147-149 and 160-162). *)
Definition wallCheckX (this : t) : Q :=
  if Qgtb (direction this) 0
  then Entity.x (entity this) + Entity.width (entity this) + 5
  else Entity.x (entity this) - 5.

Definition edgeCheckX (this : t) : Q :=
  if Qgtb (direction this) 0
  then Entity.x (entity this) + Entity.width (entity this) + 5
  else Entity.x (entity this) - 5.

(** The two calls of [raycast] (powerup.js 151-157 and 164-170), with the
    arguments in the order of the calls: [raycast] takes them as
    [startX, startY, endX, endY, collisionMask]. *)
Definition wallHit (this : t) : option Hit :=
  raycast Math_sqrt physics st
    (wallCheckX this)
    (Entity.y (entity this) + Entity.height (entity this) / 2)
    (direction this)
    5
    (Some 1%Z).

Definition groundHit (this : t) : option Hit :=
  raycast Math_sqrt physics st
    (edgeCheckX this)
    (Entity.y (entity this) + Entity.height (entity this) + 5)
    0
    10
    (Some 1%Z).

(** [checkForObstacles] (powerup.js 145-176). *)
Definition checkForObstacles (this : t) : t :=
  if truthy (wallHit this) || negb (truthy (groundHit this))
  then mk (entity this) (direction this * - (1))
  else this.

End Sensors.

End Powerup.

(** ** The player (src/unnamed/part_004)

    Of [updateState] the ground probe is modelled, lines 264-276: the call
    of [raycast] and the flag [canJump] it decides.  The probe reads the
    fields of the base class only. *)

Module Player.

Section Sensors.

Variable Math_sqrt : Q -> Q.
Variable physics : Physics.
Variable st : gmap handle Body.

(** The call of [raycast] (part_004 267-273), with the arguments in the
    order of the call. *)
Definition groundHit (this : Entity.t) : option Hit :=
  raycast Math_sqrt physics st
    (Entity.x this + Entity.width this / 2)
    (Entity.y this + Entity.height this)
    0
    5
    (Some 1%Z).

(** [this.canJump = false; if (groundHit) this.canJump = true]. *)
Definition canJump (this : Entity.t) : bool :=
  if truthy (groundHit this) then true else false.

End Sensors.

End Player.
(** * The overlap test and the resolver in binary64

    [checkCollision] and [resolveCollision] over the numbers the source
    computes with: IEEE 754 binary64, rounding to nearest.  The record holds
    the fields the two functions read or write. *)

Module Double.

Record Body := mk {
  x : float;
  y : float;
  width : float;
  height : float;
  velocityX : float;
  velocityY : float;
  onGround : bool
}.

(** [Math.min]: NaN if an argument is NaN, and [-0] is below [+0]. *)
Definition Math_min (a b : float) : float :=
  if PrimFloat.is_nan a then a
  else if PrimFloat.is_nan b then b
  else if PrimFloat.ltb a b then a
  else if PrimFloat.ltb b a then b
  else if PrimFloat.get_sign a then a else b.

(** [checkCollision] (physics.js 195-203); [a > b] is [b < a]. *)
Definition checkCollision (colliderA colliderB : Body) : bool :=
  PrimFloat.ltb (x colliderA) (PrimFloat.add (x colliderB) (width colliderB)) &&
  PrimFloat.ltb (x colliderB) (PrimFloat.add (x colliderA) (width colliderA)) &&
  PrimFloat.ltb (y colliderA) (PrimFloat.add (y colliderB) (height colliderB)) &&
  PrimFloat.ltb (y colliderB) (PrimFloat.add (y colliderA) (height colliderA)).

Definition overlapX (colliderA colliderB : Body) : float :=
  Math_min
    (PrimFloat.sub (PrimFloat.add (x colliderA) (width colliderA)) (x colliderB))
    (PrimFloat.sub (PrimFloat.add (x colliderB) (width colliderB)) (x colliderA)).

Definition overlapY (colliderA colliderB : Body) : float :=
  Math_min
    (PrimFloat.sub (PrimFloat.add (y colliderA) (height colliderA)) (y colliderB))
    (PrimFloat.sub (PrimFloat.add (y colliderB) (height colliderB)) (y colliderA)).

(** [resolveCollision] (physics.js 210-244); the result is the new content
    of [colliderA]. *)
Definition resolveCollision (colliderA colliderB : Body) : Body :=
  if PrimFloat.ltb (overlapX colliderA colliderB) (overlapY colliderA colliderB) then
    mk (if PrimFloat.ltb (x colliderA) (x colliderB)
        then PrimFloat.sub (x colliderB) (width colliderA)
        else PrimFloat.add (x colliderB) (width colliderB))
       (y colliderA) (width colliderA) (height colliderA)
       (PrimFloat.mul (PrimFloat.opp (velocityX colliderA)) 0.5%float)
       (velocityY colliderA) (onGround colliderA)
  else
    if PrimFloat.ltb (y colliderA) (y colliderB) then
      mk (x colliderA) (PrimFloat.sub (y colliderB) (height colliderA))
         (width colliderA) (height colliderA)
         (velocityX colliderA) 0%float true
    else
      mk (x colliderA) (PrimFloat.add (y colliderB) (height colliderB))
         (width colliderA) (height colliderA)
         (velocityX colliderA) 0%float (onGround colliderA).

End Double.

(** The two 32x32 bodies of depth 4 and 20, in binary64. *)
Definition mover64 : Double.Body :=
  Double.mk 0%float 0%float 32%float 32%float 0%float 0%float false.
Definition block64 : Double.Body :=
  Double.mk 28%float 12%float 32%float 32%float 0%float 0%float false.

(** A 32x32 body at x = -27.7 that reaches 4 units into a 32x32 body at
    x = 0.3 (the two literals as binary64). *)
Definition sled64 : Double.Body :=
  Double.mk (-0x1.bb33333333333p+4)%float 0%float 32%float 32%float
            0%float 0%float false.
Definition kerb64 : Double.Body :=
  Double.mk (0x1.3333333333333p-2)%float 0%float 32%float 32%float
            0%float 0%float false.

(** * Scenes *)

(** A rectangle with every optional field left undefined but [isStatic]. *)
Definition rect (px py w h : Q) (static : bool) : ColliderInit :=
  mkColliderInit px py w h None None None (Some static) None None None false.

Definition defaultPhysics : Physics := newPhysics (mkConfig None None None).

(** Minimum translation: two 32x32 bodies with [overlapX = 4] and
    [overlapY = 20]. *)
Definition mover32 : Body := withDefaults (rect 0 0 32 32 false).
Definition block32 : Body := withDefaults (rect 28 12 32 32 true).

(** Degenerate geometry: a point inside a box, and a wall of width zero. *)
Definition pointBody : Body := withDefaults (rect 5 5 0 0 false).
Definition box10 : Body := withDefaults (rect 0 0 10 10 true).
Definition thinWall : Body := withDefaults (rect 50 0 0 32 true).

(** Friction: a grounded body that creeps at 0.012 units per second. *)
Definition creeping : Body :=
  set_onGround true (set_velocityX (12 # 1000) (withDefaults (rect 0 68 32 32 false))).

(** Free fall: [n] integration steps of a body that nothing else touches. *)
Fixpoint freefall (n : nat) (this : Physics) (deltaTime : Q) (c : Body) : Body :=
  match n with
  | O => c
  | S n' => freefall n' this deltaTime (integrate this deltaTime c)
  end.

Definition falling : Body :=
  set_velocityY 25 (withDefaults (rect 0 0 32 32 false)).

(** A body with gravity switched off, a velocity and, possibly, a callback. *)
Definition drifting (px py w h vx : Q) (callback : bool) : ColliderInit :=
  mkColliderInit px py w h (Some vx) None (Some false) (Some false)
                 None None None callback.

(** A body at rest on a floor: the floor is the object 1, the body the
    object 2. *)
Definition floorInit : ColliderInit := rect 0 100 200 32 true.
Definition restScene : Physics * gmap handle Body :=
  addCollider 2%nat (rect 10 68 32 32 false)
    (addCollider 1%nat floorInit (defaultPhysics, ∅)).
Definition restMem : Mem := mkMem restScene.2 [].

(** A body (object 1) that has sunk one unit into a platform (object 2)
    that is itself dynamic; there is no static body. *)
Definition raftScene : Physics * gmap handle Body :=
  addCollider 2%nat (drifting 0 100 200 32 0 false)
    (addCollider 1%nat (drifting 10 69 32 32 0 false) (defaultPhysics, ∅)).
Definition raftMem : Mem := mkMem raftScene.2 [].

(** Ten bodies are registered (objects 0 to 9, the even ones static), then
    the objects 0 to 4 are removed; nothing else is called. *)
Definition registerAll (l : list (handle * ColliderInit))
    (w : Physics * gmap handle Body) : Physics * gmap handle Body :=
  fold_left (fun w p => addCollider p.1 p.2 w) l w.

Definition removeAll (l : list handle)
    (w : Physics * gmap handle Body) : Physics * gmap handle Body :=
  fold_left (fun w h => removeCollider h w) l w.

Definition tenBodies : list (handle * ColliderInit) :=
  map (fun i => (i, rect (40 * inject_Z (Z.of_nat i)) 0 32 32 (Nat.even i)))
      (seq 0 10).

Definition tenRegistered : Physics * gmap handle Body :=
  registerAll tenBodies (defaultPhysics, ∅).

Definition tenMinusFive : Physics * gmap handle Body :=
  removeAll (seq 0 5) tenRegistered.

(** One static box, the object 1, between y = 0 and y = 32. *)
Definition boxScene : Physics * gmap handle Body :=
  addCollider 1%nat (rect 50 0 32 32 true) (defaultPhysics, ∅).

(** Two static boxes on the line y = 0, at x = 50 (object 1) and at x = 80
    (object 2). *)
Definition twoBoxes : Physics * gmap handle Body :=
  addCollider 2%nat (rect 80 (-16) 32 32 true)
    (addCollider 1%nat (rect 50 (-16) 32 32 true) (defaultPhysics, ∅)).

(** The body of [restScene] once it is grounded. *)
Definition restingBody : Body :=
  set_onGround true (withDefaults (rect 10 68 32 32 false)).
Definition restingMem : Mem :=
  mkMem (<[2%nat := restingBody]> restScene.2) [].


(** The same two bodies, but the object 2 is on layer 2 and collides with
    layer 4 only: the object 1 (mask: everything) sees it, it does not see
    the object 1 (layer 1). *)
Definition oneWay (px py w h vx : Q) : ColliderInit :=
  mkColliderInit px py w h (Some vx) None (Some false) (Some false)
                 (Some 2%Z) (Some 4%Z) None true.

Definition asymmetricScene : Physics * gmap handle Body :=
  addCollider 2%nat (oneWay 30 0 32 32 (-4))
    (addCollider 1%nat (drifting 0 0 32 32 0 true) (defaultPhysics, ∅)).
Definition asymmetricMem : Mem := mkMem asymmetricScene.2 [].

(** The falling body alone in the world, as the object 1. *)
Definition fallScene : Physics * gmap handle Body :=
  ((addCollider 1%nat (rect 0 0 32 32 false) (defaultPhysics, ∅)).1,
   <[1%nat := falling]> ∅).
Definition fallMem : Mem := mkMem fallScene.2 [].

(** A body registered on the very edge of a ledge: the floor (object 1)
    begins at x = 31.75, the body (object 2) ends at x = 32. *)
Definition ledgeScene : Physics * gmap handle Body :=
  addCollider 2%nat (rect 0 68 32 32 false)
    (addCollider 1%nat (rect (3175 # 100) 100 200 32 true) (defaultPhysics, ∅)).
Definition ledgeMem : Mem := mkMem ledgeScene.2 [].

(** The grounded body of [restingMem] with a wall (object 3) that reaches
    two units into it. *)
Definition wallScene : Physics * gmap handle Body :=
  addCollider 3%nat (rect 40 0 32 100 true) restScene.
Definition wallMem : Mem := mkMem (<[2%nat := restingBody]> wallScene.2) [].

(** An inactive dynamic body (object 2) in the air above the floor. *)
Definition sleeperInit : ColliderInit :=
  mkColliderInit 10 0 32 32 (Some 3) (Some 4) None (Some false)
                 None None (Some false) false.
Definition sleeperScene : Physics * gmap handle Body :=
  addCollider 2%nat sleeperInit
    (addCollider 1%nat floorInit (defaultPhysics, ∅)).
Definition sleeperMem : Mem := mkMem sleeperScene.2 [].
(** ** Entities and managers used in the examples *)

Definition plainConfig : Entity.Config :=
  Entity.mkConfig None None None None None None None None None
                  None None None None None None None None None.

(** A 32x32 entity at the origin with every default. *)
Definition crate : Entity.t := Entity.new plainConfig.

(** An entity thrown fast to the right and up, with an animation of four
    frames, type "enemy", and a collider inset by 2 and 4. *)
Definition runner : Entity.t :=
  Entity.set_velocity 300 (-20)
    (Entity.new
       (Entity.mkConfig (Some 100) (Some 50) None None None None None None
          (Some (1 # 2)) (Some 2) (Some 4) None None
          (Some (Entity.mkAnimation 4)) None None None (Some "enemy"%string))).

(** A store with the crate (object 1) and the runner (object 2), both
    handed to [addEntity] of a new manager. *)
Definition twoEntities : gmap handle Entity.t :=
  <[2%nat := runner]> (<[1%nat := crate]> ∅).

Definition twoPending : EntityManager.t :=
  EntityManager.addEntity 2%nat
    (EntityManager.addEntity 1%nat EntityManager.new).

(** A power-up of 24x24 at (200, 100), moving to the right. *)
Definition mushroom : Powerup.t :=
  Powerup.mk
    (Entity.new
       (Entity.mkConfig (Some 200) (Some 100) (Some 24) (Some 24) None None
          (Some false) None None None None (Some 4%Z) None None None
          (Some 7) None (Some "powerup"%string)))
    1.

(** The floor the power-up stands on: its top is at the power-up's feet,
    y = 124. *)
Definition meadow : Physics * gmap handle Body :=
  addCollider 1%nat (rect 0 124 400 32 true) (defaultPhysics, ∅).

(** A wall 3 units in front of the power-up's probe (object 1) and a block
    behind and above the power-up (object 2). *)
Definition corridor : Physics * gmap handle Body :=
  addCollider 2%nat (rect 100 40 32 32 true)
    (addCollider 1%nat (rect 232 60 32 64 true) (defaultPhysics, ∅)).

(** The ten bodies again; removed are a body in the middle and the last
    body of each partition, and two more. *)
Definition tenMinusMiddle : Physics * gmap handle Body :=
  removeAll [7; 2; 9; 4; 3]%nat tenRegistered.

(** The player, 32x32, standing on the meadow: its feet are at y = 124. *)
Definition hero : Entity.t :=
  Entity.new
    (Entity.mkConfig (Some 200) (Some 92) None None None None None None None
       None None (Some 2%Z) None None None None None (Some "player"%string)).

(** A dynamic body (object 2) that has sunk two units into a static floor
    (object 1); both define a callback and both have the default layer and
    mask, so that either gate is open for the other body. *)
Definition landingScene : Physics * gmap handle Body :=
  addCollider 2%nat (drifting 10 70 32 32 0 true)
    (addCollider 1%nat
       (mkColliderInit 0 100 200 32 None None None (Some true)
                       None None None true)
       (defaultPhysics, ∅)).
Definition landingMem : Mem := mkMem landingScene.2 [].

(** An entity whose type is the name of a property of [Object.prototype],
    handed to [addEntity] of a new manager. *)
Definition gadget : Entity.t :=
  Entity.new
    (Entity.mkConfig None None None None None None None None None
       None None None None None None None None (Some "constructor"%string)).
Definition gadgetStore : gmap handle Entity.t := <[1%nat := gadget]> ∅.
Definition gadgetPending : EntityManager.t :=
  EntityManager.addEntity 1%nat EntityManager.new.

(** The manager after its first update with the crate and the runner
    pending. *)
Definition twoRegistered : EntityManager.t :=
  EntityManager.mk [1%nat; 2%nat] [] []
    (<["enemy"%string := [2%nat]]> (<["entity"%string := [1%nat]]> ∅)).

(** * Predicates of the specification *)

(** The fields that no step of [update] writes. *)
Definition sameShape (c c' : Body) : Prop :=
  width c' = width c /\ height c' = height c /\
  affectedByGravity c' = affectedByGravity c /\ isStatic c' = isStatic c /\
  collisionLayer c' = collisionLayer c /\ collisionMask c' = collisionMask c /\
  active c' = active c /\ onCollision c' = onCollision c.

(** [m'] differs from [m] at the object [h] at most, and there only in the
    fields a tick may write. *)
Definition touches (h : handle) (m m' : Mem) : Prop :=
  (forall k, k <> h -> store m' !! k = store m !! k) /\
  (forall c, store m !! h = Some c ->
     exists c', store m' !! h = Some c' /\ sameShape c c') /\
  (store m !! h = None -> store m' !! h = None).

(** The partitions of the registry do not share an object. *)
Definition partitioned (this : Physics) : Prop :=
  forall h, h ∈ staticColliders this -> h ∉ dynamicColliders this.

(** The dynamic body [c] is supported by the body [g]: the vertical gap
    between the bottom edge of [c] and the top edge of [g] is at most one
    unit, and the horizontal extents overlap. *)
Definition supportedBy (c g : Body) : Prop :=
  Qabs (y c + height c - y g) <= 1 /\
  x c < x g + width g /\ x g < x c + width c.

(** The flag of [h] is what the Grounding Classifier computes in [st]. *)
Definition classified (this : Physics) (st : gmap handle Body) (h : handle) : Prop :=
  exists c, st !! h = Some c /\
            onGround c = existsb (standsOn st c) (staticColliders this).

(** The body [h] rests at [(x0, y0)]: it is active and grounded, it does not
    move, its bottom edge lies on the top edge of an active static body that
    passes its mask gate, it overlaps no static body that passes the gate,
    and no other dynamic body is both active and in its mask. *)
Definition resting (this : Physics) (h : handle) (x0 y0 : Q)
    (st : gmap handle Body) : Prop :=
  exists c,
    st !! h = Some c /\ active c = true /\ onGround c = true /\
    x c == x0 /\ y c == y0 /\ velocityX c == 0 /\ velocityY c == 0 /\
    (exists s g,
       s ∈ staticColliders this /\ st !! s = Some g /\ active g = true /\
       maskMatches c g = true /\ y c + height c == y g /\
       x c < x g + width g /\ x g < x c + width c) /\
    (forall o g,
       o ∈ staticColliders this -> st !! o = Some g -> active g = true ->
       maskMatches c g = true -> checkCollision c g = false) /\
    (forall o d,
       o ∈ dynamicColliders this -> o <> h -> st !! o = Some d ->
       active d = false \/ maskMatches c d = false).

(** Counting the events of a trace. *)
Fixpoint countIf (p : Event -> bool) (tr : list Event) : nat :=
  match tr with
  | [] => O
  | e :: tr' => (if p e then 1 else 0) + countIf p tr'
  end.

(** [resolveCollision(a, b)] was called. *)
Definition isResolved (a b : handle) (e : Event) : bool :=
  match e with
  | Resolved h o _ => Nat.eqb h a && Nat.eqb o b
  | Called _ _ _ _ => false
  end.

(** [a.onCollision(b)] was called. *)
Definition isCalled (a b : handle) (e : Event) : bool :=
  match e with
  | Resolved _ _ _ => false
  | Called r o _ _ => Nat.eqb r a && Nat.eqb o b
  end.

(** The two objects an event is about: the collider and the other body of a
    resolution, the receiver and the argument of a callback. *)
Definition ends (e : Event) : handle * handle :=
  match e with
  | Resolved h o _ => (h, o)
  | Called r o _ _ => (r, o)
  end.

(** The gate of [b] is closed for [a]: the mask of [b] misses the layer of
    [a]. *)
Definition gateClosed (b a : handle) (st : gmap handle Body) : Prop :=
  forall cb ca, st !! b = Some cb -> st !! a = Some ca ->
                maskMatches cb ca = false.

(** [evs] holds at most the one call [r.onCollision(a)]. *)
Definition callOf (r a : handle) (evs : list Event) : Prop :=
  evs = [] \/ exists b1 b2, evs = [Called r a b1 b2].

(** The loop body of the scan of the other dynamic colliders. *)
Definition collideOther (h o : handle) (m : Mem) : Mem :=
  if Nat.eqb h o then m else collide h o m.

(** One of the two scans of a pass, [f] being [collide] or [collideOther]. *)
Definition scanWith (f : handle -> handle -> Mem -> Mem)
    (h : handle) (l : list handle) (m : Mem) : Mem :=
  fold_left (fun m o => f h o m) l m.

Definition scanStep (f : handle -> handle -> Mem -> Mem) : Prop :=
  forall h o m, f h o m = m \/ f h o m = collide h o m.


(** The registry as [addCollider] and [removeCollider] keep it when every
    object is registered once: no array repeats an object, and a partition
    holds exactly the objects of the flat array with the matching
    [isStatic] flag. *)
Definition wellFormed (w : Physics * gmap handle Body) : Prop :=
  NoDup (colliders w.1) /\
  NoDup (staticColliders w.1) /\
  NoDup (dynamicColliders w.1) /\
  (forall h, h ∈ staticColliders w.1 ->
     h ∈ colliders w.1 /\ exists c, w.2 !! h = Some c /\ isStatic c = true) /\
  (forall h, h ∈ dynamicColliders w.1 ->
     h ∈ colliders w.1 /\ exists c, w.2 !! h = Some c /\ isStatic c = false).

(** The bodies the ray caster tests: registered objects that are active and
    whose layer meets the mask. *)
Definition candidate (st : gmap handle Body) (mask : Z) (h : handle) (c : Body) : Prop :=
  st !! h = Some c /\ active c = true /\
  Z.land (collisionLayer c) mask <> 0%Z.

(** What the loop of [raycast] has found after the colliders [seen]: no hit
    among them, or a closest one. *)
Definition closestAmong (st : gmap handle Body)
    (startX startY normDirX normDirY dist : Q) (mask : Z)
    (seen : list handle) (acc : option Hit * ExtQ) : Prop :=
  match acc.1 with
  | None =>
      acc.2 = Infinity /\
      forall h c hit', h ∈ seen -> candidate st mask h c ->
        raycastCollider startX startY normDirX normDirY dist h c <> Some hit'
  | Some hit =>
      acc.2 = Finite (distance hit) /\
      (exists h c, h ∈ seen /\ candidate st mask h c /\
         raycastCollider startX startY normDirX normDirY dist h c = Some hit) /\
      forall h c hit', h ∈ seen -> candidate st mask h c ->
        raycastCollider startX startY normDirX normDirY dist h c = Some hit' ->
        distance hit <= distance hit'
  end.


(** The event is about the object [h], as either of its two ends. *)
Definition mentions (h : handle) (e : Event) : bool :=
  Nat.eqb (ends e).1 h || Nat.eqb (ends e).2 h.
(** ** When a body does not detect another *)




(** ** Rest among other dynamic bodies *)

(** The body [h] rests at [(x0, y0)] on a static surface: [resting] without
    its clause on the other dynamic bodies. *)
Definition restingOnStatic (this : Physics) (h : handle) (x0 y0 : Q)
    (st : gmap handle Body) : Prop :=
  exists c,
    st !! h = Some c /\ active c = true /\ onGround c = true /\
    x c == x0 /\ y c == y0 /\ velocityX c == 0 /\ velocityY c == 0 /\
    (exists s g,
       s ∈ staticColliders this /\ st !! s = Some g /\ active g = true /\
       maskMatches c g = true /\ y c + height c == y g /\
       x c < x g + width g /\ x g < x c + width c) /\
    (forall o g,
       o ∈ staticColliders this -> st !! o = Some g -> active g = true ->
       maskMatches c g = true -> checkCollision c g = false).

(** No other dynamic body that is active and within the mask of [h]
    overlaps [h]. *)
Definition clearOfDynamics (this : Physics) (h : handle)
    (st : gmap handle Body) : Prop :=
  forall c o d,
    st !! h = Some c -> o ∈ dynamicColliders this -> o <> h ->
    st !! o = Some d ->
    active d = false \/ maskMatches c d = false \/ checkCollision c d = false.

(** The states in which a pass of [h] begins while the loop of [update]
    runs over [l] from [m]. *)
Fixpoint passStates (this : Physics) (deltaTime : Q) (h : handle)
    (l : list handle) (m : Mem) : list Mem :=
  match l with
  | [] => []
  | k :: l' =>
      (if Nat.eqb k h then [m] else [])
      ++ passStates this deltaTime h l' (stepCollider this deltaTime k m)
  end.

(** The bodies of [R] rest together: each of them rests on a static
    surface, and every other dynamic body that is active and within its
    mask is one of [R] and does not overlap it. *)
Definition restingTogether (this : Physics) (R : list handle)
    (st : gmap handle Body) : Prop :=
  forall h, h ∈ R ->
    h ∈ dynamicColliders this /\
    (exists x0 y0, restingOnStatic this h x0 y0 st) /\
    forall c o d,
      st !! h = Some c -> o ∈ dynamicColliders this -> o <> h ->
      st !! o = Some d ->
      active d = false \/ maskMatches c d = false \/
      (o ∈ R /\ checkCollision c d = false).

(** Two bodies (objects 2 and 3) grounded on the floor of [restScene], 58
    units apart. *)
Definition twoResting : Physics * gmap handle Body :=
  addCollider 3%nat (rect 100 68 32 32 false) restScene.
Definition twoRestingMem : Mem :=
  mkMem (<[3%nat := set_onGround true (withDefaults (rect 100 68 32 32 false))]>
           (<[2%nat := restingBody]> twoResting.2)) [].

(** The grounded body of [restingMem] and a second dynamic body (object 3),
    grounded on the same floor, that reaches two units into it. *)
Definition shoveScene : Physics * gmap handle Body :=
  addCollider 3%nat (rect 40 68 32 32 false) restScene.
Definition shoveMem : Mem :=
  mkMem (<[3%nat := set_onGround true (withDefaults (rect 40 68 32 32 false))]>
           (<[2%nat := restingBody]> shoveScene.2)) [].

(** * Properties *)

(** ** Comparisons *)

Lemma Qltb_lt a b : Qltb a b = true <-> a < b.
Proof.
  unfold Qltb. rewrite negb_true_iff, <- not_true_iff_false, Qle_bool_iff.
  split; [apply Qnot_le_lt | apply Qlt_not_le].
Qed.

Lemma Qltb_ge a b : Qltb a b = false <-> b <= a.
Proof.
  unfold Qltb. rewrite negb_false_iff. apply Qle_bool_iff.
Qed.

Lemma Qgtb_gt a b : Qgtb a b = true <-> b < a.
Proof. apply Qltb_lt. Qed.

Lemma Qgtb_le a b : Qgtb a b = false <-> a <= b.
Proof. apply Qltb_ge. Qed.

Lemma Qle_bool_gt a b : Qle_bool a b = false <-> b < a.
Proof.
  rewrite <- not_true_iff_false, Qle_bool_iff.
  split; [apply Qnot_le_lt | apply Qlt_not_le].
Qed.

Lemma Math_min_spec a b :
  (a <= b /\ Math_min a b = a) \/ (b < a /\ Math_min a b = b).
Proof.
  unfold Math_min. destruct (Qle_bool a b) eqn:E.
  - left. split; [by apply Qle_bool_iff | done].
  - right. split; [by apply Qle_bool_gt | done].
Qed.

Lemma Math_max_spec a b :
  (a <= b /\ Math_max a b = b) \/ (b < a /\ Math_max a b = a).
Proof.
  unfold Math_max. destruct (Qle_bool a b) eqn:E.
  - left. split; [by apply Qle_bool_iff | done].
  - right. split; [by apply Qle_bool_gt | done].
Qed.


(** ** Setters *)

Ltac unfold_setters :=
  unfold set_x, set_y, set_velocityX, set_velocityY, set_prev, set_onGround in *;
  simpl in *.

(** Turns the boolean comparisons of the context and the goal into
    inequalities of [Q]. *)
Ltac q_reflect :=
  repeat match goal with
  | H : Qltb _ _ = true |- _ => apply Qltb_lt in H
  | H : Qltb _ _ = false |- _ => apply Qltb_ge in H
  | H : Qgtb _ _ = true |- _ => apply Qgtb_gt in H
  | H : Qgtb _ _ = false |- _ => apply Qgtb_le in H
  | H : Qgeb _ _ = true |- _ => apply Qle_bool_iff in H
  | H : Qgeb _ _ = false |- _ => apply Qle_bool_gt in H
  | H : Qle_bool _ _ = true |- _ => apply Qle_bool_iff in H
  | H : Qle_bool _ _ = false |- _ => apply Qle_bool_gt in H
  | |- Qltb _ _ = true => apply Qltb_lt
  | |- Qltb _ _ = false => apply Qltb_ge
  | |- Qgtb _ _ = true => apply Qgtb_gt
  | |- Qgtb _ _ = false => apply Qgtb_le
  | |- Qgeb _ _ = true => apply Qle_bool_iff
  | |- Qgeb _ _ = false => apply Qle_bool_gt
  | |- Qle_bool _ _ = true => apply Qle_bool_iff
  | |- Qle_bool _ _ = false => apply Qle_bool_gt
  end.

(** ** Collision Detector *)

Lemma checkCollision_true a b :
  checkCollision a b = true <->
  x a < x b + width b /\ x b < x a + width a /\
  y a < y b + height b /\ y b < y a + height a.
Proof.
  unfold checkCollision. rewrite !andb_true_iff, !Qltb_lt, !Qgtb_gt. tauto.
Qed.

Lemma checkCollision_false a b :
  checkCollision a b = false <->
  x b + width b <= x a \/ x a + width a <= x b \/
  y b + height b <= y a \/ y a + height a <= y b.
Proof.
  unfold checkCollision. rewrite !andb_false_iff, !Qltb_ge, !Qgtb_le. tauto.
Qed.

(** The test only reads the two rectangles, up to equality of rationals. *)
Lemma checkCollision_Qeq a a' b :
  x a' == x a -> y a' == y a -> width a' == width a -> height a' == height a ->
  checkCollision a' b = checkCollision a b.
Proof.
  intros Hx Hy Hw Hh.
  destruct (checkCollision a b) eqn:E.
  - apply checkCollision_true in E. apply checkCollision_true. lra.
  - apply checkCollision_false in E. apply checkCollision_false. lra.
Qed.

(** ** Collision Resolver *)

Lemma resolveCollision_X a b :
  overlapX a b < overlapY a b ->
  resolveCollision a b =
    set_velocityX (- velocityX a * (5 # 10))
      (set_x (if Qltb (x a) (x b) then x b - width a else x b + width b) a).
Proof.
  intros H. apply Qltb_lt in H. unfold resolveCollision. rewrite H.
  by destruct (Qltb (x a) (x b)).
Qed.

Lemma resolveCollision_Y a b :
  ~ overlapX a b < overlapY a b ->
  resolveCollision a b =
    if Qltb (y a) (y b)
    then set_velocityY 0 (set_onGround true (set_y (y b - height a) a))
    else set_velocityY 0 (set_y (y b + height b) a).
Proof.
  intros H. unfold resolveCollision.
  destruct (Qltb (overlapX a b) (overlapY a b)) eqn:E; [|done].
  apply Qltb_lt in E. contradiction.
Qed.

(** Both penetration depths of an overlapping pair are positive. *)
Lemma overlap_positive a b :
  checkCollision a b = true -> 0 < overlapX a b /\ 0 < overlapY a b.
Proof.
  intros H. apply checkCollision_true in H. unfold overlapX, overlapY.
  split.
  - destruct (Math_min_spec (x a + width a - x b) (x b + width b - x a))
      as [[_ ->]|[_ ->]]; lra.
  - destruct (Math_min_spec (y a + height a - y b) (y b + height b - y a))
      as [[_ ->]|[_ ->]]; lra.
Qed.

(** With exact arithmetic a correction puts A flush against B and outside
    of it on either side: [A.x + A.width = B.x] when [A.x < B.x],
    [A.x = B.x + B.width] otherwise, and likewise on the Y axis. *)
Lemma resolveCollision_exact_arithmetic (a b : Body) :
  (overlapX a b < overlapY a b ->
     y (resolveCollision a b) = y a /\
     velocityY (resolveCollision a b) = velocityY a /\
     (x a < x b ->
        x (resolveCollision a b) + width (resolveCollision a b) == x b) /\
     (~ x a < x b -> x (resolveCollision a b) == x b + width b) /\
     checkCollision (resolveCollision a b) b = false) /\
  (~ overlapX a b < overlapY a b ->
     x (resolveCollision a b) = x a /\
     velocityX (resolveCollision a b) = velocityX a /\
     (y a < y b ->
        y (resolveCollision a b) + height (resolveCollision a b) == y b) /\
     (~ y a < y b -> y (resolveCollision a b) == y b + height b)) /\
  (checkCollision mover32 block32 = true /\
   overlapX mover32 block32 == 4 /\ overlapY mover32 block32 == 20 /\
   x (resolveCollision mover32 block32) + width mover32 == x block32 /\
   y (resolveCollision mover32 block32) = y mover32).
Proof.
  split; [|split].
  - intros H. rewrite (resolveCollision_X _ _ H).
    destruct (Qltb (x a) (x b)) eqn:E; q_reflect; simpl.
    + split; [done|]. split; [done|]. split; [intros _; ring|].
      split; [intros Hn; contradiction|].
      apply checkCollision_false. simpl. right. left. lra.
    + split; [done|]. split; [done|]. split; [intros Hn; lra|].
      split; [intros _; reflexivity|].
      apply checkCollision_false. simpl. left. lra.
  - intros H. rewrite (resolveCollision_Y _ _ H).
    destruct (Qltb (y a) (y b)) eqn:E; q_reflect; simpl.
    + split; [done|]. split; [done|]. split; [intros _; ring|].
      intros Hn. contradiction.
    + split; [done|]. split; [done|]. split; [intros Hn; lra|].
      intros _. reflexivity.
  - repeat split; try reflexivity.
Qed.

(** A tie: both depths are 4, and the correction goes to the Y axis. *)
Example ties_resolve_on_Y :
  let a := withDefaults (rect 0 0 32 32 false) in
  let b := withDefaults (rect 28 28 32 32 true) in
  overlapX a b == overlapY a b /\ x (resolveCollision a b) = x a /\
  y (resolveCollision a b) == -4.
Proof. repeat split; reflexivity. Qed.

(** C6, as the code has it.  The overlap test has no guard for a rectangle
    of zero width or height: such a body overlaps B exactly when its
    position lies strictly inside B's extent on that axis (and the other
    axis overlaps as for any body).  It overlaps no body that is degenerate
    on the same axis.  The ray caster has no guard either: the slab of a
    body of width zero is a single parameter value, and a horizontal ray
    that reaches it within the segment hits it. *)
Theorem zero_size_body_overlap (a b : Body) :
  (width a == 0 ->
     (checkCollision a b = true <->
      x b < x a /\ x a < x b + width b /\
      y a < y b + height b /\ y b < y a + height a)) /\
  (height a == 0 ->
     (checkCollision a b = true <->
      x a < x b + width b /\ x b < x a + width a /\
      y b < y a /\ y a < y b + height b)) /\
  (width a == 0 -> width b == 0 -> checkCollision a b = false) /\
  (height a == 0 -> height b == 0 -> checkCollision a b = false) /\
  (forall startX startY dirX maxDistance h,
     width a == 0 -> ~ dirX == 0 ->
     0 <= (x a - startX) / dirX -> (x a - startX) / dirX <= maxDistance ->
     exists hit,
       raycastCollider startX startY dirX 0 maxDistance h a = Some hit /\
       distance hit == (x a - startX) / dirX).
Proof.
  split; [|split; [|split; [|split]]].
  - intros Hw. rewrite checkCollision_true. split; intros E; lra.
  - intros Hh. rewrite checkCollision_true. split; intros E; lra.
  - intros Ha Hb. apply checkCollision_false.
    destruct (Qlt_le_dec (x a) (x b)); [right; left | left]; lra.
  - intros Ha Hb. apply checkCollision_false.
    destruct (Qlt_le_dec (y a) (y b));
      [right; right; right | right; right; left]; lra.
  - intros startX startY dirX maxDistance h Hw Hd H0 Hmax.
    unfold raycastCollider, slab.
    assert (Hd' : Qeq_bool dirX 0 = false).
    { apply not_true_iff_false. rewrite Qeq_bool_iff. exact Hd. }
    rewrite Hd'. simpl negb. cbv iota.
    assert (Ht : (x a + width a - startX) / dirX == (x a - startX) / dirX).
    { apply Qdiv_comp; [lra | reflexivity]. }
    set (t1 := (x a - startX) / dirX) in *.
    set (t2 := (x a + width a - startX) / dirX) in *.
    assert (Hmin : Math_min t1 t2 == t1).
    { destruct (Math_min_spec t1 t2) as [[? ->]|[? ->]]; lra. }
    assert (Hmax' : Math_max t1 t2 == t1).
    { destruct (Math_max_spec t1 t2) as [[? ->]|[? ->]]; lra. }
    assert (Hle : Qle_bool (Math_min t1 t2) (Math_max t1 t2) = true).
    { apply Qle_bool_iff. lra. }
    assert (Hge : Qle_bool 0 (Math_min t1 t2) = true).
    { apply Qle_bool_iff. lra. }
    assert (Hin : Qle_bool (Math_min t1 t2) maxDistance = true).
    { apply Qle_bool_iff. lra. }
    simpl. rewrite Hle, Hge, Hin. simpl.
    eexists. split; [reflexivity | exact Hmin].
Qed.

(** C6, as the claim states it, fails: a point body inside a box overlaps
    it, and a ray hits a wall of width zero. *)
Lemma zero_size_body_does_overlap :
  width pointBody == 0 /\ height pointBody == 0 /\
  checkCollision pointBody box10 = true /\
  width thinWall == 0 /\
  (exists hit, raycastCollider 0 16 1 0 100 7%nat thinWall = Some hit /\
               distance hit == 50).
Proof.
  repeat split; try reflexivity.
  eexists. split; [vm_compute; reflexivity | reflexivity].
Qed.
(** ** The resolver in binary64 *)

Lemma SFltb_irrefl s : SFltb s s = false.
Proof.
  unfold SFltb, SFcompare. destruct s as [[]|[]| |[] m e]; try reflexivity.
  - rewrite Z.compare_refl, Pos.compare_cont_refl. reflexivity.
  - rewrite Z.compare_refl, Pos.compare_cont_refl. reflexivity.
Qed.

(** No number is below itself, NaN included. *)
Lemma ltb_irrefl v : PrimFloat.ltb v v = false.
Proof. rewrite ltb_spec. apply SFltb_irrefl. Qed.

(** C4, as the code has it.  Resolution corrects the X axis exactly when
    [overlapX < overlapY] strictly (a tie, or a depth that is NaN, goes to
    the Y axis).  On the X path the Y coordinate, the vertical velocity and
    the size are untouched, and [A.x] becomes [B.x - A.width] when
    [A.x < B.x] and [B.x + B.width] otherwise; on the Y path the X
    coordinate is untouched and [A.y] becomes [B.y - A.height] or
    [B.y + B.height].  Placed at [B.x + B.width] or [B.y + B.height], A is
    flush against B and the overlap test fails.  Placed at [B.x - A.width]
    or [B.y - A.height], A is flush up to the rounding of the subtraction
    and of the addition: the overlap test can only succeed again if
    [(B.x - A.width) + A.width] lies above [B.x].  For the two 32x32 bodies
    with [overlapX = 4] and [overlapY = 20] only X is corrected and A is
    flush. *)
Theorem resolveCollision_minimum_translation (a b : Double.Body) :
  let r := Double.resolveCollision a b in
  (PrimFloat.ltb (Double.overlapX a b) (Double.overlapY a b) = true ->
     Double.y r = Double.y a /\ Double.velocityY r = Double.velocityY a /\
     Double.width r = Double.width a /\ Double.height r = Double.height a /\
     (PrimFloat.ltb (Double.x a) (Double.x b) = true ->
        Double.x r = PrimFloat.sub (Double.x b) (Double.width a) /\
        (Double.checkCollision r b = true ->
         PrimFloat.ltb (Double.x b)
           (PrimFloat.add (PrimFloat.sub (Double.x b) (Double.width a))
                          (Double.width a)) = true)) /\
     (PrimFloat.ltb (Double.x a) (Double.x b) = false ->
        Double.x r = PrimFloat.add (Double.x b) (Double.width b) /\
        Double.checkCollision r b = false)) /\
  (PrimFloat.ltb (Double.overlapX a b) (Double.overlapY a b) = false ->
     Double.x r = Double.x a /\ Double.velocityX r = Double.velocityX a /\
     Double.width r = Double.width a /\ Double.height r = Double.height a /\
     (PrimFloat.ltb (Double.y a) (Double.y b) = true ->
        Double.y r = PrimFloat.sub (Double.y b) (Double.height a) /\
        Double.onGround r = true /\
        (Double.checkCollision r b = true ->
         PrimFloat.ltb (Double.y b)
           (PrimFloat.add (PrimFloat.sub (Double.y b) (Double.height a))
                          (Double.height a)) = true)) /\
     (PrimFloat.ltb (Double.y a) (Double.y b) = false ->
        Double.y r = PrimFloat.add (Double.y b) (Double.height b) /\
        Double.checkCollision r b = false)) /\
  (Double.checkCollision mover64 block64 = true /\
   Double.overlapX mover64 block64 = 4%float /\
   Double.overlapY mover64 block64 = 20%float /\
   PrimFloat.add (Double.x (Double.resolveCollision mover64 block64))
                 (Double.width mover64) = Double.x block64 /\
   Double.y (Double.resolveCollision mover64 block64) = Double.y mover64 /\
   Double.checkCollision (Double.resolveCollision mover64 block64) block64
     = false).
Proof.
  intros r. subst r. split; [|split].
  - intros H. unfold Double.resolveCollision. rewrite H.
    cbn [Double.x Double.y Double.width Double.height Double.velocityX
         Double.velocityY Double.onGround].
    do 4 (split; [reflexivity|]). split.
    + intros E. rewrite E. split; [reflexivity|].
      unfold Double.checkCollision.
      cbn [Double.x Double.y Double.width Double.height].
      intros Hc. apply andb_true_iff in Hc as [Hc _].
      apply andb_true_iff in Hc as [Hc _].
      by apply andb_true_iff in Hc as [_ Hc].
    + intros E. rewrite E. split; [reflexivity|].
      unfold Double.checkCollision.
      cbn [Double.x Double.y Double.width Double.height].
      by rewrite ltb_irrefl.
  - intros H. unfold Double.resolveCollision. rewrite H.
    destruct (PrimFloat.ltb (Double.y a) (Double.y b)) eqn:E;
      cbn [Double.x Double.y Double.width Double.height Double.velocityX
           Double.velocityY Double.onGround];
      do 4 (split; [reflexivity|]); (split; [|intros E'; try discriminate]).
    + intros _. split; [reflexivity|]. split; [reflexivity|].
      unfold Double.checkCollision.
      cbn [Double.x Double.y Double.width Double.height].
      intros Hc. by apply andb_true_iff in Hc as [_ Hc].
    + intros E'. discriminate.
    + split; [reflexivity|].
      unfold Double.checkCollision.
      cbn [Double.x Double.y Double.width Double.height].
      by rewrite ltb_irrefl, andb_false_r.
  - repeat split; reflexivity.
Qed.

(** C4, as the claim states it, fails in binary64.  The body at x = -27.7
    reaches into the body at x = 0.3; it is corrected along X to
    0.3 - 32, and its right edge (0.3 - 32) + 32 = 0.3000000000000007 is
    not at [B.x]: A is not flush, and the two bodies still overlap after
    the correction. *)
Lemma correction_not_flush_in_binary64 :
  Double.checkCollision sled64 kerb64 = true /\
  PrimFloat.ltb (Double.overlapX sled64 kerb64) (Double.overlapY sled64 kerb64)
    = true /\
  PrimFloat.ltb (Double.x sled64) (Double.x kerb64) = true /\
  PrimFloat.eqb
    (PrimFloat.add (Double.x (Double.resolveCollision sled64 kerb64))
                   (Double.width (Double.resolveCollision sled64 kerb64)))
    (Double.x kerb64) = false /\
  Double.checkCollision (Double.resolveCollision sled64 kerb64) kerb64 = true.
Proof. repeat split; vm_compute; reflexivity. Qed.

(** ** Integrator *)

Ltac case_ifs :=
  repeat match goal with
  | |- context [if ?b then _ else _] => destruct b eqn:?
  end.

Lemma applyGravity_airborne this c dt :
  onGround c = false ->
  (velocityY c + gravity this * dt <= terminalVelocity this ->
     velocityY (applyGravity this c dt) = velocityY c + gravity this * dt) /\
  (terminalVelocity this < velocityY c + gravity this * dt ->
     velocityY (applyGravity this c dt) = terminalVelocity this).
Proof.
  intros Hg. unfold applyGravity. rewrite Hg. simpl.
  destruct (Qgtb _ _) eqn:E; q_reflect; simpl; split; intros H; try done; lra.
Qed.

Lemma integrate_velocityY this dt c :
  velocityY (integrate this dt c) =
  if affectedByGravity c
  then velocityY (applyGravity this (set_prev (x c) (y c) c) dt)
  else velocityY c.
Proof.
  unfold integrate, applyFriction, applyGravity. simpl. case_ifs; done.
Qed.

Lemma integrate_flags this dt c :
  onGround (integrate this dt c) = onGround c /\
  affectedByGravity (integrate this dt c) = affectedByGravity c.
Proof.
  unfold integrate, applyFriction, applyGravity. simpl.
  case_ifs; simpl in *; split; congruence.
Qed.

Lemma integrate_velocityX_grounded this dt c :
  onGround c = true ->
  velocityX (integrate this dt c) =
  if Qgtb (Math_abs (velocityX c)) (1 # 100)
  then velocityX c * friction this else 0.
Proof.
  intros Hg. unfold integrate, applyFriction, applyGravity. simpl.
  rewrite Hg. simpl. case_ifs; simpl in *; congruence.
Qed.

(** C7, as the code has it.  For a grounded body the integrator tests
    [|velocityX|] before it scales: above 0.01 the velocity is multiplied by
    the friction coefficient (and not snapped afterwards), at or below 0.01
    it is set to exactly 0. *)
Theorem friction_scales_or_stops (this : Physics) (deltaTime : Q) (c : Body) :
  onGround c = true ->
  ((1 # 100) < Qabs (velocityX c) ->
     velocityX (integrate this deltaTime c) = velocityX c * friction this) /\
  (Qabs (velocityX c) <= (1 # 100) ->
     velocityX (integrate this deltaTime c) = 0).
Proof.
  intros Hg. rewrite (integrate_velocityX_grounded _ _ _ Hg).
  unfold Math_abs.
  destruct (Qgtb (Qabs (velocityX c)) (1 # 100)) eqn:E; q_reflect;
    split; intros H; try done; lra.
Qed.

(** A grounded body at 0.012 units per second is above the threshold. *)
Lemma friction_scales_or_stops_witness :
  onGround creeping = true /\
  velocityX (integrate defaultPhysics (1 # 10) creeping)
    = velocityX creeping * friction defaultPhysics.
Proof.
  split; [reflexivity|].
  apply (friction_scales_or_stops defaultPhysics (1 # 10) creeping).
  - reflexivity.
  - reflexivity.
Defined.

(** C7, as the claim states it, fails: 0.012 is scaled to 0.0096, which is
    below 0.01 and is not snapped to 0. *)
Lemma scaled_velocity_not_snapped :
  onGround creeping = true /\
  velocityX (integrate defaultPhysics (1 # 10) creeping) == 96 # 10000 /\
  Qabs (velocityX (integrate defaultPhysics (1 # 10) creeping)) < 1 # 100 /\
  ~ velocityX (integrate defaultPhysics (1 # 10) creeping) == 0.
Proof.
  split; [reflexivity|]. split; [reflexivity|]. split; [reflexivity|].
  intros H. discriminate H.
Qed.

(** Free fall keeps a body airborne and under gravity. *)
Lemma freefall_flags n this dt c :
  onGround (freefall n this dt c) = onGround c /\
  affectedByGravity (freefall n this dt c) = affectedByGravity c.
Proof.
  revert c. induction n as [|n IH]; intros c; simpl; [done|].
  destruct (IH (integrate this dt c)) as [-> ->]. apply integrate_flags.
Qed.

Lemma integrate_clamped this dt c :
  affectedByGravity c = true -> onGround c = false ->
  velocityY (integrate this dt c) <= terminalVelocity this.
Proof.
  intros Hg Ho. rewrite integrate_velocityY, Hg.
  destruct (applyGravity_airborne this (set_prev (x c) (y c) c) dt Ho) as [H1 H2].
  simpl in H1, H2.
  destruct (Qlt_le_dec (terminalVelocity this) (velocityY c + gravity this * dt)).
  - rewrite H2 by done. lra.
  - rewrite H1 by done. done.
Qed.


(** ** What a tick writes *)

Lemma sameShape_refl c : sameShape c c.
Proof. by repeat split. Qed.

Lemma sameShape_trans c1 c2 c3 :
  sameShape c1 c2 -> sameShape c2 c3 -> sameShape c1 c3.
Proof. unfold sameShape. intros H1 H2. intuition congruence. Qed.

Lemma sameShape_maskMatches_l c c' g :
  sameShape c c' -> maskMatches c' g = maskMatches c g.
Proof. intros H. unfold maskMatches. destruct H as (_&_&_&_&_&->&_). done. Qed.

Lemma sameShape_maskMatches_r c g g' :
  sameShape g g' -> maskMatches c g' = maskMatches c g.
Proof. intros H. unfold maskMatches. destruct H as (_&_&_&_&->&_). done. Qed.

Lemma sameShape_active c c' : sameShape c c' -> active c' = active c.
Proof. intros H. apply H. Qed.

Lemma resolveCollision_shape a b : sameShape a (resolveCollision a b).
Proof. unfold resolveCollision. case_ifs; by repeat split. Qed.

Lemma integrate_shape this dt c : sameShape c (integrate this dt c).
Proof.
  unfold integrate, applyFriction, applyGravity. simpl.
  case_ifs; by repeat split.
Qed.

Lemma set_onGround_shape v c : sameShape c (set_onGround v c).
Proof. by repeat split. Qed.

Lemma touches_refl h m : touches h m m.
Proof.
  split; [done|]. split; [|done].
  intros c Hc. exists c. split; [done | apply sameShape_refl].
Qed.

Lemma touches_trans h m1 m2 m3 :
  touches h m1 m2 -> touches h m2 m3 -> touches h m1 m3.
Proof.
  intros (A1 & B1 & C1) (A2 & B2 & C2). split; [|split].
  - intros k Hk. rewrite A2, A1; done.
  - intros c Hc. destruct (B1 c Hc) as (c2 & Hc2 & S2).
    destruct (B2 c2 Hc2) as (c3 & Hc3 & S3).
    exists c3. split; [done | by eapply sameShape_trans].
  - intros Hn. apply C2, C1, Hn.
Qed.

Lemma write_touches h c c' m :
  store m !! h = Some c -> sameShape c c' -> touches h m (write h c' m).
Proof.
  intros Hc HS. split; [|split]; simpl.
  - intros k Hk. by rewrite lookup_insert_ne.
  - intros c0 Hc0. exists c'. rewrite lookup_insert_eq. split; [done|].
    congruence.
  - congruence.
Qed.

Lemma notify_store r a m : store (notify r a m) = store m.
Proof.
  unfold notify. destruct (store m !! r) as [rb|]; [|done].
  destruct (store m !! a); [|done]. by destruct (onCollision rb).
Qed.

Lemma store_eq_touches h m m' : store m' = store m -> touches h m m'.
Proof.
  intros E. unfold touches. rewrite E. split; [done|]. split; [|done].
  intros c Hc. exists c. split; [done | apply sameShape_refl].
Qed.

Lemma collide_touches h o m : touches h m (collide h o m).
Proof.
  unfold collide.
  destruct (store m !! h) as [c|] eqn:Hc; [|apply touches_refl].
  destruct (store m !! o) as [b|] eqn:Hb; [|apply touches_refl].
  destruct (negb (active b)); [apply touches_refl|].
  destruct (negb (maskMatches c b)); [apply touches_refl|].
  destruct (checkCollision c b); [|apply touches_refl].
  eapply touches_trans.
  - apply (write_touches h c (resolveCollision c b) m Hc).
    apply resolveCollision_shape.
  - apply store_eq_touches. by rewrite !notify_store.
Qed.

Lemma fold_touches {A} (f : Mem -> A -> Mem) h l :
  (forall m a, touches h m (f m a)) ->
  forall m, touches h m (fold_left f l m).
Proof.
  intros Hf. induction l as [|a l IH]; intros m; simpl.
  - apply touches_refl.
  - eapply touches_trans; [apply Hf | apply IH].
Qed.

Lemma collideStatics_touches this h m : touches h m (collideStatics this h m).
Proof. apply fold_touches. intros. apply collide_touches. Qed.

Lemma collideDynamics_touches this h m : touches h m (collideDynamics this h m).
Proof.
  apply fold_touches. intros m0 o.
  destruct (Nat.eqb h o); [apply touches_refl | apply collide_touches].
Qed.

Lemma classify_touches this h m : touches h m (classify this h m).
Proof.
  unfold classify.
  destruct (store m !! h) as [c|] eqn:Hc; [|apply touches_refl].
  simpl. rewrite lookup_insert_eq.
  pose proof (write_touches h c (set_onGround false c) m Hc
                (set_onGround_shape _ _)) as H0.
  destruct (existsb _ _); [|done].
  eapply touches_trans; [exact H0|].
  eapply write_touches; [simpl; by rewrite lookup_insert_eq|].
  apply set_onGround_shape.
Qed.

Lemma stepCollider_touches this dt h m : touches h m (stepCollider this dt h m).
Proof.
  unfold stepCollider.
  destruct (store m !! h) as [c|] eqn:Hc; [|apply touches_refl].
  destruct (negb (active c)); [apply touches_refl|].
  eapply touches_trans;
    [apply (write_touches h c (integrate this dt c) m Hc), integrate_shape|].
  eapply touches_trans; [apply collideStatics_touches|].
  eapply touches_trans; [apply collideDynamics_touches|].
  apply classify_touches.
Qed.

Lemma stepCollider_inactive this dt h m c :
  store m !! h = Some c -> active c = false -> stepCollider this dt h m = m.
Proof. intros Hc Ha. unfold stepCollider. by rewrite Hc, Ha. Qed.

(** Every object keeps its shape through a step. *)
Lemma stepCollider_shape this dt h m k c :
  store m !! k = Some c ->
  exists c', store (stepCollider this dt h m) !! k = Some c' /\ sameShape c c'.
Proof.
  intros Hc. destruct (stepCollider_touches this dt h m) as (A & B & _).
  destruct (decide (k = h)) as [->|Hne].
  - by apply B.
  - exists c. rewrite A by done. split; [done | apply sameShape_refl].
Qed.

(** Every object keeps its shape through any number of steps. *)
Lemma updateOver_shape this dt l : forall m k c,
  store m !! k = Some c ->
  exists c', store (updateOver this dt l m) !! k = Some c' /\ sameShape c c'.
Proof.
  induction l as [|h l IH]; intros m k c Hc; simpl.
  - exists c. split; [done | apply sameShape_refl].
  - destruct (stepCollider_shape this dt h m k c Hc) as (c1 & Hc1 & S1).
    destruct (IH _ _ _ Hc1) as (c' & Hc' & S').
    exists c'. split; [done | by eapply sameShape_trans].
Qed.

(** An object that is not stepped is not written. *)
Lemma updateOver_other this dt l : forall m k,
  k ∉ l -> store (updateOver this dt l m) !! k = store m !! k.
Proof.
  induction l as [|h l IH]; intros m k Hk; simpl; [done|].
  apply not_elem_of_cons in Hk as [Hne Hk].
  rewrite (IH _ _ Hk).
  by apply (stepCollider_touches this dt h m).
Qed.

(** An inactive object is not written either. *)
Lemma updateOver_inactive this dt l : forall m k c,
  store m !! k = Some c -> active c = false ->
  store (updateOver this dt l m) !! k = Some c.
Proof.
  induction l as [|h l IH]; intros m k c Hc Ha; simpl; [done|].
  apply IH; [|done].
  destruct (decide (k = h)) as [->|Hne].
  - by rewrite (stepCollider_inactive this dt h m c Hc Ha).
  - destruct (stepCollider_touches this dt h m) as (A & _). by rewrite A.
Qed.

(** What a step leaves of an object is an object it found. *)
Lemma touches_back k m m' j c' :
  touches k m m' -> store m' !! j = Some c' ->
  exists c, store m !! j = Some c /\ sameShape c c'.
Proof.
  intros T Hj. destruct T as (T1 & T2 & T3).
  destruct (decide (j = k)) as [->|Hne].
  - destruct (store m !! k) as [c|] eqn:Hk.
    + destruct (T2 c eq_refl) as (c2 & Hc2 & S2).
      exists c. split; [done|]. congruence.
    + rewrite T3 in Hj by done. discriminate.
  - rewrite T1 in Hj by done. exists c'. split; [done | apply sameShape_refl].
Qed.

(** ** Grounding Classifier *)

Lemma checkGrounded_true c g :
  checkGrounded c g = true <-> supportedBy c g.
Proof.
  unfold checkGrounded, supportedBy, Math_abs, groundCheckOffset.
  rewrite !andb_true_iff, Qle_bool_iff, Qltb_lt, Qgtb_gt. tauto.
Qed.

Lemma standsOn_true st c o :
  standsOn st c o = true <->
  exists g, st !! o = Some g /\ active g = true /\ maskMatches c g = true /\
            supportedBy c g.
Proof.
  unfold standsOn. destruct (st !! o) as [g|].
  - rewrite !andb_true_iff, checkGrounded_true. split.
    + intros [[? ?] ?]. by exists g.
    + intros (g' & [= <-] & ? & ? & ?). done.
  - split; [done | by intros (? & ? & _)].
Qed.

Lemma existsb_standsOn st c l :
  existsb (standsOn st c) l = true <->
  exists s g, s ∈ l /\ st !! s = Some g /\ active g = true /\
              maskMatches c g = true /\ supportedBy c g.
Proof.
  rewrite existsb_exists. split.
  - intros (s & Hin & Hs). apply standsOn_true in Hs as (g & ?).
    exists s, g. by rewrite list_elem_of_In.
  - intros (s & g & Hin & Hg). exists s. rewrite <- list_elem_of_In.
    split; [done|]. apply standsOn_true. by exists g.
Qed.

(** The classifier reads the rectangle and the mask of the collider, and the
    static bodies. *)
Lemma existsb_standsOn_ext st st' c c' l :
  (forall o, o ∈ l -> st' !! o = st !! o) ->
  x c' = x c -> y c' = y c -> width c' = width c -> height c' = height c ->
  collisionMask c' = collisionMask c ->
  existsb (standsOn st' c') l = existsb (standsOn st c) l.
Proof.
  intros Hst Hx Hy Hw Hh Hm. induction l as [|o l IH]; [done|]. simpl.
  rewrite IH by (intros; apply Hst; by right). f_equal.
  unfold standsOn. rewrite Hst by left.
  destruct (st !! o) as [g|]; [|done].
  unfold maskMatches, checkGrounded. by rewrite Hx, Hy, Hw, Hh, Hm.
Qed.

Lemma classify_classified this h m c :
  store m !! h = Some c -> h ∉ staticColliders this ->
  classified this (store (classify this h m)) h.
Proof.
  intros Hc Hh. unfold classify. rewrite Hc. simpl. rewrite lookup_insert_eq.
  destruct (existsb _ _) eqn:E; simpl.
  - exists (set_onGround true (set_onGround false c)).
    rewrite lookup_insert_eq. split; [done|]. simpl. rewrite <- E.
    symmetry. apply existsb_standsOn_ext; try done.
    intros o Ho. rewrite !lookup_insert_ne; [done | |]; by intros ->.
  - exists (set_onGround false c). rewrite lookup_insert_eq. split; [done|].
    simpl. by rewrite E.
Qed.

Lemma touches_present h m m' c :
  touches h m m' -> store m !! h = Some c ->
  exists c', store m' !! h = Some c' /\ sameShape c c'.
Proof. intros (_ & B & _). apply B. Qed.

Lemma stepCollider_classified this dt h m c :
  store m !! h = Some c -> active c = true -> h ∉ staticColliders this ->
  classified this (store (stepCollider this dt h m)) h.
Proof.
  intros Hc Ha Hh. unfold stepCollider. rewrite Hc, Ha. simpl.
  set (m1 := write h (integrate this dt c) m).
  assert (H1 : store m1 !! h = Some (integrate this dt c))
    by (simpl; by rewrite lookup_insert_eq).
  destruct (touches_present _ _ _ _ (collideStatics_touches this h m1) H1)
    as (c2 & H2 & _).
  destruct (touches_present _ _ _ _
              (collideDynamics_touches this h (collideStatics this h m1)) H2)
    as (c3 & H3 & _).
  by eapply classify_classified.
Qed.

(** A step of another dynamic body does not disturb the classification. *)
Lemma classified_stable this h k m m' :
  touches k m m' -> k <> h -> k ∉ staticColliders this ->
  classified this (store m) h -> classified this (store m') h.
Proof.
  intros (A & _) Hne Hk (c & Hc & Hg).
  exists c. rewrite A by done. split; [done|]. rewrite Hg.
  symmetry. apply existsb_standsOn_ext; try done.
  intros o Ho. apply A. by intros ->.
Qed.

Lemma updateOver_classified_stable this dt h l : forall m,
  h ∉ l -> (forall k, k ∈ l -> k ∉ staticColliders this) ->
  classified this (store m) h ->
  classified this (store (updateOver this dt l m)) h.
Proof.
  induction l as [|k l IH]; intros m Hh Hl Hc; simpl; [done|].
  apply not_elem_of_cons in Hh as [Hne Hh].
  apply IH; [done | intros; apply Hl; by right |].
  eapply classified_stable; [apply stepCollider_touches | done | | done].
  apply Hl. left.
Qed.

Lemma updateOver_classified this dt h l : forall m c,
  (forall k, k ∈ l -> k ∉ staticColliders this) ->
  h ∈ l -> store m !! h = Some c -> active c = true ->
  classified this (store (updateOver this dt l m)) h.
Proof.
  induction l as [|k l IH]; intros m c Hl Hh Hc Ha; simpl.
  - by apply elem_of_nil in Hh.
  - destruct (decide (h ∈ l)) as [Hin|Hnin].
    + destruct (decide (h = k)) as [->|Hne].
      * destruct (touches_present _ _ _ _ (stepCollider_touches this dt k m) Hc)
          as (c' & Hc' & S').
        eapply IH; [intros; apply Hl; by right | done | exact Hc' |].
        by rewrite (sameShape_active _ _ S').
      * destruct (stepCollider_touches this dt k m) as (A & _).
        eapply IH; [intros; apply Hl; by right | done | | done].
        by rewrite A.
    + apply elem_of_cons in Hh as [->|Hh]; [|done].
      apply updateOver_classified_stable;
        [done | intros; apply Hl; by right |].
      eapply stepCollider_classified; [done | done |]. apply Hl. left.
Qed.

(** When the resolver lands a body on top of another one, that body supports
    it: the classifier agrees with the flag the resolver sets if the body
    is static and no later correction of the same tick moves the collider. *)
Lemma landing_agrees_with_classifier a g :
  checkCollision a g = true ->
  ~ overlapX a g < overlapY a g -> y a < y g ->
  onGround (resolveCollision a g) = true /\
  checkGrounded (resolveCollision a g) g = true.
Proof.
  intros Hc Ho Hy. rewrite (resolveCollision_Y _ _ Ho).
  apply Qltb_lt in Hy. rewrite Hy. split; [done|].
  apply checkCollision_true in Hc. apply checkGrounded_true.
  unfold supportedBy. cbn [x y width height set_velocityY set_onGround set_y].
  split; [|lra].
  apply Qabs_case; intros; lra.
Qed.

(** C3, as the code has it.  In a registry whose partitions share no object,
    at the end of a tick an active dynamic body has [onGround = true] if and
    only if some active static body that passes its mask gate supports it
    (vertical gap of at most one unit between its bottom edge and the top
    edge of the static body, horizontal extents overlapping).  The
    classifier runs on every tick and its result replaces whatever the
    resolver wrote: only static bodies are tested.  The flag the resolver
    sets on the Y path from above agrees with the classifier's test against
    the body it landed on. *)
Theorem onGround_iff_static_support
    (this : Physics) (deltaTime : Q) (m : Mem) (h : handle) (c : Body) :
  partitioned this ->
  h ∈ dynamicColliders this ->
  store m !! h = Some c ->
  active c = true ->
  (exists c',
     store (update this deltaTime m) !! h = Some c' /\
     (onGround c' = true <->
      exists s g,
        s ∈ staticColliders this /\
        store (update this deltaTime m) !! s = Some g /\
        active g = true /\ maskMatches c' g = true /\ supportedBy c' g)) /\
  (forall a g,
     checkCollision a g = true ->
     ~ overlapX a g < overlapY a g -> y a < y g ->
     onGround (resolveCollision a g) = true /\
     checkGrounded (resolveCollision a g) g = true).
Proof.
  intros Hp Hh Hc Ha. split; [|apply landing_agrees_with_classifier].
  assert (Hl : forall k, k ∈ dynamicColliders this -> k ∉ staticColliders this).
  { intros k Hk Hs. by apply (Hp k Hs). }
  destruct (updateOver_classified this deltaTime h (dynamicColliders this)
              m c Hl Hh Hc Ha) as (c' & Hc' & Hg).
  exists c'. split; [exact Hc'|].
  unfold update. rewrite Hg. apply existsb_standsOn.
Qed.


Lemma restScene_partitioned : partitioned restScene.1.
Proof.
  intros h Hs Hd. simpl in Hs, Hd.
  apply list_elem_of_singleton in Hs. apply list_elem_of_singleton in Hd.
  congruence.
Defined.

(** The body of [restScene], an active dynamic body of a partitioned
    registry. *)
Lemma onGround_iff_static_support_witness :
  exists c',
    store (update restScene.1 (1 # 10) restMem) !! 2%nat = Some c' /\
    (onGround c' = true <->
     exists s g,
       s ∈ staticColliders restScene.1 /\
       store (update restScene.1 (1 # 10) restMem) !! s = Some g /\
       active g = true /\ maskMatches c' g = true /\ supportedBy c' g).
Proof.
  apply (onGround_iff_static_support restScene.1 (1 # 10) restMem 2%nat
           (withDefaults (rect 10 68 32 32 false))).
  - exact restScene_partitioned.
  - simpl. left.
  - reflexivity.
  - reflexivity.
Defined.

(** C3, as the claim states it, fails when the supporting body is dynamic.
    The body (object 1) overlaps the dynamic platform (object 2) from above:
    the resolver puts it on top of the platform and sets [onGround], and the
    classifier, which tests static bodies only, clears the flag again.  At
    the end of the tick the body stands on the platform with
    [onGround = false]. *)
Lemma dynamic_support_is_not_grounded :
  let this := raftScene.1 in
  exists a platform resolved final,
    raftMem.(store) !! 1%nat = Some a /\
    raftMem.(store) !! 2%nat = Some platform /\
    isStatic platform = false /\
    checkCollision (integrate this 1 a) platform = true /\
    y (integrate this 1 a) < y platform /\
    store (collideDynamics this 1%nat
             (collideStatics this 1%nat
                (write 1%nat (integrate this 1 a) raftMem))) !! 1%nat
      = Some resolved /\
    onGround resolved = true /\
    store (update this 1 raftMem) !! 1%nat = Some final /\
    y final + height final == y platform /\
    onGround final = false.
Proof.
  eexists. eexists. eexists. eexists.
  split; [reflexivity|]. split; [reflexivity|]. split; [reflexivity|].
  split; [reflexivity|]. split; [reflexivity|].
  split; [vm_compute; reflexivity|]. split; [reflexivity|].
  split; [vm_compute; reflexivity|]. split; reflexivity.
Qed.


(** ** Body Registry *)

Lemma removeFirst_fresh h l : h ∉ l -> removeFirst h (l ++ [h]) = l.
Proof.
  induction l as [|k l IH]; intros Hh; simpl.
  - by rewrite Nat.eqb_refl.
  - apply not_elem_of_cons in Hh as [Hne Hh].
    destruct (Nat.eqb k h) eqn:E.
    + apply Nat.eqb_eq in E. congruence.
    + by rewrite IH.
Qed.

Lemma removeFirst_absent h l : h ∉ l -> removeFirst h l = l.
Proof.
  induction l as [|k l IH]; intros Hh; simpl; [done|].
  apply not_elem_of_cons in Hh as [Hne Hh].
  destruct (Nat.eqb k h) eqn:E.
  - apply Nat.eqb_eq in E. congruence.
  - by rewrite IH.
Qed.

Lemma removeFirst_subset h k l : k ∈ removeFirst h l -> k ∈ l.
Proof.
  induction l as [|j l IH]; simpl; [done|].
  destruct (Nat.eqb j h).
  - intros H. by right.
  - intros H. apply elem_of_cons in H as [->|H]; [left | right; by apply IH].
Qed.

Lemma removeFirst_NoDup h l : NoDup l -> h ∉ removeFirst h l.
Proof.
  induction 1 as [|k l Hk Hl IH]; simpl.
  - apply not_elem_of_nil.
  - destruct (Nat.eqb k h) eqn:E.
    + apply Nat.eqb_eq in E. by subst.
    + apply Nat.eqb_neq in E. apply not_elem_of_cons. split; [congruence | done].
Qed.

(** ** The registry invariant *)

Lemma removeFirst_keeps h k l : k <> h -> k ∈ l -> k ∈ removeFirst h l.
Proof.
  intros Hne. induction l as [|j l IH]; simpl; [done|].
  intros Hk. apply elem_of_cons in Hk as [->|Hk].
  - destruct (Nat.eqb j h) eqn:E; [|left].
    apply Nat.eqb_eq in E. congruence.
  - destruct (Nat.eqb j h); [done | right; by apply IH].
Qed.

Lemma removeFirst_NoDup_keeps h l : NoDup l -> NoDup (removeFirst h l).
Proof.
  induction 1 as [|k l Hk Hl IH]; simpl; [constructor|].
  destruct (Nat.eqb k h); [done|].
  constructor; [|done]. intros Hin. by apply Hk, (removeFirst_subset h).
Qed.

Lemma NoDup_snoc (h : handle) l : NoDup l -> h ∉ l -> NoDup (l ++ [h]).
Proof.
  intros Hl Hh. apply NoDup_app. split; [done|]. split.
  - intros k Hk Hk'. apply list_elem_of_singleton in Hk'. by subst.
  - apply NoDup_singleton.
Qed.

Lemma wellFormed_new config : wellFormed (newPhysics config, ∅).
Proof.
  unfold wellFormed. simpl.
  split; [constructor|]. split; [constructor|]. split; [constructor|].
  split; intros h Hh; by apply elem_of_nil in Hh.
Qed.

Lemma wellFormed_addCollider h o w :
  wellFormed w -> h ∉ colliders w.1 -> wellFormed (addCollider h o w).
Proof.
  destruct w as [this st]. intros (N & NS & ND & HS & HD) Hh. simpl in *.
  assert (HhS : h ∉ staticColliders this) by (intros H; by apply Hh, HS).
  assert (HhD : h ∉ dynamicColliders this) by (intros H; by apply Hh, HD).
  assert (Hold : forall k b, k ∈ colliders this ->
            (exists c, st !! k = Some c /\ isStatic c = b) ->
            k ∈ colliders this ++ [h] /\
            exists c, <[h:=withDefaults o]> st !! k = Some c /\ isStatic c = b).
  { intros k b Hk Hc. split; [apply elem_of_app; by left|].
    rewrite lookup_insert_ne; [done | by intros ->]. }
  assert (Hnew : h ∈ colliders this ++ [h] /\
            exists c, <[h:=withDefaults o]> st !! h = Some c
                      /\ isStatic c = isStatic (withDefaults o)).
  { split; [apply elem_of_app; right; left|].
    exists (withDefaults o). by rewrite lookup_insert_eq. }
  unfold wellFormed, addCollider. cbn [fst snd colliders staticColliders
    dynamicColliders].
  split; [by apply NoDup_snoc|].
  destruct (isStatic (withDefaults o)) eqn:E.
  - split; [by apply NoDup_snoc|]. split; [done|]. split.
    + intros k Hk. apply elem_of_app in Hk as [Hk|Hk].
      * apply Hold; by apply HS.
      * apply list_elem_of_singleton in Hk as ->. done.
    + intros k Hk. apply Hold; by apply HD.
  - split; [done|]. split; [by apply NoDup_snoc|]. split.
    + intros k Hk. apply Hold; by apply HS.
    + intros k Hk. apply elem_of_app in Hk as [Hk|Hk].
      * apply Hold; by apply HD.
      * apply list_elem_of_singleton in Hk as ->. done.
Qed.

Lemma wellFormed_removeCollider h w :
  wellFormed w -> wellFormed (removeCollider h w).
Proof.
  destruct w as [this st]. intros (N & NS & ND & HS & HD).
  unfold removeCollider. simpl in *.
  destruct (st !! h) as [c|] eqn:Hc; [|done].
  assert (HS' : forall k, k ∈ staticColliders this -> k <> h ->
            k ∈ removeFirst h (colliders this) /\
            exists c, st !! k = Some c /\ isStatic c = true).
  { intros k Hk Hne. destruct (HS k Hk) as [? ?].
    split; [by apply removeFirst_keeps | done]. }
  assert (HD' : forall k, k ∈ dynamicColliders this -> k <> h ->
            k ∈ removeFirst h (colliders this) /\
            exists c, st !! k = Some c /\ isStatic c = false).
  { intros k Hk Hne. destruct (HD k Hk) as [? ?].
    split; [by apply removeFirst_keeps | done]. }
  unfold wellFormed. cbn [fst snd colliders staticColliders dynamicColliders].
  split; [by apply removeFirst_NoDup_keeps|].
  destruct (isStatic c) eqn:E.
  - split; [by apply removeFirst_NoDup_keeps|]. split; [done|]. split.
    + intros k Hk. apply HS'; [by eapply removeFirst_subset|].
      intros ->. by apply (removeFirst_NoDup h _ NS).
    + intros k Hk. apply HD'; [done|]. intros ->.
      destruct (HD h Hk) as (_ & c' & Hc' & E'). congruence.
  - split; [done|]. split; [by apply removeFirst_NoDup_keeps|]. split.
    + intros k Hk. apply HS'; [done|]. intros ->.
      destruct (HS h Hk) as (_ & c' & Hc' & E'). congruence.
    + intros k Hk. apply HD'; [by eapply removeFirst_subset|].
      intros ->. by apply (removeFirst_NoDup h _ ND).
Qed.

Lemma wellFormed_partitioned w : wellFormed w -> partitioned w.1.
Proof.
  intros (_ & _ & _ & HS & HD) h Hs Hd.
  destruct (HS h Hs) as (_ & c & Hc & E).
  destruct (HD h Hd) as (_ & c' & Hc' & E'). congruence.
Qed.

(** A tick keeps the registry well formed. *)
Lemma wellFormed_update this dt m :
  wellFormed (this, store m) -> wellFormed (this, store (update this dt m)).
Proof.
  intros (N & NS & ND & HS & HD). simpl in *.
  unfold wellFormed. simpl.
  split; [done|]. split; [done|]. split; [done|]. split.
  - intros h Hh. destruct (HS h Hh) as (? & c & Hc & E). split; [done|].
    destruct (updateOver_shape this dt (dynamicColliders this) m h c Hc)
      as (c' & Hc' & S').
    exists c'. split; [done|]. destruct S' as (_&_&_&->&_). done.
  - intros h Hh. destruct (HD h Hh) as (? & c & Hc & E). split; [done|].
    destruct (updateOver_shape this dt (dynamicColliders this) m h c Hc)
      as (c' & Hc' & S').
    exists c'. split; [done|]. destruct S' as (_&_&_&->&_). done.
Qed.

(** In a well-formed registry a body flagged static is not stepped. *)
Lemma static_flag_not_dynamic w h c :
  wellFormed w -> w.2 !! h = Some c -> isStatic c = true ->
  h ∉ dynamicColliders w.1.
Proof.
  intros (_ & _ & _ & _ & HD) Hc E Hd.
  destruct (HD h Hd) as (_ & c' & Hc' & E'). congruence.
Qed.
(** ** Registration and removal *)

(** Removing a registered body of a well-formed registry takes it out of
    the flat array and out of both partitions. *)
Lemma removeCollider_erases h w c :
  wellFormed w -> w.2 !! h = Some c ->
  (h ∉ visibleToRaycast (removeCollider h w).1) /\
  (h ∉ visibleToDetection (removeCollider h w).1).
Proof.
  intros Hw Hc. pose proof Hw as (N & NS & ND & HS & HD).
  destruct w as [this st]. simpl in *.
  unfold visibleToRaycast, visibleToDetection, removeCollider. simpl.
  rewrite Hc. simpl. split; [by apply removeFirst_NoDup|].
  intros Hin. apply elem_of_app in Hin.
  destruct (isStatic c) eqn:E.
  - destruct Hin as [Hin|Hin].
    + by apply (removeFirst_NoDup h _ NS).
    + destruct (HD h Hin) as (_ & c' & Hc' & E'). congruence.
  - destruct Hin as [Hin|Hin].
    + destruct (HS h Hin) as (_ & c' & Hc' & E'). congruence.
    + by apply (removeFirst_NoDup h _ ND).
Qed.

(** Removing a body leaves every other body where it is. *)
Lemma removeCollider_keeps_others h k w :
  k <> h ->
  (k ∈ visibleToRaycast w.1 -> k ∈ visibleToRaycast (removeCollider h w).1) /\
  (k ∈ visibleToDetection w.1 -> k ∈ visibleToDetection (removeCollider h w).1).
Proof.
  intros Hne. destruct w as [this st].
  unfold visibleToRaycast, visibleToDetection, removeCollider. simpl.
  destruct (st !! h) as [c|]; [|done]. simpl. split.
  - by apply removeFirst_keeps.
  - rewrite !elem_of_app. destruct (isStatic c); intros [H|H];
      auto using removeFirst_keeps.
Qed.

(** C1, as the code has it.  There is no pending queue and no flush:
    [addCollider] appends the body to the flat array and to its partition
    at once, so it is visible to the ray caster and to detection as soon as
    the call returns, and [removeCollider] erases it at once: registering a
    fresh body and removing it restores the arrays; in arrays without
    repetition a removed body is gone from the flat array; and in a
    well-formed registry a removed body is gone from the flat array and
    from both partitions, wherever it stands in them, while every other
    body stays.  After ten registrations and five removals exactly five
    bodies are visible, without any further call, whether the first five
    are removed or five from the middle and the end of the arrays. *)
Theorem registration_and_removal_are_immediate :
  (forall h o w,
     h ∈ visibleToRaycast (addCollider h o w).1 /\
     h ∈ visibleToDetection (addCollider h o w).1 /\
     (addCollider h o w).2 !! h = Some (withDefaults o)) /\
  (forall h o w,
     h ∉ visibleToRaycast w.1 -> h ∉ visibleToDetection w.1 ->
     visibleToRaycast (removeCollider h (addCollider h o w)).1
       = visibleToRaycast w.1 /\
     visibleToDetection (removeCollider h (addCollider h o w)).1
       = visibleToDetection w.1) /\
  (forall h w c,
     w.2 !! h = Some c -> NoDup (visibleToRaycast w.1) ->
     h ∉ visibleToRaycast (removeCollider h w).1) /\
  (forall h w c,
     wellFormed w -> w.2 !! h = Some c ->
     (h ∉ visibleToRaycast (removeCollider h w).1) /\
     (h ∉ visibleToDetection (removeCollider h w).1)) /\
  (forall h k w,
     k <> h ->
     (k ∈ visibleToRaycast w.1 ->
      k ∈ visibleToRaycast (removeCollider h w).1) /\
     (k ∈ visibleToDetection w.1 ->
      k ∈ visibleToDetection (removeCollider h w).1)) /\
  (forall h k o w,
     (k ∈ visibleToRaycast w.1 ->
      k ∈ visibleToRaycast (addCollider h o w).1) /\
     (k ∈ visibleToDetection w.1 ->
      k ∈ visibleToDetection (addCollider h o w).1)) /\
  (length (visibleToDetection tenRegistered.1) = 10%nat /\
   length (visibleToDetection tenMinusFive.1) = 5%nat /\
   length (visibleToRaycast tenMinusFive.1) = 5%nat /\
   visibleToDetection tenMinusMiddle.1 = [0; 6; 8; 1; 5]%nat /\
   visibleToRaycast tenMinusMiddle.1 = [0; 1; 5; 6; 8]%nat).
Proof.
  split; [|split; [|split; [|split; [|split; [|split]]]]].
  - intros h o [this st]. unfold visibleToRaycast, visibleToDetection,
      addCollider. simpl. split; [|split].
    + apply elem_of_app. right. left.
    + destruct (default false (init_isStatic o)); simpl;
        rewrite !elem_of_app, !list_elem_of_singleton; tauto.
    + by rewrite lookup_insert_eq.
  - intros h o [this st]. unfold visibleToRaycast, visibleToDetection.
    simpl. intros Hr Hd.
    apply not_elem_of_app in Hd as [Hs Hdy].
    unfold removeCollider, addCollider. simpl. rewrite lookup_insert_eq. simpl.
    rewrite (removeFirst_fresh _ _ Hr).
    destruct (default false (init_isStatic o)); simpl.
    + by rewrite (removeFirst_fresh _ _ Hs).
    + by rewrite (removeFirst_fresh _ _ Hdy).
  - intros h [this st] c Hc Hn. unfold visibleToRaycast, removeCollider in *.
    simpl in *. rewrite Hc. simpl. by apply removeFirst_NoDup.
  - intros h w c. apply removeCollider_erases.
  - intros h k w. apply removeCollider_keeps_others.
  - intros h k o [this st]. unfold visibleToRaycast, visibleToDetection,
      addCollider. simpl. split.
    + intros H. apply elem_of_app. by left.
    + rewrite !elem_of_app. destruct (default false (init_isStatic o));
        rewrite ?elem_of_app; tauto.
  - repeat split; reflexivity.
Qed.

(** C1, as the claim states it, fails: a body is visible as soon as it is
    registered, and after ten registrations and five removals five bodies
    are visible although nothing was flushed. *)
Lemma bodies_visible_without_flush :
  visibleToDetection (addCollider 0%nat (rect 0 0 32 32 false) (defaultPhysics, ∅)).1
    = [0%nat] /\
  visibleToDetection tenMinusFive.1 = [6; 8; 5; 7; 9]%nat /\
  visibleToRaycast tenMinusFive.1 = [5; 6; 7; 8; 9]%nat /\
  length (visibleToDetection tenMinusFive.1) <> 0%nat.
Proof. repeat split; try reflexivity. discriminate. Qed.

(** ** Ray Caster *)

(** A ray parallel to the X axis never looks at the vertical extent of the
    body: the Y slab is skipped as a whole. *)
Lemma raycastCollider_horizontal_ignores_y startX startY dirX maxDistance h c c' :
  x c' = x c -> width c' = width c ->
  raycastCollider startX startY dirX 0 maxDistance h c'
  = raycastCollider startX startY dirX 0 maxDistance h c.
Proof.
  intros Hx Hw. unfold raycastCollider. rewrite Hx, Hw. reflexivity.
Qed.

(** A ray parallel to the Y axis never looks at the horizontal extent. *)
Lemma raycastCollider_vertical_ignores_x startX startY dirY maxDistance h c c' :
  y c' = y c -> height c' = height c ->
  raycastCollider startX startY 0 dirY maxDistance h c'
  = raycastCollider startX startY 0 dirY maxDistance h c.
Proof.
  intros Hy Hh. unfold raycastCollider. rewrite Hy, Hh. reflexivity.
Qed.

(** A hit lies on the segment: at a distance between 0 and the length, at
    the point the distance gives. *)
Lemma raycastCollider_hit startX startY dirX dirY maxDistance h c hit :
  raycastCollider startX startY dirX dirY maxDistance h c = Some hit ->
  hitCollider hit = h /\ 0 <= distance hit /\ distance hit <= maxDistance /\
  point hit = (startX + dirX * distance hit, startY + dirY * distance hit).
Proof.
  unfold raycastCollider.
  destruct (if negb (Qeq_bool dirX 0) then _ else _) as [[tMin1 tMax1] n1].
  destruct (if negb (Qeq_bool dirY 0) then _ else _) as [[[tMin2 tMax2] n2] n3].
  destruct (ext_leb tMin2 tMax2 && ext_leb (Finite 0) tMin2
            && ext_leb tMin2 (Finite maxDistance)) eqn:E; [|done].
  destruct tMin2 as [|t|]; [done| |done].
  intros [= <-]. simpl.
  apply andb_true_iff in E as [E E3]. apply andb_true_iff in E as [_ E2].
  simpl in E2, E3. q_reflect. done.
Qed.

Section RayCasterProperties.

Variable st : gmap handle Body.
Variables startX startY normDirX normDirY dist : Q.
Variable mask : Z.

Lemma closestAmong_skip seen h acc :
  (forall c, candidate st mask h c ->
     raycastCollider startX startY normDirX normDirY dist h c = None) ->
  closestAmong st startX startY normDirX normDirY dist mask seen acc ->
  closestAmong st startX startY normDirX normDirY dist mask (seen ++ [h]) acc.
Proof.
  intros Hskip. unfold closestAmong. destruct acc.1 as [hit|].
  - intros (E & (k & c & Hk & Hc) & Hmin). split; [done|]. split.
    + exists k, c. split; [apply elem_of_app; by left | done].
    + intros k' c' hit' Hk' Hc' Hr.
      apply elem_of_app in Hk' as [Hk'|Hk']; [by eapply Hmin|].
      apply list_elem_of_singleton in Hk' as ->.
      rewrite (Hskip c' Hc') in Hr. discriminate.
  - intros (E & Hnone). split; [done|].
    intros k' c' hit' Hk' Hc' Hr.
    apply elem_of_app in Hk' as [Hk'|Hk']; [by eapply Hnone|].
    apply list_elem_of_singleton in Hk' as ->.
    rewrite (Hskip c' Hc') in Hr. discriminate.
Qed.

Lemma raycastStep_closest seen acc h :
  closestAmong st startX startY normDirX normDirY dist mask seen acc ->
  closestAmong st startX startY normDirX normDirY dist mask (seen ++ [h])
    (raycastStep st startX startY normDirX normDirY dist mask acc h).
Proof.
  intros Hacc. unfold raycastStep.
  destruct (st !! h) as [c|] eqn:Hc.
  2:{ apply closestAmong_skip; [|done]. intros c (Hc' & _). congruence. }
  destruct (negb (active c) || Z.eqb (Z.land (collisionLayer c) mask) 0) eqn:Hg.
  { apply closestAmong_skip; [|done]. intros c' (Hc' & Ha & Hm).
    assert (c' = c) as -> by congruence.
    apply orb_true_iff in Hg as [Hg|Hg].
    - rewrite Ha in Hg. discriminate.
    - apply Z.eqb_eq in Hg. contradiction. }
  apply orb_false_iff in Hg as [Ha Hm].
  apply negb_false_iff in Ha. apply Z.eqb_neq in Hm.
  assert (Hcand : candidate st mask h c) by done.
  destruct (raycastCollider startX startY normDirX normDirY dist h c)
    as [hit|] eqn:Hr.
  2:{ apply closestAmong_skip; [|done]. intros c' (Hc' & _).
      assert (c' = c) as -> by congruence. done. }
  assert (Hhere : forall k c' hit', k ∈ [h] -> candidate st mask k c' ->
            raycastCollider startX startY normDirX normDirY dist k c' = Some hit' ->
            hit' = hit).
  { intros k c' hit' Hk (Hc' & _) Hr'.
    apply list_elem_of_singleton in Hk as ->.
    assert (c' = c) as -> by congruence. congruence. }
  unfold closestAmong in Hacc. destruct acc as [[best|] bestD]; simpl in *.
  - destruct Hacc as (-> & (k & ck & Hk & Hck & Hrk) & Hmin).
    unfold ext_ltb. simpl. destruct (Qle_bool (distance best) (distance hit)) eqn:E;
      simpl; unfold closestAmong; simpl; q_reflect.
    + split; [done|]. split.
      * exists k, ck. split; [apply elem_of_app; by left | done].
      * intros k' c' hit' Hk' Hc' Hr'.
        apply elem_of_app in Hk' as [Hk'|Hk']; [by eapply Hmin|].
        by rewrite (Hhere k' c' hit' Hk' Hc' Hr').
    + split; [done|]. split.
      * exists h, c. split; [apply elem_of_app; right; left | done].
      * intros k' c' hit' Hk' Hc' Hr'.
        apply elem_of_app in Hk' as [Hk'|Hk'].
        -- pose proof (Hmin k' c' hit' Hk' Hc' Hr'). lra.
        -- rewrite (Hhere k' c' hit' Hk' Hc' Hr'). lra.
  - destruct Hacc as (-> & Hnone). unfold ext_ltb. simpl.
    unfold closestAmong. simpl. split; [done|]. split.
    + exists h, c. split; [apply elem_of_app; right; left | done].
    + intros k' c' hit' Hk' Hc' Hr'.
      apply elem_of_app in Hk' as [Hk'|Hk'].
      * by destruct (Hnone k' c' hit' Hk' Hc').
      * rewrite (Hhere k' c' hit' Hk' Hc' Hr'). lra.
Qed.

Lemma raycast_loop_closest l : forall seen acc,
  closestAmong st startX startY normDirX normDirY dist mask seen acc ->
  closestAmong st startX startY normDirX normDirY dist mask (seen ++ l)
    (fold_left (raycastStep st startX startY normDirX normDirY dist mask) l acc).
Proof.
  induction l as [|h l IH]; intros seen acc Hacc; simpl.
  - by rewrite app_nil_r.
  - replace (seen ++ h :: l) with ((seen ++ [h]) ++ l)
      by (by rewrite <- app_assoc).
    apply IH. by apply raycastStep_closest.
Qed.

End RayCasterProperties.

(** Among the bodies it tests, [raycast] returns a hit of smallest distance,
    and no hit exactly when no tested body is hit. *)
Lemma raycast_closest Math_sqrt this st startX startY endX endY collisionMask :
  let mask := default 65535%Z collisionMask in
  let dirX := endX - startX in
  let dirY := endY - startY in
  let dist := Math_sqrt (dirX * dirX + dirY * dirY) in
  ~ dist == 0 ->
  match raycast Math_sqrt this st startX startY endX endY collisionMask with
  | Some hit =>
      (exists h c, h ∈ colliders this /\ candidate st mask h c /\
         raycastCollider startX startY (dirX / dist) (dirY / dist) dist h c
           = Some hit) /\
      forall h c hit', h ∈ colliders this -> candidate st mask h c ->
        raycastCollider startX startY (dirX / dist) (dirY / dist) dist h c
          = Some hit' ->
        distance hit <= distance hit'
  | None =>
      forall h c, h ∈ colliders this -> candidate st mask h c ->
        raycastCollider startX startY (dirX / dist) (dirY / dist) dist h c = None
  end.
Proof.
  intros mask dirX dirY dist Hd. unfold raycast.
  fold mask dirX dirY dist.
  assert (Hd' : Qeq_bool dist 0 = false).
  { apply not_true_iff_false. by rewrite Qeq_bool_iff. }
  rewrite Hd'.
  pose proof (raycast_loop_closest st startX startY (dirX / dist) (dirY / dist)
                dist mask (colliders this) [] (None, Infinity)) as H.
  simpl app in H. unfold closestAmong in H at 2.
  destruct (fold_left _ _ _) as [[hit|] d]; simpl in *.
  - destruct H as (_ & Hex & Hmin); [|done].
    split; [done|]. intros h c hit' Hh Hc. by apply elem_of_nil in Hh.
  - destruct H as (_ & Hnone).
    + split; [done|]. intros h c hit' Hh. by apply elem_of_nil in Hh.
    + intros h c Hh Hc.
      destruct (raycastCollider _ _ _ _ _ h c) as [hit'|] eqn:E; [|done].
      by destruct (Hnone h c hit' Hh Hc).
Qed.

(** C2, where the code departs from it.  The box lies between y = 0 and
    y = 32; the horizontal ray from (0, 1000) to (100, 1000) passes far
    below it, and [raycast] still reports a hit on the box, at distance 50,
    at the point (50, 1000). *)
Theorem parallel_ray_hits_body_off_its_line :
  exists c hit,
    boxScene.2 !! 1%nat = Some c /\
    y c + height c < 1000 /\
    raycast sqrtFloor boxScene.1 boxScene.2 0 1000 100 1000 None = Some hit /\
    hitCollider hit = 1%nat /\ distance hit == 50 /\
    hit.(point).1 == 50 /\ hit.(point).2 == 1000.
Proof.
  eexists. eexists. split; [reflexivity|]. split; [reflexivity|].
  split; [vm_compute; reflexivity|]. repeat split; reflexivity.
Qed.

(** The ray from (0, 0) to (100, 0) meets the box at x = 50 before the one at
    x = 80. *)
Example raycast_returns_nearer_body :
  exists hit,
    raycast sqrtFloor twoBoxes.1 twoBoxes.2 0 0 100 0 None = Some hit /\
    hitCollider hit = 1%nat /\ distance hit == 50 /\ normal hit = ((-1)%Z, 0%Z).
Proof.
  eexists. split; [vm_compute; reflexivity|]. repeat split; reflexivity.
Qed.

(** ** Idempotent rest *)

Lemma integrate_resting this dt c :
  onGround c = true -> velocityX c == 0 -> velocityY c == 0 ->
  x (integrate this dt c) == x c /\ y (integrate this dt c) == y c /\
  velocityX (integrate this dt c) == 0 /\
  velocityY (integrate this dt c) == 0 /\
  onGround (integrate this dt c) = true.
Proof.
  intros Hg Hvx Hvy.
  assert (Habs : Qabs (velocityX c) <= 1 # 100)
    by (apply Qabs_case; intros; lra).
  assert (Hy0 : velocityY c * dt == 0) by (rewrite Hvy; ring).
  assert (Hge : Qgeb (velocityY c) 0 = true) by (q_reflect; lra).
  assert (Hf : Qgtb (Math_abs (velocityX c)) (1 # 100) = false)
    by (unfold Math_abs; q_reflect; lra).
  unfold integrate, applyGravity, applyFriction. simpl.
  rewrite Hg, Hge. simpl.
  destruct (affectedByGravity c); simpl; rewrite ?Hg, Hf; simpl;
    repeat split; try reflexivity; try done; lra.
Qed.

Lemma collide_skip h o m c :
  store m !! h = Some c ->
  (forall g, store m !! o = Some g ->
     active g = false \/ maskMatches c g = false \/ checkCollision c g = false) ->
  collide h o m = m.
Proof.
  intros Hc Ho. unfold collide. rewrite Hc.
  destruct (store m !! o) as [g|]; [|done].
  destruct (Ho g eq_refl) as [->|[->| ->]]; simpl; [done| |].
  - by destruct (negb (active g)).
  - destruct (negb (active g)); [done|]. by destruct (negb (maskMatches c g)).
Qed.

Lemma fold_left_skip {A} (f : Mem -> A -> Mem) l m :
  (forall a, a ∈ l -> f m a = m) -> fold_left f l m = m.
Proof.
  induction l as [|a l IH]; intros H; simpl; [done|].
  rewrite H by left. apply IH. intros; apply H. by right.
Qed.

Section Rest.

Variable this : Physics.
Variable deltaTime : Q.
Variable h : handle.
Variables x0 y0 : Q.

Hypothesis registry_partitioned : partitioned this.
Hypothesis h_dynamic : h ∈ dynamicColliders this.

Lemma resting_not_static : h ∉ staticColliders this.
Proof. intros Hs. by apply (registry_partitioned h Hs). Qed.

(** The step of the resting body itself: nothing collides, and only its
    own record is rewritten. *)
Lemma stepCollider_resting m c :
  resting this h x0 y0 (store m) -> store m !! h = Some c ->
  stepCollider this deltaTime h m
  = write h (set_onGround true (set_onGround false (integrate this deltaTime c)))
      (write h (set_onGround false (integrate this deltaTime c))
         (write h (integrate this deltaTime c) m)).
Proof.
  intros (c0 & Hc0 & Ha & Hg & Hx & Hy & Hvx & Hvy & Hsup & Hst & Hdy) Hc.
  assert (c0 = c) as -> by congruence. clear Hc0.
  pose proof resting_not_static as Hns.
  destruct (integrate_resting this deltaTime c Hg Hvx Hvy)
    as (Ix & Iy & Ivx & Ivy & Ig).
  pose proof (integrate_shape this deltaTime c) as IS.
  unfold stepCollider. rewrite Hc, Ha. simpl negb. cbv iota.
  remember (integrate this deltaTime c) as c1 eqn:Ec1. clear Ec1.
  set (m1 := write h c1 m).
  assert (H1 : store m1 !! h = Some c1) by (simpl; by rewrite lookup_insert_eq).
  assert (Hother : forall o, o <> h -> store m1 !! o = store m !! o).
  { intros o Ho. simpl. by rewrite lookup_insert_ne. }
  assert (E2 : collideStatics this h m1 = m1).
  { apply fold_left_skip. intros o Ho. apply (collide_skip h o m1 c1 H1).
    intros g Hg'. rewrite Hother in Hg' by (intros ->; by apply Hns).
    destruct (active g) eqn:Eg; [|by left]. right.
    rewrite (sameShape_maskMatches_l _ _ g IS).
    destruct (maskMatches c g) eqn:Em; [|by left]. right.
    rewrite (checkCollision_Qeq c c1 g); [by eapply Hst | done | done | |].
    - destruct IS as (-> & _). reflexivity.
    - destruct IS as (_ & -> & _). reflexivity. }
  rewrite E2.
  assert (E3 : collideDynamics this h m1 = m1).
  { apply fold_left_skip. intros o Ho.
    destruct (Nat.eqb h o) eqn:E; [done|]. apply Nat.eqb_neq in E.
    apply (collide_skip h o m1 c1 H1).
    intros d Hd. rewrite Hother in Hd by congruence.
    rewrite (sameShape_maskMatches_l _ _ d IS).
    destruct (Hdy o d Ho (not_eq_sym E) Hd) as [?|?]; [by left | right; by left]. }
  rewrite E3.
  unfold classify. rewrite H1. simpl store. rewrite lookup_insert_eq.
  assert (Ex : existsb (standsOn (<[h:=set_onGround false c1]> (<[h:=c1]> (store m)))
                          (set_onGround false c1)) (staticColliders this) = true).
  { destruct Hsup as (s & g & Hs & Hsg & Hga & Hgm & Hgy & Hgx1 & Hgx2).
    apply existsb_standsOn. exists s, g. split; [done|].
    assert (s <> h) by (intros ->; by apply Hns).
    split; [simpl; by rewrite !lookup_insert_ne|]. split; [done|].
    split.
    - unfold maskMatches in *. simpl.
      destruct IS as (_&_&_&_&_&->&_). done.
    - unfold supportedBy. cbn [x y width height set_onGround].
      destruct IS as (Hw & Hh & _). rewrite Hh, Hw.
      split; [apply Qabs_case; intros; lra | lra]. }
  by rewrite Ex.
Qed.

Lemma stepCollider_resting_preserved m :
  resting this h x0 y0 (store m) ->
  resting this h x0 y0 (store (stepCollider this deltaTime h m)).
Proof.
  intros Hr. pose proof Hr as
    (c & Hc & Ha & Hg & Hx & Hy & Hvx & Hvy & Hsup & Hst & Hdy).
  rewrite (stepCollider_resting m c Hr Hc). simpl store.
  rewrite !insert_insert_eq.
  pose proof resting_not_static as Hns.
  destruct (integrate_resting this deltaTime c Hg Hvx Hvy)
    as (Ix & Iy & Ivx & Ivy & Ig).
  pose proof (integrate_shape this deltaTime c) as IS.
  remember (integrate this deltaTime c) as c1 eqn:Ec1. clear Ec1.
  assert (Hm : forall g, maskMatches (set_onGround true (set_onGround false c1)) g
                         = maskMatches c g).
  { intros g. unfold maskMatches. simpl. destruct IS as (_&_&_&_&_&->&_). done. }
  exists (set_onGround true (set_onGround false c1)).
  rewrite lookup_insert_eq. split; [done|].
  split; [simpl; by rewrite (sameShape_active _ _ IS)|].
  split; [done|]. simpl x. simpl y. simpl velocityX. simpl velocityY.
  split; [lra|]. split; [lra|]. split; [done|]. split; [done|].
  split; [|split].
  - destruct Hsup as (s & g & Hs & Hsg & Hga & Hgm & Hgy & Hgx1 & Hgx2).
    exists s, g. split; [done|].
    assert (s <> h) by (intros ->; by apply Hns).
    rewrite lookup_insert_ne by done. split; [done|]. split; [done|].
    rewrite Hm. split; [done|]. simpl.
    destruct IS as (Hw & Hh & _). rewrite Hh. split; [lra|].
    rewrite Hw. lra.
  - intros o g Ho Hog Hga Hgm.
    assert (o <> h) by (intros ->; by apply Hns).
    rewrite lookup_insert_ne in Hog by done. rewrite Hm in Hgm.
    rewrite (checkCollision_Qeq c _ g); [by eapply Hst | simpl; lra | simpl; lra | |].
    + simpl. destruct IS as (-> & _). reflexivity.
    + simpl. destruct IS as (_ & -> & _). reflexivity.
  - intros o d Ho Hne Hod. rewrite lookup_insert_ne in Hod by done.
    rewrite Hm. by eapply Hdy.
Qed.

(** The step of any other dynamic body leaves the resting body at rest. *)
Lemma stepCollider_other_resting_preserved k m :
  k <> h -> k ∈ dynamicColliders this ->
  resting this h x0 y0 (store m) ->
  resting this h x0 y0 (store (stepCollider this deltaTime k m)).
Proof.
  intros Hne Hk (c & Hc & Ha & Hg & Hx & Hy & Hvx & Hvy & Hsup & Hst & Hdy).
  destruct (stepCollider_touches this deltaTime k m) as (A & B & C).
  assert (Hks : k ∉ staticColliders this).
  { intros Hs. by apply (registry_partitioned k Hs). }
  assert (Hstat : forall o, o ∈ staticColliders this ->
            store (stepCollider this deltaTime k m) !! o = store m !! o).
  { intros o Ho. apply A. by intros ->. }
  exists c. rewrite A by done. split; [done|]. split; [done|]. split; [done|].
  split; [done|]. split; [done|]. split; [done|]. split; [done|].
  split; [|split].
  - destruct Hsup as (s & g & Hs & Hsg & Hrest).
    exists s, g. split; [done|]. by rewrite Hstat.
  - intros o g Ho Hog. rewrite Hstat in Hog by done. by eapply Hst.
  - intros o d Ho Hoh Hod.
    destruct (decide (o = k)) as [->|Hok].
    + destruct (store m !! k) as [d0|] eqn:Hd0.
      * destruct (B d0 eq_refl) as (d' & Hd' & S').
        assert (d' = d) as -> by congruence.
        rewrite (sameShape_active _ _ S'), (sameShape_maskMatches_r c _ _ S').
        by eapply Hdy.
      * rewrite (C eq_refl) in Hod. discriminate.
    + rewrite A in Hod by done. by eapply Hdy.
Qed.

Lemma updateOver_resting_preserved l : forall m,
  (forall k, k ∈ l -> k ∈ dynamicColliders this) ->
  resting this h x0 y0 (store m) ->
  resting this h x0 y0 (store (updateOver this deltaTime l m)).
Proof.
  induction l as [|k l IH]; intros m Hl Hr; simpl; [done|].
  apply IH; [intros; apply Hl; by right|].
  destruct (decide (k = h)) as [->|Hne].
  - by apply stepCollider_resting_preserved.
  - apply stepCollider_other_resting_preserved; [done | apply Hl; left | done].
Qed.

Lemma ticks_resting_preserved n : forall m,
  resting this h x0 y0 (store m) ->
  resting this h x0 y0 (store (ticks n this deltaTime m)).
Proof.
  induction n as [|n IH]; intros m Hr; simpl; [done|].
  apply IH. unfold update. by apply updateOver_resting_preserved.
Qed.

End Rest.

(** Rest when no other dynamic body is both active and in the mask of the
    resting body. *)
Lemma rest_without_neighbours
    (this : Physics) (deltaTime : Q) (m : Mem) (h s : handle) (a g : Body) :
  partitioned this ->
  h ∈ dynamicColliders this ->
  s ∈ staticColliders this ->
  store m !! h = Some a ->
  store m !! s = Some g ->
  active a = true -> active g = true -> maskMatches a g = true ->
  y a + height a == y g ->
  x a < x g + width g -> x g < x a + width a ->
  velocityX a == 0 -> velocityY a == 0 ->
  onGround a = true ->
  (forall o b,
     o ∈ staticColliders this -> store m !! o = Some b -> active b = true ->
     maskMatches a b = true -> checkCollision a b = false) ->
  (forall o d,
     o ∈ dynamicColliders this -> o <> h -> store m !! o = Some d ->
     active d = false \/ maskMatches a d = false) ->
  forall n,
    exists a',
      store (ticks n this deltaTime m) !! h = Some a' /\
      x a' == x a /\ y a' == y a /\ onGround a' = true.
Proof.
  intros Hp Hh Hs Ha Hg Aa Ag Mg Hy Hx1 Hx2 Hvx Hvy Ho Hst Hdy n.
  assert (Hr : resting this h (x a) (y a) (store m)).
  { exists a. split; [done|]. split; [done|]. split; [done|].
    split; [reflexivity|]. split; [reflexivity|]. split; [done|]. split; [done|].
    split; [|done]. exists s, g. done. }
  destruct (ticks_resting_preserved this deltaTime h (x a) (y a) Hp Hh n m Hr)
    as (a' & Ha' & _ & Ho' & Hx' & Hy' & _).
  by exists a'.
Qed.
(** ** Rest among other dynamic bodies *)

Lemma checkCollision_Qeq_r a b b' :
  x b' == x b -> y b' == y b -> width b' == width b -> height b' == height b ->
  checkCollision a b' = checkCollision a b.
Proof.
  intros Hx Hy Hw Hh.
  destruct (checkCollision a b) eqn:E.
  - apply checkCollision_true in E. apply checkCollision_true. lra.
  - apply checkCollision_false in E. apply checkCollision_false. lra.
Qed.

Lemma passStates_invariant (P : Mem -> Prop) this dt h l :
  (forall k m, k ∈ l -> P m -> P (stepCollider this dt k m)) ->
  forall m, P m ->
    P (updateOver this dt l m) /\
    forall m', m' ∈ passStates this dt h l m -> P m'.
Proof.
  induction l as [|k l IH]; intros Hstep m Hm; simpl.
  - split; [done|]. intros m' H. by apply elem_of_nil in H.
  - destruct (IH (fun k' m' Hk' => Hstep k' m' (list_elem_of_further _ _ _ Hk'))
                (stepCollider this dt k m) (Hstep k m ltac:(left) Hm))
      as [H1 H2].
    split; [done|]. intros m' H. apply elem_of_app in H as [H|H]; [|by apply H2].
    destruct (Nat.eqb k h); [|by apply elem_of_nil in H].
    apply list_elem_of_singleton in H as ->. done.
Qed.

Section RestAmong.

Variable this : Physics.
Variable deltaTime : Q.

Hypothesis registry_partitioned : partitioned this.

(** The pass of the resting body itself, when no dynamic body is in its
    way. *)
Lemma stepCollider_restingOnStatic h x0 y0 m :
  h ∈ dynamicColliders this ->
  restingOnStatic this h x0 y0 (store m) ->
  clearOfDynamics this h (store m) ->
  restingOnStatic this h x0 y0 (store (stepCollider this deltaTime h m)).
Proof.
  intros Hh (c & Hc & Ha & Hg & Hx & Hy & Hvx & Hvy & Hsup & Hst) Hclear.
  assert (Hns : h ∉ staticColliders this).
  { intros Hs. by apply (registry_partitioned h Hs). }
  destruct (integrate_resting this deltaTime c Hg Hvx Hvy)
    as (Ix & Iy & Ivx & Ivy & Ig).
  pose proof (integrate_shape this deltaTime c) as IS.
  unfold stepCollider. rewrite Hc, Ha. simpl negb. cbv iota.
  remember (integrate this deltaTime c) as c1 eqn:Ec1. clear Ec1.
  set (m1 := write h c1 m).
  assert (H1 : store m1 !! h = Some c1) by (simpl; by rewrite lookup_insert_eq).
  assert (Hother : forall o, o <> h -> store m1 !! o = store m !! o).
  { intros o Ho. simpl. by rewrite lookup_insert_ne. }
  assert (Hw : width c1 == width c) by (destruct IS as (-> & _); reflexivity).
  assert (Hhh : height c1 == height c)
    by (destruct IS as (_ & -> & _); reflexivity).
  assert (E2 : collideStatics this h m1 = m1).
  { apply fold_left_skip. intros o Ho. apply (collide_skip h o m1 c1 H1).
    intros g Hg'. rewrite Hother in Hg' by (intros ->; by apply Hns).
    destruct (active g) eqn:Eg; [|by left]. right.
    rewrite (sameShape_maskMatches_l _ _ g IS).
    destruct (maskMatches c g) eqn:Em; [|by left]. right.
    rewrite (checkCollision_Qeq c c1 g); [by eapply Hst | done | done | done | done]. }
  rewrite E2.
  assert (E3 : collideDynamics this h m1 = m1).
  { apply fold_left_skip. intros o Ho.
    destruct (Nat.eqb h o) eqn:E; [done|]. apply Nat.eqb_neq in E.
    apply (collide_skip h o m1 c1 H1).
    intros d Hd. rewrite Hother in Hd by congruence.
    rewrite (sameShape_maskMatches_l _ _ d IS).
    rewrite (checkCollision_Qeq c c1 d) by done.
    by apply (Hclear c o d Hc Ho (not_eq_sym E) Hd). }
  rewrite E3.
  unfold classify. rewrite H1. simpl store. rewrite lookup_insert_eq.
  assert (Ex : existsb (standsOn (<[h:=set_onGround false c1]> (<[h:=c1]> (store m)))
                          (set_onGround false c1)) (staticColliders this) = true).
  { destruct Hsup as (s & g & Hs & Hsg & Hga & Hgm & Hgy & Hgx1 & Hgx2).
    apply existsb_standsOn. exists s, g. split; [done|].
    assert (s <> h) by (intros ->; by apply Hns).
    split; [simpl; by rewrite !lookup_insert_ne|]. split; [done|].
    split.
    - unfold maskMatches in *. simpl.
      destruct IS as (_&_&_&_&_&->&_). done.
    - unfold supportedBy. cbn [x y width height set_onGround].
      split; [apply Qabs_case; intros; lra | lra]. }
  rewrite Ex. simpl store. rewrite !insert_insert_eq.
  assert (Hm : forall g, maskMatches (set_onGround true (set_onGround false c1)) g
                         = maskMatches c g).
  { intros g. unfold maskMatches. simpl. destruct IS as (_&_&_&_&_&->&_). done. }
  exists (set_onGround true (set_onGround false c1)).
  rewrite lookup_insert_eq. split; [done|].
  split; [simpl; by rewrite (sameShape_active _ _ IS)|].
  split; [done|]. simpl x. simpl y. simpl velocityX. simpl velocityY.
  split; [lra|]. split; [lra|]. split; [done|]. split; [done|].
  split.
  - destruct Hsup as (s & g & Hs & Hsg & Hga & Hgm & Hgy & Hgx1 & Hgx2).
    exists s, g. split; [done|].
    assert (s <> h) by (intros ->; by apply Hns).
    rewrite lookup_insert_ne by done. split; [done|]. split; [done|].
    rewrite Hm. split; [done|]. simpl. split; [lra|]. lra.
  - intros o g Ho Hog Hga Hgm.
    assert (o <> h) by (intros ->; by apply Hns).
    rewrite lookup_insert_ne in Hog by done. rewrite Hm in Hgm.
    rewrite (checkCollision_Qeq c _ g); [by eapply Hst | simpl; lra | simpl; lra | done | done].
Qed.

(** The pass of any other dynamic body does not write the resting body nor
    any static body. *)
Lemma stepCollider_other_restingOnStatic h x0 y0 k m :
  k <> h -> k ∈ dynamicColliders this ->
  restingOnStatic this h x0 y0 (store m) ->
  restingOnStatic this h x0 y0 (store (stepCollider this deltaTime k m)).
Proof.
  intros Hne Hk (c & Hc & Ha & Hg & Hx & Hy & Hvx & Hvy & Hsup & Hst).
  destruct (stepCollider_touches this deltaTime k m) as (A & B & C).
  assert (Hstat : forall o, o ∈ staticColliders this ->
            store (stepCollider this deltaTime k m) !! o = store m !! o).
  { intros o Ho. apply A. intros ->. by apply (registry_partitioned k Ho). }
  exists c. rewrite A by done. do 7 (split; [done|]). split.
  - destruct Hsup as (s & g & Hs & Hsg & Hrest).
    exists s, g. split; [done|]. by rewrite Hstat.
  - intros o g Ho Hog. rewrite Hstat in Hog by done. by eapply Hst.
Qed.

Lemma updateOver_restingOnStatic h x0 y0 l : forall m,
  h ∈ dynamicColliders this ->
  (forall k, k ∈ l -> k ∈ dynamicColliders this) ->
  restingOnStatic this h x0 y0 (store m) ->
  (forall m', m' ∈ passStates this deltaTime h l m ->
              clearOfDynamics this h (store m')) ->
  restingOnStatic this h x0 y0 (store (updateOver this deltaTime l m)).
Proof.
  induction l as [|k l IH]; intros m Hh Hl Hr Hclear; simpl; [done|].
  apply IH; [done | intros; apply Hl; by right | |].
  - destruct (decide (k = h)) as [->|Hne].
    + apply stepCollider_restingOnStatic; [done | done |].
      apply Hclear. simpl. rewrite Nat.eqb_refl. left.
    + apply stepCollider_other_restingOnStatic; [done | apply Hl; left | done].
  - intros m' Hm'. apply Hclear. simpl. apply elem_of_app. by right.
Qed.

Lemma ticks_restingOnStatic h x0 y0 n : forall m,
  h ∈ dynamicColliders this ->
  restingOnStatic this h x0 y0 (store m) ->
  (forall k m', (k < n)%nat ->
     m' ∈ passStates this deltaTime h (dynamicColliders this)
            (ticks k this deltaTime m) ->
     clearOfDynamics this h (store m')) ->
  restingOnStatic this h x0 y0 (store (ticks n this deltaTime m)).
Proof.
  induction n as [|n IH]; intros m Hh Hr Hclear; simpl; [done|].
  apply IH; [done | |].
  - unfold update. apply updateOver_restingOnStatic; [done | done | done |].
    intros m' Hm'. apply (Hclear O m'); [lia | done].
  - intros k m' Hk Hm'. apply (Hclear (S k) m'); [lia | done].
Qed.

(** Shape and activity of the other dynamic bodies do not change: if none
    of them is both active and in the mask of [h], no pass of [h] finds
    one. *)
Lemma quiet_neighbours_clear h m :
  (forall c o d,
     store m !! h = Some c -> o ∈ dynamicColliders this -> o <> h ->
     store m !! o = Some d -> active d = false \/ maskMatches c d = false) ->
  forall n k m', (k < n)%nat ->
    m' ∈ passStates this deltaTime h (dynamicColliders this)
           (ticks k this deltaTime m) ->
    clearOfDynamics this h (store m').
Proof.
  set (P := fun m : Mem => forall c o d,
     store m !! h = Some c -> o ∈ dynamicColliders this -> o <> h ->
     store m !! o = Some d -> active d = false \/ maskMatches c d = false).
  assert (Hstep : forall k m, P m -> P (stepCollider this deltaTime k m)).
  { intros k m0 HP c o d Hc Ho Hne Hd.
    pose proof (stepCollider_touches this deltaTime k m0) as T.
    destruct (touches_back _ _ _ _ _ T Hc) as (c0 & Hc0 & Sc).
    destruct (touches_back _ _ _ _ _ T Hd) as (d0 & Hd0 & Sd).
    rewrite (sameShape_active _ _ Sd), (sameShape_maskMatches_l _ _ _ Sc),
      (sameShape_maskMatches_r _ _ _ Sd).
    by eapply HP. }
  intros HP n k. revert m HP. induction k as [|k IH]; intros m HP m' Hk Hm'.
  - simpl in Hm'.
    destruct (passStates_invariant P this deltaTime h (dynamicColliders this)
                (fun k m _ => Hstep k m) m HP) as [_ H].
    intros c o d Hc Ho Hne Hd.
    destruct (H m' Hm' c o d Hc Ho Hne Hd) as [?|?]; [by left | right; by left].
  - simpl in Hm'. apply (IH (update this deltaTime m)); [|lia | done].
    destruct (passStates_invariant P this deltaTime h (dynamicColliders this)
                (fun k m _ => Hstep k m) m HP) as [H _].
    exact H.
Qed.

Lemma restingOnStatic_position h x0 y0 st c :
  restingOnStatic this h x0 y0 st -> st !! h = Some c ->
  x c == x0 /\ y c == y0.
Proof.
  intros (c0 & Hc0 & _ & _ & Hx & Hy & _) Hc.
  assert (c0 = c) as -> by congruence. done.
Qed.

(** Bodies that rest together still do after the pass of any dynamic
    body, each at its place. *)
Lemma stepCollider_restingTogether R k m :
  k ∈ dynamicColliders this ->
  restingTogether this R (store m) ->
  restingTogether this R (store (stepCollider this deltaTime k m)) /\
  forall h x0 y0, h ∈ R ->
    restingOnStatic this h x0 y0 (store m) ->
    restingOnStatic this h x0 y0 (store (stepCollider this deltaTime k m)).
Proof.
  intros Hk Inv.
  assert (Hkeep : forall h x0 y0, h ∈ R ->
            restingOnStatic this h x0 y0 (store m) ->
            restingOnStatic this h x0 y0
              (store (stepCollider this deltaTime k m))).
  { intros h x0 y0 Hh Hr. destruct (Inv h Hh) as (Hd & _ & Hmut).
    destruct (decide (k = h)) as [->|Hne].
    - apply stepCollider_restingOnStatic; [done | done |].
      intros c o d Hc Ho Hoh Hod.
      destruct (Hmut c o d Hc Ho Hoh Hod) as [?|[?|[_ ?]]]; auto.
    - by apply stepCollider_other_restingOnStatic. }
  split; [|done].
  intros h Hh. destruct (Inv h Hh) as (Hd & (x0 & y0 & Hr) & Hmut).
  split; [done|]. split; [exists x0, y0; by apply Hkeep|].
  intros c' o d' Hc' Ho Hoh Hod'.
  pose proof (stepCollider_touches this deltaTime k m) as T.
  destruct (touches_back _ _ _ _ _ T Hc') as (c0 & Hc0 & Sc).
  destruct (touches_back _ _ _ _ _ T Hod') as (d0 & Hd0 & Sd).
  rewrite (sameShape_active _ _ Sd), (sameShape_maskMatches_l _ _ _ Sc),
    (sameShape_maskMatches_r _ _ _ Sd).
  destruct (Hmut c0 o d0 Hc0 Ho Hoh Hd0) as [?|[?|[HoR Hcc]]];
    [by left | right; by left |].
  right. right. split; [done|].
  destruct (Inv o HoR) as (_ & (xo & yo & Hro) & _).
  destruct (restingOnStatic_position _ _ _ _ _ Hr Hc0) as [Ex0 Ey0].
  destruct (restingOnStatic_position _ _ _ _ _ (Hkeep h x0 y0 Hh Hr) Hc')
    as [Ex1 Ey1].
  destruct (restingOnStatic_position _ _ _ _ _ Hro Hd0) as [Fx0 Fy0].
  destruct (restingOnStatic_position _ _ _ _ _ (Hkeep o xo yo HoR Hro) Hod')
    as [Fx1 Fy1].
  destruct Sc as (Swc & Shc & _). destruct Sd as (Swd & Shd & _).
  rewrite (checkCollision_Qeq c0 c' d');
    [| lra | lra | rewrite Swc; reflexivity | rewrite Shc; reflexivity].
  rewrite (checkCollision_Qeq_r c0 d0 d');
    [done | lra | lra | rewrite Swd; reflexivity | rewrite Shd; reflexivity].
Qed.

(** Bodies that rest together: no pass of one of them finds a dynamic body
    in its way, in any tick. *)
Lemma restingTogether_clear R h m :
  h ∈ R -> restingTogether this R (store m) ->
  forall n k m', (k < n)%nat ->
    m' ∈ passStates this deltaTime h (dynamicColliders this)
           (ticks k this deltaTime m) ->
    clearOfDynamics this h (store m').
Proof.
  intros Hh Inv n k.
  set (P := fun m : Mem => restingTogether this R (store m)).
  assert (Hstep : forall j m0, j ∈ dynamicColliders this -> P m0 ->
                    P (stepCollider this deltaTime j m0)).
  { intros j m0 Hj HP. by apply stepCollider_restingTogether. }
  revert m Inv. induction k as [|k IH]; intros m Inv m' Hk Hm'.
  - simpl in Hm'.
    destruct (passStates_invariant P this deltaTime h (dynamicColliders this)
                Hstep m Inv) as [_ H].
    destruct (H m' Hm' h Hh) as (_ & _ & Hmut).
    intros c o d Hc Ho Hne Hd.
    destruct (Hmut c o d Hc Ho Hne Hd) as [?|[?|[_ ?]]]; auto.
  - simpl in Hm'. apply (IH (update this deltaTime m)); [| lia | done].
    destruct (passStates_invariant P this deltaTime h (dynamicColliders this)
                Hstep m Inv) as [H _].
    exact H.
Qed.

End RestAmong.
(** ** Idempotent rest: the theorem *)

Example twoResting_partitioned : partitioned twoResting.1.
Proof.
  intros h Hs Hd. simpl in Hs, Hd.
  apply list_elem_of_singleton in Hs as ->.
  apply elem_of_cons in Hd as [Hd|Hd]; [discriminate|].
  apply list_elem_of_singleton in Hd. discriminate.
Qed.

Example twoResting_together :
  restingTogether twoResting.1 [2; 3]%nat (store twoRestingMem).
Proof.
  assert (Hfloor : forall o g, o ∈ staticColliders twoResting.1 ->
            store twoRestingMem !! o = Some g -> g = withDefaults floorInit).
  { intros o g Ho Hg. simpl in Ho. apply list_elem_of_singleton in Ho as ->.
    assert (E : Some g = Some (withDefaults floorInit))
      by (rewrite <- Hg; reflexivity).
    by injection E. }
  intros h Hh.
  assert (Hcases : h = 2%nat \/ h = 3%nat).
  { apply elem_of_cons in Hh as [->|Hh]; [by left|].
    apply list_elem_of_singleton in Hh. by right. }
  destruct Hcases as [-> | ->].
  - split; [simpl; left|]. split.
    + exists 10, 68, restingBody. split; [reflexivity|].
      do 6 (split; [reflexivity|]). split.
      * exists 1%nat, (withDefaults floorInit). split; [simpl; left|].
        repeat split; reflexivity.
      * intros o g Ho Hg _ _. rewrite (Hfloor o g Ho Hg). reflexivity.
    + intros c o d Hc Ho Hne Hd. simpl in Ho.
      apply elem_of_cons in Ho as [->|Ho]; [done|].
      apply list_elem_of_singleton in Ho as ->.
      assert (Ec : Some c = Some restingBody) by (rewrite <- Hc; reflexivity).
      assert (Ed : Some d = Some (set_onGround true
                                    (withDefaults (rect 100 68 32 32 false))))
        by (rewrite <- Hd; reflexivity).
      injection Ec as ->. injection Ed as ->.
      right. right. split; [right; left | reflexivity].
  - split; [simpl; right; left|]. split.
    + exists 100, 68,
        (set_onGround true (withDefaults (rect 100 68 32 32 false))).
      split; [reflexivity|]. do 6 (split; [reflexivity|]). split.
      * exists 1%nat, (withDefaults floorInit). split; [simpl; left|].
        repeat split; reflexivity.
      * intros o g Ho Hg _ _. rewrite (Hfloor o g Ho Hg). reflexivity.
    + intros c o d Hc Ho Hne Hd. simpl in Ho.
      apply elem_of_cons in Ho as [->|Ho];
        [|apply list_elem_of_singleton in Ho; done].
      assert (Ec : Some c = Some (set_onGround true
                                    (withDefaults (rect 100 68 32 32 false))))
        by (rewrite <- Hc; reflexivity).
      assert (Ed : Some d = Some restingBody) by (rewrite <- Hd; reflexivity).
      injection Ec as ->. injection Ed as ->.
      right. right. split; [left | reflexivity].
Qed.

(** C8, as the code has it.  An active dynamic body that rests on an active
    static surface passing its mask gate (bottom edge on the top edge of the
    surface, horizontal extents overlapping, both velocity components zero),
    that is already grounded and overlaps no active static body that passes
    its gate, keeps its position and its [onGround = true] through [n]
    ticks of [update], for every [dt], as long as no other dynamic body
    that is active and in its mask overlaps it when its pass of a tick
    begins.  That is so in particular when no other dynamic body is both
    active and in its mask, and when the dynamic bodies that are rest
    together, each on a static surface and apart from the others. *)
Theorem rest_is_idempotent
    (this : Physics) (deltaTime : Q) (m : Mem) (h s : handle) (a g : Body)
    (n : nat) :
  partitioned this ->
  h ∈ dynamicColliders this ->
  s ∈ staticColliders this ->
  store m !! h = Some a ->
  store m !! s = Some g ->
  active a = true -> active g = true -> maskMatches a g = true ->
  y a + height a == y g ->
  x a < x g + width g -> x g < x a + width a ->
  velocityX a == 0 -> velocityY a == 0 ->
  onGround a = true ->
  (forall o b,
     o ∈ staticColliders this -> store m !! o = Some b -> active b = true ->
     maskMatches a b = true -> checkCollision a b = false) ->
  (forall o d,
     o ∈ dynamicColliders this -> o <> h -> store m !! o = Some d ->
     active d = false \/ maskMatches a d = false) \/
  (exists R, h ∈ R /\ restingTogether this R (store m)) \/
  (forall k m', (k < n)%nat ->
     m' ∈ passStates this deltaTime h (dynamicColliders this)
            (ticks k this deltaTime m) ->
     clearOfDynamics this h (store m')) ->
  exists a',
    store (ticks n this deltaTime m) !! h = Some a' /\
    x a' == x a /\ y a' == y a /\ onGround a' = true.
Proof.
  intros Hp Hh Hs Ha Hg Aa Ag Mg Hy Hx1 Hx2 Hvx Hvy Ho Hst Hdy.
  assert (Hr : restingOnStatic this h (x a) (y a) (store m)).
  { exists a. split; [done|]. split; [done|]. split; [done|].
    split; [reflexivity|]. split; [reflexivity|]. split; [done|]. split; [done|].
    split; [|done]. exists s, g. done. }
  assert (Hclear : forall k m', (k < n)%nat ->
     m' ∈ passStates this deltaTime h (dynamicColliders this)
            (ticks k this deltaTime m) ->
     clearOfDynamics this h (store m')).
  { destruct Hdy as [Hq|[(R & HR & Inv)|Hc]]; [| |done].
    - apply quiet_neighbours_clear.
      intros c o d Hc. assert (c = a) as -> by congruence. apply Hq.
    - by apply (restingTogether_clear this deltaTime Hp R h m). }
  destruct (ticks_restingOnStatic this deltaTime Hp h (x a) (y a) n m Hh Hr Hclear)
    as (a' & Ha' & _ & Ho' & Hx' & Hy' & _).
  by exists a'.
Qed.

(** The two grounded bodies of [twoRestingMem], five ticks later. *)
Lemma rest_is_idempotent_witness :
  exists a',
    store (ticks 5 twoResting.1 (1 # 10) twoRestingMem) !! 2%nat = Some a' /\
    x a' == x restingBody /\ y a' == y restingBody /\ onGround a' = true.
Proof.
  apply (rest_is_idempotent twoResting.1 (1 # 10) twoRestingMem 2%nat 1%nat
           restingBody (withDefaults floorInit) 5).
  - exact twoResting_partitioned.
  - simpl. left.
  - simpl. left.
  - reflexivity.
  - reflexivity.
  - reflexivity.
  - reflexivity.
  - reflexivity.
  - reflexivity.
  - reflexivity.
  - reflexivity.
  - reflexivity.
  - reflexivity.
  - reflexivity.
  - intros o b Ho Hb _ _. simpl in Ho. apply list_elem_of_singleton in Ho.
    subst o.
    assert (E : Some b = Some (withDefaults floorInit))
      by (rewrite <- Hb; reflexivity).
    injection E as ->. reflexivity.
  - right. left. exists [2; 3]%nat. split; [left | exact twoResting_together].
Defined.

(** A body registered on the floor starts with [onGround = false]: its
    first tick lets it sink by [gravity * dt * dt], the resolver puts it
    back and the classifier grounds it, after which it rests. *)
Example registered_body_comes_to_rest :
  exists a1 a9,
    store (update restScene.1 (1 # 10) restMem) !! 2%nat = Some a1 /\
    x a1 == 10 /\ y a1 == 68 /\ onGround a1 = true /\
    store (ticks 9 restScene.1 (1 # 10) restMem) !! 2%nat = Some a9 /\
    x a9 == 10 /\ y a9 == 68 /\ onGround a9 = true.
Proof.
  eexists. eexists.
  split; [vm_compute; reflexivity|]. split; [reflexivity|].
  split; [reflexivity|]. split; [reflexivity|].
  split; [vm_compute; reflexivity|]. repeat split; reflexivity.
Qed.

(** C8, as the claim states it, fails.  A body that was just registered is
    not grounded yet, so its first tick applies gravity: on the edge of a
    ledge the body sinks further than it overlaps the ledge sideways, and
    the resolver pushes it off along X; with a long step it falls through
    the floor.  A grounded body that a wall reaches into is pushed out of
    the wall, and a grounded body that overlaps no static body is pushed
    out of another dynamic body that reaches into it.  In the four scenes
    the body lies on the surface, overlaps it horizontally and has no
    velocity. *)
Lemma resting_body_can_move :
  (exists a g a',
     ledgeMem.(store) !! 2%nat = Some a /\ ledgeMem.(store) !! 1%nat = Some g /\
     active a = true /\ active g = true /\ maskMatches a g = true /\
     y a + height a == y g /\ x a < x g + width g /\ x g < x a + width a /\
     velocityX a == 0 /\ velocityY a == 0 /\
     store (update ledgeScene.1 1 ledgeMem) !! 2%nat = Some a' /\
     x a' == - (1 # 4) /\ ~ x a' == x a /\ onGround a' = false) /\
  (exists a g a',
     restMem.(store) !! 2%nat = Some a /\ restMem.(store) !! 1%nat = Some g /\
     active a = true /\ active g = true /\ maskMatches a g = true /\
     y a + height a == y g /\ x a < x g + width g /\ x g < x a + width a /\
     velocityX a == 0 /\ velocityY a == 0 /\
     store (update restScene.1 100 restMem) !! 2%nat = Some a' /\
     y a' == 1068 /\ ~ y a' == y a /\ onGround a' = false) /\
  (exists a g a',
     wallMem.(store) !! 2%nat = Some a /\ wallMem.(store) !! 1%nat = Some g /\
     active a = true /\ active g = true /\ maskMatches a g = true /\
     y a + height a == y g /\ x a < x g + width g /\ x g < x a + width a /\
     velocityX a == 0 /\ velocityY a == 0 /\ onGround a = true /\
     store (update wallScene.1 1 wallMem) !! 2%nat = Some a' /\
     x a' == 8 /\ ~ x a' == x a) /\
  (exists a g a',
     shoveMem.(store) !! 2%nat = Some a /\ shoveMem.(store) !! 1%nat = Some g /\
     active a = true /\ active g = true /\ maskMatches a g = true /\
     y a + height a == y g /\ x a < x g + width g /\ x g < x a + width a /\
     velocityX a == 0 /\ velocityY a == 0 /\ onGround a = true /\
     staticColliders shoveScene.1 = [1%nat] /\ checkCollision a g = false /\
     store (update shoveScene.1 1 shoveMem) !! 2%nat = Some a' /\
     x a' == 8 /\ ~ x a' == x a).
Proof.
  split; [|split; [|split]].
  - eexists. eexists. eexists.
    split; [reflexivity|]. split; [reflexivity|].
    do 8 (split; [reflexivity|]).
    split; [vm_compute; reflexivity|]. split; [reflexivity|].
    split; [|reflexivity]. intros H. discriminate H.
  - eexists. eexists. eexists.
    split; [reflexivity|]. split; [reflexivity|].
    do 8 (split; [reflexivity|]).
    split; [vm_compute; reflexivity|]. split; [reflexivity|].
    split; [|reflexivity]. intros H. discriminate H.
  - eexists. eexists. eexists.
    split; [reflexivity|]. split; [reflexivity|].
    do 9 (split; [reflexivity|]).
    split; [vm_compute; reflexivity|]. split; [reflexivity|].
    intros H. discriminate H.
  - eexists. eexists. eexists.
    split; [reflexivity|]. split; [reflexivity|].
    do 11 (split; [reflexivity|]).
    split; [vm_compute; reflexivity|]. split; [reflexivity|].
    intros H. discriminate H.
Qed.

(** ** Collision callbacks *)


Lemma notify_cases r a m :
  exists evs, callOf r a evs /\
              notify r a m = mkMem (store m) (trace m ++ evs).
Proof.
  unfold notify.
  destruct (store m !! r) as [rb|];
    [destruct (store m !! a) as [ab|]; [destruct (onCollision rb)|]|].
  - exists [Called r a rb ab]. split; [right; by exists rb, ab | done].
  - exists []. split; [by left|]. rewrite app_nil_r. by destruct m.
  - exists []. split; [by left|]. rewrite app_nil_r. by destruct m.
  - exists []. split; [by left|]. rewrite app_nil_r. by destruct m.
Qed.

(** A call of [collide] either changes nothing or records one resolution of
    the querying collider followed by at most one call of each callback. *)
Lemma collide_cases h o m :
  collide h o m = m \/
  exists r evs1 evs2,
    callOf h o evs1 /\ callOf o h evs2 /\
    trace (collide h o m) = trace m ++ Resolved h o r :: evs1 ++ evs2.
Proof.
  unfold collide.
  destruct (store m !! h) as [c|]; [|by left].
  destruct (store m !! o) as [b|]; [|by left].
  destruct (negb (active b)); [by left|].
  destruct (negb (maskMatches c b)); [by left|].
  destruct (checkCollision c b); [|by left].
  right. set (m1 := emit _ _).
  destruct (notify_cases h o m1) as (evs1 & H1 & E1).
  destruct (notify_cases o h (notify h o m1)) as (evs2 & H2 & E2).
  exists (resolveCollision c b), evs1, evs2. split; [done|]. split; [done|].
  rewrite E2, E1. simpl. rewrite <- !app_assoc. done.
Qed.



Lemma classify_trace this h m : trace (classify this h m) = trace m.
Proof.
  unfold classify. destruct (store m !! h); [|done]. simpl.
  rewrite lookup_insert_eq. by destruct (existsb _ _).
Qed.

Lemma gateClosed_touches b a k m m' :
  touches k m m' -> gateClosed b a (store m) -> gateClosed b a (store m').
Proof.
  intros T HG cb ca Hb Ha.
  assert (Hback : forall j c', store m' !! j = Some c' ->
            exists c, store m !! j = Some c /\ sameShape c c').
  { intros j c' Hj. destruct T as (T1 & T2 & T3).
    destruct (decide (j = k)) as [->|Hne].
    - destruct (store m !! k) as [c|] eqn:Hk.
      + destruct (T2 c eq_refl) as (c2 & Hc2 & S2).
        exists c. split; [done|]. congruence.
      + rewrite T3 in Hj by done. discriminate.
    - rewrite T1 in Hj by done. exists c'. split; [done | apply sameShape_refl]. }
  destruct (Hback _ _ Hb) as (cb0 & Hb0 & Sb).
  destruct (Hback _ _ Ha) as (ca0 & Ha0 & Sa).
  rewrite (sameShape_maskMatches_l _ _ _ Sb), (sameShape_maskMatches_r _ _ _ Sa).
  by eapply HG.
Qed.





Lemma collideOther_touches h o m : touches h m (collideOther h o m).
Proof.
  unfold collideOther.
  destruct (Nat.eqb h o); [apply touches_refl | apply collide_touches].
Qed.

Section PairAccounting.

Variable this : Physics.
Variable deltaTime : Q.
Variables A B : handle.
Variable p : Event -> bool.
Variable bound : nat.

Hypothesis A_ne_B : A <> B.
Hypothesis p_ends : forall e, p e = true -> ends e = (A, B) \/ ends e = (B, A).
Hypothesis p_detection : forall r evs1 evs2,
  callOf A B evs1 -> callOf B A evs2 ->
  (countIf p (Resolved A B r :: evs1 ++ evs2) <= bound)%nat.







Lemma scanStep_collide : scanStep collide.
Proof. intros h o m. by right. Qed.

Lemma scanStep_collideOther : scanStep collideOther.
Proof.
  intros h o m. unfold collideOther. destruct (Nat.eqb h o); [by left | by right].
Qed.

Lemma scanStep_touches f h o m : scanStep f -> touches h m (f h o m).
Proof.
  intros Hf. destruct (Hf h o m) as [->| ->];
    [apply touches_refl | apply collide_touches].
Qed.

Lemma scanWith_touches f h l : scanStep f ->
  forall m, touches h m (scanWith f h l m).
Proof.
  intros Hf. apply fold_touches. intros m o. by apply scanStep_touches.
Qed.



Hypothesis statics_NoDup : NoDup (staticColliders this).
Hypothesis dynamics_NoDup : NoDup (dynamicColliders this).
Hypothesis registry_partitioned : partitioned this.

Lemma stepCollider_scans h m c :
  store m !! h = Some c -> active c = true ->
  stepCollider this deltaTime h m =
  classify this h
    (scanWith collideOther h (dynamicColliders this)
       (scanWith collide h (staticColliders this)
          (write h (integrate this deltaTime c) m))).
Proof. intros Hc Ha. unfold stepCollider. by rewrite Hc, Ha. Qed.

Lemma stepCollider_unchanged h m :
  store m !! h = None \/ (exists c, store m !! h = Some c /\ active c = false) ->
  stepCollider this deltaTime h m = m.
Proof.
  intros [Hn|(c & Hc & Ha)]; unfold stepCollider.
  - by rewrite Hn.
  - by rewrite Hc, Ha.
Qed.

Lemma stepCollider_cases h m :
  stepCollider this deltaTime h m = m \/
  exists c, store m !! h = Some c /\ active c = true.
Proof.
  destruct (store m !! h) as [c|] eqn:Hc.
  - destruct (active c) eqn:Ha.
    + right. by exists c.
    + left. apply stepCollider_unchanged. right. by exists c.
  - left. apply stepCollider_unchanged. by left.
Qed.









End PairAccounting.


(** ** Inactive bodies are skipped *)

Lemma mentions_neither h a b e :
  ends e = (a, b) -> a <> h -> b <> h -> mentions h e = false.
Proof.
  intros E Ha Hb. unfold mentions. rewrite E. simpl.
  apply orb_false_iff. split; by apply Nat.eqb_neq.
Qed.

Lemma callOf_silent h r a evs :
  r <> h -> a <> h -> callOf r a evs ->
  Forall (fun e => mentions h e = false) evs.
Proof.
  intros Hr Ha [->|(b1 & b2 & ->)]; [constructor|].
  constructor; [|constructor]. by apply (mentions_neither h r a).
Qed.

(** While [h] is inactive, the pass of another collider records nothing
    about it. *)
Lemma collide_silent h k o m c :
  k <> h -> store m !! h = Some c -> active c = false ->
  exists evs, trace (collide k o m) = trace m ++ evs /\
              Forall (fun e => mentions h e = false) evs.
Proof.
  intros Hk Hc Ha.
  destruct (decide (o = h)) as [->|Ho].
  - exists []. rewrite app_nil_r. split; [|constructor].
    unfold collide. destruct (store m !! k); [|done]. by rewrite Hc, Ha.
  - destruct (collide_cases k o m) as [->|(r & evs1 & evs2 & C1 & C2 & ->)].
    + exists []. rewrite app_nil_r. split; [done | constructor].
    + eexists. split; [done|]. constructor.
      * by apply (mentions_neither h k o).
      * apply Forall_app. split;
          [by apply (callOf_silent h k o) | by apply (callOf_silent h o k)].
Qed.

Lemma scanWith_silent f h k l : scanStep f -> k <> h ->
  forall m c, store m !! h = Some c -> active c = false ->
  exists evs, trace (scanWith f k l m) = trace m ++ evs /\
              Forall (fun e => mentions h e = false) evs.
Proof.
  intros Hf Hk. induction l as [|o l IH]; intros m c Hc Ha.
  - exists []. rewrite app_nil_r. split; [done | constructor].
  - change (scanWith f k (o :: l) m) with (scanWith f k l (f k o m)).
    assert (Hc' : store (f k o m) !! h = Some c).
    { destruct (scanStep_touches f k o m Hf) as (A & _). by rewrite A. }
    destruct (IH (f k o m) c Hc' Ha) as (evs2 & -> & F2).
    destruct (Hf k o m) as [->| ->]; [by exists evs2|].
    destruct (collide_silent h k o m c Hk Hc Ha) as (evs1 & -> & F1).
    exists (evs1 ++ evs2). rewrite app_assoc. split; [done|].
    apply Forall_app. done.
Qed.

Lemma stepCollider_silent this dt h k m c :
  store m !! h = Some c -> active c = false ->
  exists evs, trace (stepCollider this dt k m) = trace m ++ evs /\
              Forall (fun e => mentions h e = false) evs.
Proof.
  intros Hc Ha.
  destruct (stepCollider_cases this dt k m) as [->|(ck & Hck & Hak)].
  { exists []. rewrite app_nil_r. split; [done | constructor]. }
  assert (Hk : k <> h) by (intros ->; congruence).
  rewrite (stepCollider_scans this dt k m ck Hck Hak), classify_trace.
  set (m1 := write k (integrate this dt ck) m).
  assert (H1 : store m1 !! h = Some c) by (simpl; by rewrite lookup_insert_ne).
  destruct (scanWith_silent collide h k (staticColliders this)
              scanStep_collide Hk m1 c H1 Ha) as (evs1 & E1 & F1).
  assert (H2 : store (scanWith collide k (staticColliders this) m1) !! h = Some c).
  { destruct (scanWith_touches collide k (staticColliders this)
                scanStep_collide m1) as (A & _). by rewrite A. }
  destruct (scanWith_silent collideOther h k (dynamicColliders this)
              scanStep_collideOther Hk _ c H2 Ha) as (evs2 & -> & F2).
  exists (evs1 ++ evs2). rewrite E1, app_assoc. split; [done|].
  apply Forall_app. done.
Qed.

Lemma updateOver_silent this dt h l : forall m c,
  store m !! h = Some c -> active c = false ->
  exists evs, trace (updateOver this dt l m) = trace m ++ evs /\
              Forall (fun e => mentions h e = false) evs.
Proof.
  induction l as [|k l IH]; intros m c Hc Ha; simpl.
  - exists []. rewrite app_nil_r. split; [done | constructor].
  - destruct (stepCollider_silent this dt h k m c Hc Ha) as (evs1 & E1 & F1).
    assert (Hc' : store (stepCollider this dt k m) !! h = Some c).
    { change (store (updateOver this dt [k] m) !! h = Some c).
      by apply updateOver_inactive. }
    destruct (IH _ c Hc' Ha) as (evs2 & -> & F2).
    exists (evs1 ++ evs2). rewrite E1, app_assoc. split; [done|].
    apply Forall_app. done.
Qed.

(** C10.  [update] leaves every static body and every inactive body
    unchanged in all fields: the integrator, the resolver and the grounding
    classifier write to active dynamic bodies only.  A static body is an
    object outside the dynamic partition, which in a well-formed registry
    is every object flagged [isStatic].  An inactive body is skipped by
    detection and resolution as well: the tick records no resolution and no
    callback that involves it. *)
Theorem update_writes_active_dynamic_only
    (this : Physics) (deltaTime : Q) (m : Mem) (h : handle) (c : Body) :
  store m !! h = Some c ->
  h ∉ dynamicColliders this \/
  (wellFormed (this, store m) /\ isStatic c = true) \/
  active c = false ->
  store (update this deltaTime m) !! h = Some c /\
  (active c = false ->
   exists evs, trace (update this deltaTime m) = trace m ++ evs /\
               Forall (fun e => mentions h e = false) evs).
Proof.
  intros Hc H. split.
  - destruct H as [Hs|[[Hw Hs]|Hi]].
    + unfold update. by rewrite updateOver_other.
    + unfold update. rewrite updateOver_other; [done|].
      by apply (static_flag_not_dynamic (this, store m) h c).
    + unfold update. by eapply updateOver_inactive.
  - intros Hi. by eapply updateOver_silent.
Qed.

(** The floor of [restScene], and the inactive body of [sleeperScene] with
    its velocity of (3, 4). *)
Lemma update_writes_active_dynamic_only_witness :
  store (update restScene.1 (1 # 10) restMem) !! 1%nat
    = Some (withDefaults floorInit) /\
  store (update sleeperScene.1 (1 # 10) sleeperMem) !! 2%nat
    = Some (withDefaults sleeperInit).
Proof.
  split.
  - apply (update_writes_active_dynamic_only restScene.1 (1 # 10) restMem 1%nat).
    + reflexivity.
    + left. simpl. intros H. apply list_elem_of_singleton in H. discriminate H.
  - apply (update_writes_active_dynamic_only sleeperScene.1 (1 # 10)
             sleeperMem 2%nat).
    + reflexivity.
    + right. right. reflexivity.
Defined.

(** The scenes built with [addCollider] are well formed. *)
Example restScene_wellFormed : wellFormed restScene.
Proof.
  unfold restScene.
  apply wellFormed_addCollider; [apply wellFormed_addCollider|].
  - apply wellFormed_new.
  - apply not_elem_of_nil.
  - simpl. intros H. apply list_elem_of_singleton in H. discriminate H.
Qed.










(** With the gate of the object 2 closed for the object 1, the same tick
    holds one resolution, from the perspective of the object 1, and one call
    of each callback. *)
Example asymmetric_pair_resolved_once :
  exists a b,
    asymmetricMem.(store) !! 1%nat = Some a /\
    asymmetricMem.(store) !! 2%nat = Some b /\
    maskMatches a b = true /\ maskMatches b a = false /\
    countIf (isResolved 1%nat 2%nat) (trace (update asymmetricScene.1 1 asymmetricMem)) = 1%nat /\
    countIf (isResolved 2%nat 1%nat) (trace (update asymmetricScene.1 1 asymmetricMem)) = 0%nat /\
    countIf (isCalled 1%nat 2%nat) (trace (update asymmetricScene.1 1 asymmetricMem)) = 1%nat /\
    countIf (isCalled 2%nat 1%nat) (trace (update asymmetricScene.1 1 asymmetricMem)) = 1%nat.
Proof.
  eexists. eexists. split; [reflexivity|]. split; [reflexivity|].
  repeat split; vm_compute; reflexivity.
Qed.

(** A dynamic body on a static floor, with the default layer and mask on
    both: the gate of the floor is open for the body, and the tick still
    holds one resolution, from the perspective of the body, and one call of
    each callback. *)
Example dynamic_static_pair_resolved_once :
  exists a b,
    landingMem.(store) !! 2%nat = Some a /\
    landingMem.(store) !! 1%nat = Some b /\
    maskMatches a b = true /\ maskMatches b a = true /\
    countIf (isResolved 2%nat 1%nat) (trace (update landingScene.1 1 landingMem)) = 1%nat /\
    countIf (isResolved 1%nat 2%nat) (trace (update landingScene.1 1 landingMem)) = 0%nat /\
    countIf (isCalled 2%nat 1%nat) (trace (update landingScene.1 1 landingMem)) = 1%nat /\
    countIf (isCalled 1%nat 2%nat) (trace (update landingScene.1 1 landingMem)) = 1%nat.
Proof.
  eexists. eexists. split; [reflexivity|]. split; [reflexivity|].
  repeat split; vm_compute; reflexivity.
Qed.

(** ** Terminal velocity through a whole tick *)

Lemma resolveCollision_velocityY a b :
  velocityY (resolveCollision a b) = velocityY a \/
  velocityY (resolveCollision a b) = 0.
Proof. unfold resolveCollision. case_ifs; simpl; auto. Qed.

(** [h] holds a body whose vertical velocity is at most [v]. *)
Lemma collide_velocityY_bounded v h o m c :
  0 <= v -> store m !! h = Some c -> velocityY c <= v ->
  exists c', store (collide h o m) !! h = Some c' /\ velocityY c' <= v.
Proof.
  intros Hv Hc Hb. unfold collide. rewrite Hc.
  destruct (store m !! o) as [b|]; [|by exists c].
  destruct (negb (active b)); [by exists c|].
  destruct (negb (maskMatches c b)); [by exists c|].
  destruct (checkCollision c b); [|by exists c].
  rewrite !notify_store. simpl. rewrite lookup_insert_eq.
  exists (resolveCollision c b). split; [done|].
  destruct (resolveCollision_velocityY c b) as [-> | ->]; [done | lra].
Qed.

Lemma scanWith_velocityY_bounded f v h l : scanStep f -> 0 <= v ->
  forall m c, store m !! h = Some c -> velocityY c <= v ->
  exists c', store (scanWith f h l m) !! h = Some c' /\ velocityY c' <= v.
Proof.
  intros Hf Hv. induction l as [|o l IH]; intros m c Hc Hb; [by exists c|].
  change (scanWith f h (o :: l) m) with (scanWith f h l (f h o m)).
  destruct (Hf h o m) as [->| ->]; [by eapply IH|].
  destruct (collide_velocityY_bounded v h o m c Hv Hc Hb) as (c1 & Hc1 & Hb1).
  by eapply IH.
Qed.

Lemma classify_velocityY this h m c :
  store m !! h = Some c ->
  exists c', store (classify this h m) !! h = Some c' /\
             velocityY c' = velocityY c.
Proof.
  intros Hc. unfold classify. rewrite Hc. simpl. rewrite lookup_insert_eq.
  destruct (existsb _ _); simpl; rewrite ?lookup_insert_eq; by eexists.
Qed.

Lemma integrate_velocityY_bounded this dt c :
  0 <= terminalVelocity this -> affectedByGravity c = true ->
  velocityY (integrate this dt c) <= terminalVelocity this.
Proof.
  intros Hv Hg. rewrite integrate_velocityY, Hg.
  unfold applyGravity. simpl. case_ifs; simpl; q_reflect; lra.
Qed.

Lemma stepCollider_velocityY_bounded this dt h m c :
  0 <= terminalVelocity this ->
  store m !! h = Some c -> active c = true -> affectedByGravity c = true ->
  exists c', store (stepCollider this dt h m) !! h = Some c' /\
             velocityY c' <= terminalVelocity this.
Proof.
  intros Hv Hc Ha Hg.
  rewrite (stepCollider_scans this dt h m c Hc Ha).
  set (m1 := write h (integrate this dt c) m).
  assert (H1 : store m1 !! h = Some (integrate this dt c))
    by (simpl; by rewrite lookup_insert_eq).
  destruct (scanWith_velocityY_bounded collide (terminalVelocity this) h
              (staticColliders this) scanStep_collide Hv m1 _ H1
              (integrate_velocityY_bounded this dt c Hv Hg))
    as (c2 & H2 & B2).
  destruct (scanWith_velocityY_bounded collideOther (terminalVelocity this) h
              (dynamicColliders this) scanStep_collideOther Hv _ _ H2 B2)
    as (c3 & H3 & B3).
  destruct (classify_velocityY this h _ c3 H3) as (c4 & H4 & E4).
  exists c4. split; [done|]. by rewrite E4.
Qed.

Lemma updateOver_velocityY_bounded this dt h l : forall m c,
  0 <= terminalVelocity this -> h ∈ l ->
  store m !! h = Some c -> active c = true -> affectedByGravity c = true ->
  exists c', store (updateOver this dt l m) !! h = Some c' /\
             velocityY c' <= terminalVelocity this /\ sameShape c c'.
Proof.
  induction l as [|k l IH]; intros m c Hv Hh Hc Ha Hg; simpl.
  - by apply elem_of_nil in Hh.
  - destruct (stepCollider_shape this dt k m h c Hc) as (c1 & Hc1 & S1).
    destruct (decide (h ∈ l)) as [Hin|Hnin].
    + destruct (IH (stepCollider this dt k m) c1 Hv Hin Hc1) as (c' & Hc' & B' & S').
      * by rewrite (sameShape_active _ _ S1).
      * destruct S1 as (_&_&->&_). done.
      * exists c'. split; [done|]. split; [done|]. by eapply sameShape_trans.
    + apply elem_of_cons in Hh as [->|Hh]; [|done].
      destruct (stepCollider_velocityY_bounded this dt k m c Hv Hc Ha Hg)
        as (c2 & Hc2 & B2).
      assert (c2 = c1) as -> by congruence.
      exists c1. rewrite updateOver_other by done. done.
Qed.

Lemma ticks_velocityY_bounded this dt h n : forall m c,
  0 <= terminalVelocity this -> h ∈ dynamicColliders this ->
  store m !! h = Some c -> active c = true -> affectedByGravity c = true ->
  exists c', store (ticks (S n) this dt m) !! h = Some c' /\
             velocityY c' <= terminalVelocity this.
Proof.
  induction n as [|n IH]; intros m c Hv Hh Hc Ha Hg.
  - destruct (updateOver_velocityY_bounded this dt h _ m c Hv Hh Hc Ha Hg)
      as (c' & Hc' & B' & _). by exists c'.
  - destruct (updateOver_velocityY_bounded this dt h _ m c Hv Hh Hc Ha Hg)
      as (c1 & Hc1 & _ & S1).
    change (ticks (S (S n)) this dt m) with (ticks (S n) this dt (update this dt m)).
    eapply IH; [done | done | exact Hc1 | |].
    + by rewrite (sameShape_active _ _ S1).
    + destruct S1 as (_&_&->&_). done.
Qed.

(** C9.  For a body under gravity that is not grounded, the integrator adds
    [gravity * dt] to [velocityY] and clamps the sum to the terminal
    velocity, for every [dt] and every starting velocity; the bound holds
    after the first tick of a free fall and after every further one.  It
    also holds at the end of [update], and of any number of ticks, whatever
    the body meets on its way, as long as the configured terminal velocity
    is not negative (a correction on the Y axis sets the velocity to 0). *)
Theorem terminal_velocity_clamp (this : Physics) (deltaTime : Q) (c : Body) :
  affectedByGravity c = true ->
  onGround c = false ->
  (velocityY c + gravity this * deltaTime <= terminalVelocity this ->
     velocityY (integrate this deltaTime c)
       = velocityY c + gravity this * deltaTime) /\
  (terminalVelocity this < velocityY c + gravity this * deltaTime ->
     velocityY (integrate this deltaTime c) = terminalVelocity this) /\
  velocityY (integrate this deltaTime c) <= terminalVelocity this /\
  (forall n, (0 < n)%nat ->
     velocityY (freefall n this deltaTime c) <= terminalVelocity this) /\
  (forall m h n,
     0 <= terminalVelocity this -> h ∈ dynamicColliders this ->
     store m !! h = Some c -> active c = true -> (0 < n)%nat ->
     exists c', store (ticks n this deltaTime m) !! h = Some c' /\
                velocityY c' <= terminalVelocity this).
Proof.
  intros Hg Ho.
  destruct (applyGravity_airborne this (set_prev (x c) (y c) c) deltaTime Ho)
    as [H1 H2]. simpl in H1, H2.
  split; [|split; [|split; [|split]]].
  - intros H. rewrite integrate_velocityY, Hg. by apply H1.
  - intros H. rewrite integrate_velocityY, Hg. by apply H2.
  - by apply integrate_clamped.
  - intros n Hn. destruct n as [|n]; [lia|]. clear Hn H1 H2.
    revert c Hg Ho. induction n as [|n IH]; intros c Hg Ho.
    + simpl. by apply integrate_clamped.
    + change (freefall (S (S n)) this deltaTime c)
        with (freefall (S n) this deltaTime (integrate this deltaTime c)).
      destruct (integrate_flags this deltaTime c) as [Ho' Hg'].
      apply IH; congruence.
  - intros m h n Hv Hh Hc Ha Hn. destruct n as [|n]; [lia|].
    by eapply ticks_velocityY_bounded.
Qed.

(** A body that falls at 25 units per second, beyond the terminal velocity
    of 10. *)
Lemma terminal_velocity_clamp_witness :
  velocityY (integrate fallScene.1 (1 # 10) falling) = terminalVelocity fallScene.1 /\
  velocityY (freefall 3 fallScene.1 (1 # 10) falling) <= terminalVelocity fallScene.1 /\
  exists c', store (ticks 3 fallScene.1 (1 # 10) fallMem) !! 1%nat = Some c' /\
             velocityY c' <= terminalVelocity fallScene.1.
Proof.
  destruct (terminal_velocity_clamp fallScene.1 (1 # 10) falling)
    as (_ & H2 & _ & H4 & H5); [reflexivity | reflexivity |].
  split; [|split].
  - apply H2. reflexivity.
  - apply H4. lia.
  - apply H5.
    + discriminate.
    + simpl. left.
    + reflexivity.
    + reflexivity.
    + lia.
Defined.

(** * Further properties of the physics engine *)

(** ** Detection and resolution *)

Lemma Math_min_comm a b : Math_min a b == Math_min b a.
Proof.
  destruct (Math_min_spec a b) as [[? ->]|[? ->]];
    destruct (Math_min_spec b a) as [[? ->]|[? ->]]; lra.
Qed.

(** X2.  The overlap test and the two penetration depths do not depend on
    the order of the two bodies; only the choice of the body that is moved
    does. *)
Theorem checkCollision_symmetric (a b : Body) :
  checkCollision a b = checkCollision b a /\
  overlapX a b == overlapX b a /\ overlapY a b == overlapY b a.
Proof.
  split; [|split].
  - destruct (checkCollision b a) eqn:E.
    + apply checkCollision_true in E. apply checkCollision_true. tauto.
    + apply checkCollision_false in E. apply checkCollision_false. tauto.
  - apply Math_min_comm.
  - apply Math_min_comm.
Qed.

(** X3.  For a pair that overlaps, both penetration depths are positive. *)
Theorem overlapping_pair_has_positive_depths (a b : Body) :
  checkCollision a b = true -> 0 < overlapX a b /\ 0 < overlapY a b.
Proof. apply overlap_positive. Qed.

(** The two 32x32 bodies that overlap by 4 and by 20. *)
Lemma overlapping_pair_has_positive_depths_witness :
  0 < overlapX mover32 block32 /\ 0 < overlapY mover32 block32.
Proof.
  apply (overlapping_pair_has_positive_depths mover32 block32). reflexivity.
Defined.

Lemma Qmult_le_nonneg_l z x y : 0 <= z -> x <= y -> z * x <= z * y.
Proof.
  intros Hz Hxy. pose proof (Qmult_le_compat_r x y z Hxy Hz).
  assert (z * x == x * z) by ring. assert (z * y == y * z) by ring. lra.
Qed.

Lemma Qabs_half v : Qabs (- v * (5 # 10)) <= Qabs v.
Proof.
  apply Qabs_case; intros H1; apply Qabs_case; intros H2; lra.
Qed.

(** X4.  A correction never speeds the collider up: on the X path the
    horizontal velocity is reversed and halved and the vertical one kept, on
    the Y path the vertical velocity becomes 0 and the horizontal one is
    kept.  Friction does not speed a body up either when the coefficient
    lies between 0 and 1. *)
Theorem corrections_never_speed_up (this : Physics) (deltaTime : Q) (a b : Body) :
  Qabs (velocityX (resolveCollision a b)) <= Qabs (velocityX a) /\
  Qabs (velocityY (resolveCollision a b)) <= Qabs (velocityY a) /\
  (0 <= friction this -> friction this <= 1 ->
   Qabs (velocityX (applyFriction this a deltaTime)) <= Qabs (velocityX a)).
Proof.
  split; [|split].
  - unfold resolveCollision. case_ifs; simpl;
      try apply Qabs_half; apply Qle_refl.
  - unfold resolveCollision. case_ifs; simpl;
      try apply Qle_refl; apply Qabs_nonneg.
  - intros H0 H1. unfold applyFriction.
    case_ifs; cbn [velocityX set_velocityX].
    + pose proof (Qabs_Qmult (velocityX a) (friction this)) as E.
      pose proof (Qabs_pos (friction this) H0) as F.
      pose proof (Qabs_nonneg (velocityX a)) as N.
      rewrite F in E.
      pose proof (Qmult_le_nonneg_l (Qabs (velocityX a)) (friction this) 1 N H1).
      lra.
    + apply Qabs_nonneg.
Qed.
(** * Further properties of the ray caster *)

Lemma Qeq_bool_refl' a : Qeq_bool a a = true.
Proof. apply Qeq_bool_iff. reflexivity. Qed.

(** The side picked from the entry parameter of one slab: [tMin === t2]
    is tested last in the source, so it wins. *)
Lemma pick_side t1 t2 :
  let tMin := Finite (Math_min t1 t2) in
  (if ext_eqb tMin (Finite t2) then 1%Z
   else if ext_eqb tMin (Finite t1) then (-1)%Z else 0%Z) = 1%Z \/
  (if ext_eqb tMin (Finite t2) then 1%Z
   else if ext_eqb tMin (Finite t1) then (-1)%Z else 0%Z) = (-1)%Z.
Proof.
  simpl. unfold Math_min. destruct (Qle_bool t1 t2).
  - destruct (Qeq_bool t1 t2); [by left | right]. by rewrite Qeq_bool_refl'.
  - left. by rewrite Qeq_bool_refl'.
Qed.

Ltac final_test :=
  match goal with
  | |- (if ?b then _ else None) = Some _ -> _ => destruct b; [|discriminate]
  end.

(** X5.  The normal of a hit is one of the four unit vectors along the axes:
    never the zero vector and never a diagonal. *)
Theorem raycastCollider_normal_is_axis_unit
    startX startY dirX dirY maxDistance h c hit :
  raycastCollider startX startY dirX dirY maxDistance h c = Some hit ->
  normal hit = ((-1)%Z, 0%Z) \/ normal hit = (1%Z, 0%Z) \/
  normal hit = (0%Z, (-1)%Z) \/ normal hit = (0%Z, 1%Z).
Proof.
  unfold raycastCollider, slab.
  set (t1x := (x c - startX) / dirX). set (t2x := (x c + width c - startX) / dirX).
  set (t1y := (y c - startY) / dirY). set (t2y := (y c + height c - startY) / dirY).
  pose proof (pick_side t1x t2x) as PX. pose proof (pick_side t1y t2y) as PY.
  cbn [ext_eqb] in PX, PY.
  set (mx := Math_min t1x t2x) in *. set (Mx := Math_max t1x t2x).
  set (my := Math_min t1y t2y) in *. set (My := Math_max t1y t2y).
  destruct (negb (Qeq_bool dirX 0)); destruct (negb (Qeq_bool dirY 0));
  unfold ext_max, ext_min; cbn [ext_leb ext_eqb].
  - destruct (Qle_bool mx my) eqn:E.
    + cbn [ext_eqb]. destruct (Qeq_bool my mx) eqn:E2; cbn [negb].
      * final_test. intros [= <-]. cbn [normal].
        destruct PX as [-> | ->]; auto.
      * final_test. intros [= <-]. cbn [normal].
        destruct PY as [-> | ->]; auto.
    + cbn [ext_eqb]. rewrite Qeq_bool_refl'. cbn [negb].
      final_test. intros [= <-]. cbn [normal].
      destruct PX as [-> | ->]; auto.
  - final_test. intros [= <-]. cbn [normal].
    destruct PX as [-> | ->]; auto.
  - cbn [ext_eqb negb].
    final_test. intros [= <-]. cbn [normal].
    destruct PY as [-> | ->]; auto.
  - cbn. done.
Qed.

(** The thin wall at x = 50, met by the horizontal ray from (0, 16). *)
Lemma raycastCollider_normal_is_axis_unit_witness :
  exists hit,
    raycastCollider 0 16 1 0 100 1%nat thinWall = Some hit /\
    (normal hit = ((-1)%Z, 0%Z) \/ normal hit = (1%Z, 0%Z) \/
     normal hit = (0%Z, (-1)%Z) \/ normal hit = (0%Z, 1%Z)).
Proof.
  eexists. split; [vm_compute; reflexivity|].
  apply (raycastCollider_normal_is_axis_unit 0 16 1 0 100 1%nat thinWall).
  vm_compute. reflexivity.
Defined.

Lemma slab_bounds startX startY dirX dirY maxDistance h c hit :
  raycastCollider startX startY dirX dirY maxDistance h c = Some hit ->
  (~ dirX == 0 ->
   Math_min ((x c - startX) / dirX) ((x c + width c - startX) / dirX)
     <= distance hit /\
   distance hit
     <= Math_max ((x c - startX) / dirX) ((x c + width c - startX) / dirX)) /\
  (~ dirY == 0 ->
   Math_min ((y c - startY) / dirY) ((y c + height c - startY) / dirY)
     <= distance hit /\
   distance hit
     <= Math_max ((y c - startY) / dirY) ((y c + height c - startY) / dirY)).
Proof.
  unfold raycastCollider, slab.
  set (t1x := (x c - startX) / dirX). set (t2x := (x c + width c - startX) / dirX).
  set (t1y := (y c - startY) / dirY). set (t2y := (y c + height c - startY) / dirY).
  set (mx := Math_min t1x t2x) in *. set (Mx := Math_max t1x t2x).
  set (my := Math_min t1y t2y) in *. set (My := Math_max t1y t2y).
  destruct (negb (Qeq_bool dirX 0)) eqn:EX; destruct (negb (Qeq_bool dirY 0)) eqn:EY;
  unfold ext_max, ext_min; cbn [ext_leb ext_eqb].
  - destruct (Qle_bool mx my) eqn:E; destruct (Qle_bool Mx My) eqn:E'; cbn [ext_eqb];
      match goal with |- context [negb ?b] => destruct (negb b) end;
      cbn [ext_leb];
      match goal with
      | |- (if ?b then _ else None) = Some _ -> _ => destruct b eqn:F; [|discriminate]
      end;
      intros [= <-]; cbn [distance];
      apply andb_true_iff in F as [F F3]; apply andb_true_iff in F as [F1 F2];
      q_reflect; split; intros _; lra.
  - cbn [ext_leb].
    match goal with
    | |- (if ?b then _ else None) = Some _ -> _ => destruct b eqn:F; [|discriminate]
    end.
    intros [= <-]; cbn [distance].
    apply andb_true_iff in F as [F F3]; apply andb_true_iff in F as [F1 F2].
    q_reflect. split; [intros _; lra|].
    intros H. apply negb_false_iff, Qeq_bool_iff in EY. contradiction.
  - cbn [negb ext_leb].
    match goal with
    | |- (if ?b then _ else None) = Some _ -> _ => destruct b eqn:F; [|discriminate]
    end.
    intros [= <-]; cbn [distance].
    apply andb_true_iff in F as [F F3]; apply andb_true_iff in F as [F1 F2].
    q_reflect. split; [|intros _; lra].
    intros H. apply negb_false_iff, Qeq_bool_iff in EX. contradiction.
  - cbn. done.
Qed.

Lemma negb_Qeq_bool_true d : negb (Qeq_bool d 0) = true -> ~ d == 0.
Proof.
  intros H E. apply Qeq_bool_iff in E. rewrite E in H. discriminate.
Qed.

(** The distance of a hit is the entry parameter of one of the slabs. *)
Lemma slab_entry startX startY dirX dirY maxDistance h c hit :
  raycastCollider startX startY dirX dirY maxDistance h c = Some hit ->
  (~ dirX == 0 /\
   distance hit
   = Math_min ((x c - startX) / dirX) ((x c + width c - startX) / dirX)) \/
  (~ dirY == 0 /\
   distance hit
   = Math_min ((y c - startY) / dirY) ((y c + height c - startY) / dirY)).
Proof.
  unfold raycastCollider, slab.
  set (t1x := (x c - startX) / dirX). set (t2x := (x c + width c - startX) / dirX).
  set (t1y := (y c - startY) / dirY). set (t2y := (y c + height c - startY) / dirY).
  set (mx := Math_min t1x t2x) in *. set (Mx := Math_max t1x t2x).
  set (my := Math_min t1y t2y) in *. set (My := Math_max t1y t2y).
  destruct (negb (Qeq_bool dirX 0)) eqn:EX; destruct (negb (Qeq_bool dirY 0)) eqn:EY;
  unfold ext_max, ext_min; cbn [ext_leb ext_eqb].
  - apply negb_Qeq_bool_true in EX. apply negb_Qeq_bool_true in EY.
    destruct (Qle_bool mx my) eqn:E; destruct (Qle_bool Mx My) eqn:E'; cbn [ext_eqb];
      match goal with |- context [negb ?b] => destruct (negb b) end;
      cbn [ext_leb]; final_test; intros [= <-]; cbn [distance]; auto.
  - apply negb_Qeq_bool_true in EX. cbn [ext_leb].
    final_test. intros [= <-]. cbn [distance]. auto.
  - apply negb_Qeq_bool_true in EY. cbn [negb ext_leb].
    final_test. intros [= <-]. cbn [distance]. auto.
  - cbn. done.
Qed.

Lemma between_slab lo hi s d t :
  ~ d == 0 -> lo <= hi ->
  Math_min ((lo - s) / d) ((hi - s) / d) <= t ->
  t <= Math_max ((lo - s) / d) ((hi - s) / d) ->
  lo <= s + d * t /\ s + d * t <= hi.
Proof.
  intros Hd Hlh Hmin Hmax.
  assert (E1 : d * ((lo - s) / d) == lo - s) by (field; done).
  assert (E2 : d * ((hi - s) / d) == hi - s) by (field; done).
  set (t1 := (lo - s) / d) in *. set (t2 := (hi - s) / d) in *.
  assert (Hlo : t1 <= t \/ t2 <= t).
  { destruct (Math_min_spec t1 t2) as [[? E]|[? E]]; rewrite E in Hmin; auto. }
  assert (Hhi : t <= t1 \/ t <= t2).
  { destruct (Math_max_spec t1 t2) as [[? E]|[? E]]; rewrite E in Hmax; auto. }
  destruct (Qlt_le_dec 0 d) as [Hpos|Hneg].
  - assert (Hord : t1 <= t2).
    { apply (Qmult_le_l _ _ d Hpos). lra. }
    assert (t1 <= t) by (destruct Hlo; lra).
    assert (t <= t2) by (destruct Hhi; lra).
    pose proof (Qmult_le_nonneg_l d t1 t (Qlt_le_weak _ _ Hpos) H).
    pose proof (Qmult_le_nonneg_l d t t2 (Qlt_le_weak _ _ Hpos) H0).
    lra.
  - assert (Hlt : 0 < - d) by (destruct (Qeq_dec d 0); [contradiction | lra]).
    assert (Hord : t2 <= t1).
    { apply (Qmult_le_l _ _ (- d) Hlt).
      assert (- d * t2 == - (d * t2)) by ring.
      assert (- d * t1 == - (d * t1)) by ring. lra. }
    assert (t2 <= t) by (destruct Hlo; lra).
    assert (t <= t1) by (destruct Hhi; lra).
    pose proof (Qmult_le_nonneg_l (- d) t2 t (Qlt_le_weak _ _ Hlt) H).
    pose proof (Qmult_le_nonneg_l (- d) t t1 (Qlt_le_weak _ _ Hlt) H0).
    assert (- d * t2 == - (d * t2)) by ring.
    assert (- d * t1 == - (d * t1)) by ring.
    assert (- d * t == - (d * t)) by ring.
    lra.
Qed.

Lemma min_div_neg a b d :
  a < 0 -> 0 < b -> ~ d == 0 -> Math_min (a / d) (b / d) < 0.
Proof.
  intros Ha Hb Hd.
  destruct (Qlt_le_dec 0 d) as [Hpos|Hneg].
  - assert (a / d < 0) by (apply Qlt_shift_div_r; [done | lra]).
    destruct (Math_min_spec (a / d) (b / d)) as [[? ->]|[? ->]]; lra.
  - assert (Hlt : 0 < - d) by (destruct (Qeq_dec d 0); [contradiction | lra]).
    assert (E : b / d == (- b) / (- d)) by (field; lra).
    assert ((- b) / (- d) < 0) by (apply Qlt_shift_div_r; [done | lra]).
    destruct (Math_min_spec (a / d) (b / d)) as [[? ->]|[? ->]]; lra.
Qed.

Lemma raycastCollider_from_inside startX startY dirX dirY maxDistance h c :
  x c < startX -> startX < x c + width c ->
  y c < startY -> startY < y c + height c ->
  raycastCollider startX startY dirX dirY maxDistance h c = None.
Proof.
  intros Hx1 Hx2 Hy1 Hy2. unfold raycastCollider, slab.
  set (t1x := (x c - startX) / dirX). set (t2x := (x c + width c - startX) / dirX).
  set (t1y := (y c - startY) / dirY). set (t2y := (y c + height c - startY) / dirY).
  assert (PX : negb (Qeq_bool dirX 0) = true -> Qle_bool 0 (Math_min t1x t2x) = false).
  { intros H. apply Qle_bool_gt. apply min_div_neg; [lra | lra |].
    by apply negb_Qeq_bool_true. }
  assert (PY : negb (Qeq_bool dirY 0) = true -> Qle_bool 0 (Math_min t1y t2y) = false).
  { intros H. apply Qle_bool_gt. apply min_div_neg; [lra | lra |].
    by apply negb_Qeq_bool_true. }
  set (mx := Math_min t1x t2x) in *. set (Mx := Math_max t1x t2x).
  set (my := Math_min t1y t2y) in *. set (My := Math_max t1y t2y).
  destruct (negb (Qeq_bool dirX 0)); destruct (negb (Qeq_bool dirY 0));
  unfold ext_max, ext_min; cbn [ext_leb ext_eqb].
  - destruct (Qle_bool mx my) eqn:E.
    + cbn [ext_eqb]. destruct (negb (Qeq_bool my mx)); cbn [ext_leb];
        rewrite (PY eq_refl), andb_false_r; done.
    + cbn [ext_eqb]. destruct (negb (Qeq_bool mx mx)); cbn [ext_leb];
        rewrite (PX eq_refl), andb_false_r; done.
  - cbn [ext_leb]. rewrite (PX eq_refl), andb_false_r. done.
  - cbn [negb ext_leb]. rewrite (PY eq_refl), andb_false_r. done.
  - cbn. done.
Qed.

(** X7.  A ray that starts strictly inside a body does not hit that body,
    whatever its direction and length: the entry parameter is negative. *)
Theorem ray_from_inside_misses startX startY dirX dirY maxDistance h c :
  x c < startX -> startX < x c + width c ->
  y c < startY -> startY < y c + height c ->
  raycastCollider startX startY dirX dirY maxDistance h c = None.
Proof. apply raycastCollider_from_inside. Qed.

(** From the centre of the 10x10 box, to the right. *)
Lemma ray_from_inside_misses_witness :
  raycastCollider 5 5 1 0 100 1%nat box10 = None.
Proof.
  apply (ray_from_inside_misses 5 5 1 0 100 1%nat box10); reflexivity.
Defined.

(** X8.  [raycast] returns a hit of smallest distance among the active bodies
    whose layer meets the mask, and null exactly when none of them is hit
    (segments of non-zero length). *)
Theorem raycast_returns_nearest_hit
    Math_sqrt this st startX startY endX endY collisionMask :
  let mask := default 65535%Z collisionMask in
  let dirX := endX - startX in
  let dirY := endY - startY in
  let dist := Math_sqrt (dirX * dirX + dirY * dirY) in
  ~ dist == 0 ->
  match raycast Math_sqrt this st startX startY endX endY collisionMask with
  | Some hit =>
      (exists h c, h ∈ colliders this /\ candidate st mask h c /\
         raycastCollider startX startY (dirX / dist) (dirY / dist) dist h c
           = Some hit) /\
      forall h c hit', h ∈ colliders this -> candidate st mask h c ->
        raycastCollider startX startY (dirX / dist) (dirY / dist) dist h c
          = Some hit' ->
        distance hit <= distance hit'
  | None =>
      forall h c, h ∈ colliders this -> candidate st mask h c ->
        raycastCollider startX startY (dirX / dist) (dirY / dist) dist h c = None
  end.
Proof. apply raycast_closest. Qed.

(** The ray from (0, 0) to (100, 0) over the two boxes. *)
Lemma raycast_returns_nearest_hit_witness :
  let dist := sqrtFloor ((100 - 0) * (100 - 0) + (0 - 0) * (0 - 0)) in
  match raycast sqrtFloor twoBoxes.1 twoBoxes.2 0 0 100 0 None with
  | Some hit =>
      (exists h c, h ∈ colliders twoBoxes.1 /\
         candidate twoBoxes.2 65535%Z h c /\
         raycastCollider 0 0 ((100 - 0) / dist) ((0 - 0) / dist) dist h c
           = Some hit) /\
      forall h c hit', h ∈ colliders twoBoxes.1 ->
        candidate twoBoxes.2 65535%Z h c ->
        raycastCollider 0 0 ((100 - 0) / dist) ((0 - 0) / dist) dist h c
          = Some hit' ->
        distance hit <= distance hit'
  | None =>
      forall h c, h ∈ colliders twoBoxes.1 ->
        candidate twoBoxes.2 65535%Z h c ->
        raycastCollider 0 0 ((100 - 0) / dist) ((0 - 0) / dist) dist h c = None
  end.
Proof.
  apply (raycast_returns_nearest_hit sqrtFloor twoBoxes.1 twoBoxes.2 0 0 100 0 None).
  intros H. vm_compute in H. discriminate.
Defined.
(** * Further properties of the registry and of the tick *)

(** X9.  The registry invariant: the constructor establishes it, and
    registering an object that is not registered yet, removing any object
    and running a tick keep it; it makes the partitions disjoint. *)
Theorem registry_stays_well_formed :
  (forall config, wellFormed (newPhysics config, ∅)) /\
  (forall h o w,
     wellFormed w -> h ∉ colliders w.1 -> wellFormed (addCollider h o w)) /\
  (forall h w, wellFormed w -> wellFormed (removeCollider h w)) /\
  (forall this deltaTime m,
     wellFormed (this, store m) ->
     wellFormed (this, store (update this deltaTime m))) /\
  (forall w, wellFormed w -> partitioned w.1).
Proof.
  split; [apply wellFormed_new|].
  split; [apply wellFormed_addCollider|].
  split; [apply wellFormed_removeCollider|].
  split; [apply wellFormed_update | apply wellFormed_partitioned].
Qed.

Lemma physics_eta this :
  mkPhysics (gravity this) (friction this) (terminalVelocity this)
    (colliders this) (staticColliders this) (dynamicColliders this) = this.
Proof. by destruct this. Qed.

(** X10.  In a well-formed registry removing a body a second time changes
    nothing, and removing a body that is not registered changes nothing. *)
Theorem removeCollider_idempotent (h : handle) (w : Physics * gmap handle Body) :
  wellFormed w ->
  removeCollider h (removeCollider h w) = removeCollider h w /\
  (h ∉ colliders w.1 -> removeCollider h w = w).
Proof.
  destruct w as [this st]. intros (N & NS & ND & HS & HD). simpl in *. split.
  - unfold removeCollider. simpl.
    destruct (st !! h) as [c|] eqn:Hc; simpl; rewrite Hc; [|done].
    rewrite (removeFirst_absent h (removeFirst h (colliders this)))
      by (by apply removeFirst_NoDup).
    destruct (isStatic c).
    + rewrite (removeFirst_absent h (removeFirst h (staticColliders this)))
        by (by apply removeFirst_NoDup). done.
    + rewrite (removeFirst_absent h (removeFirst h (dynamicColliders this)))
        by (by apply removeFirst_NoDup). done.
  - intros Hh. unfold removeCollider. simpl.
    destruct (st !! h) as [c|] eqn:Hc; [|done].
    assert (HhS : h ∉ staticColliders this) by (intros H; by apply Hh, HS).
    assert (HhD : h ∉ dynamicColliders this) by (intros H; by apply Hh, HD).
    rewrite !removeFirst_absent by done.
    destruct (isStatic c); by rewrite physics_eta.
Qed.

(** The body of [restScene] removed twice; the object 7 was never
    registered. *)
Lemma removeCollider_idempotent_witness :
  removeCollider 2%nat (removeCollider 2%nat restScene)
    = removeCollider 2%nat restScene /\
  removeCollider 7%nat restScene = restScene.
Proof.
  destruct (removeCollider_idempotent 2%nat restScene restScene_wellFormed)
    as [H _].
  split; [exact H | reflexivity].
Defined.

(** X11.  The defaults are taken with [||]: a body is never registered with
    a layer or a mask of 0 (a mask of 0 becomes 0xFFFF), and the engine
    never runs with a gravity, a friction or a terminal velocity of 0. *)
Theorem falsy_settings_are_replaced (o : ColliderInit) (config : Config) :
  collisionLayer (withDefaults o) <> 0%Z /\
  collisionMask (withDefaults o) <> 0%Z /\
  (init_collisionMask o = Some 0%Z -> collisionMask (withDefaults o) = 65535%Z) /\
  (init_collisionLayer o = Some 0%Z -> collisionLayer (withDefaults o) = 1%Z) /\
  ~ gravity (newPhysics config) == 0 /\
  ~ friction (newPhysics config) == 0 /\
  ~ terminalVelocity (newPhysics config) == 0.
Proof.
  assert (HZ : forall v d, d <> 0%Z -> orDefaultZ v d <> 0%Z).
  { intros [v|] d Hd; simpl; [|done].
    destruct (Z.eqb v 0) eqn:E; [done | by apply Z.eqb_neq]. }
  assert (HQ : forall v d, ~ d == 0 -> ~ orDefaultQ v d == 0).
  { intros [v|] d Hd; simpl; [|done].
    destruct (Qeq_bool v 0) eqn:E; [done|].
    intros H. apply Qeq_bool_iff in H. congruence. }
  simpl. repeat apply conj.
  - by apply HZ.
  - by apply HZ.
  - by intros ->.
  - by intros ->.
  - by apply HQ.
  - by apply HQ.
  - by apply HQ.
Qed.

(** An object that is absent stays absent through a pass. *)
Lemma updateOver_absent this dt l : forall m k,
  store m !! k = None -> store (updateOver this dt l m) !! k = None.
Proof.
  induction l as [|h l IH]; intros m k Hk; simpl; [done|].
  apply IH. destruct (stepCollider_touches this dt h m) as (A & _ & C).
  destruct (decide (k = h)) as [->|Hne]; [by apply C | by rewrite A].
Qed.

(** X12.  A tick creates no body and deletes none, and it leaves to every
    body its size, its flags [affectedByGravity], [isStatic] and [active],
    its layer, its mask and its callback. *)
Theorem update_keeps_bodies_and_shapes
    (this : Physics) (deltaTime : Q) (m : Mem) (k : handle) :
  match store m !! k with
  | Some c =>
      exists c', store (update this deltaTime m) !! k = Some c' /\
                 sameShape c c'
  | None => store (update this deltaTime m) !! k = None
  end.
Proof.
  destruct (store m !! k) as [c|] eqn:Hk.
  - by apply updateOver_shape.
  - by apply updateOver_absent.
Qed.

Section StepInvariant.

(** A property of the stepped body that corrections and the classifier
    keep. *)
Variable P : Body -> Prop.
Hypothesis P_resolveCollision : forall a b, P a -> P (resolveCollision a b).
Hypothesis P_set_onGround : forall v c, P c -> P (set_onGround v c).

Lemma collide_keeps h o m c :
  store m !! h = Some c -> P c ->
  exists c', store (collide h o m) !! h = Some c' /\ P c'.
Proof.
  intros Hc Hp. unfold collide. rewrite Hc.
  destruct (store m !! o) as [b|]; [|by exists c].
  destruct (negb (active b)); [by exists c|].
  destruct (negb (maskMatches c b)); [by exists c|].
  destruct (checkCollision c b); [|by exists c].
  rewrite !notify_store. simpl. rewrite lookup_insert_eq.
  exists (resolveCollision c b). split; [done | by apply P_resolveCollision].
Qed.

Lemma scanWith_keeps f h l : scanStep f ->
  forall m c, store m !! h = Some c -> P c ->
  exists c', store (scanWith f h l m) !! h = Some c' /\ P c'.
Proof.
  intros Hf. induction l as [|o l IH]; intros m c Hc Hp; [by exists c|].
  change (scanWith f h (o :: l) m) with (scanWith f h l (f h o m)).
  destruct (Hf h o m) as [->| ->]; [by eapply IH|].
  destruct (collide_keeps h o m c Hc Hp) as (c1 & Hc1 & Hp1).
  by eapply IH.
Qed.

Lemma classify_keeps this h m c :
  store m !! h = Some c -> P c ->
  exists c', store (classify this h m) !! h = Some c' /\ P c'.
Proof.
  intros Hc Hp. unfold classify. rewrite Hc. simpl. rewrite lookup_insert_eq.
  destruct (existsb _ _); simpl; rewrite ?lookup_insert_eq; eexists;
    (split; [reflexivity|]); auto.
Qed.

Lemma stepCollider_keeps this dt h m c :
  store m !! h = Some c -> active c = true -> P (integrate this dt c) ->
  exists c', store (stepCollider this dt h m) !! h = Some c' /\ P c'.
Proof.
  intros Hc Ha Hp.
  rewrite (stepCollider_scans this dt h m c Hc Ha).
  set (m1 := write h (integrate this dt c) m).
  assert (H1 : store m1 !! h = Some (integrate this dt c))
    by (simpl; by rewrite lookup_insert_eq).
  destruct (scanWith_keeps collide h (staticColliders this) scanStep_collide
              m1 _ H1 Hp) as (c2 & H2 & Hp2).
  destruct (scanWith_keeps collideOther h (dynamicColliders this)
              scanStep_collideOther _ _ H2 Hp2) as (c3 & H3 & Hp3).
  by eapply classify_keeps.
Qed.

End StepInvariant.

Lemma updateOver_app this dt l1 l2 m :
  updateOver this dt (l1 ++ l2) m
  = updateOver this dt l2 (updateOver this dt l1 m).
Proof. unfold updateOver. by rewrite fold_left_app. Qed.

(** X13.  After a tick, [prevX] and [prevY] of an active dynamic body hold
    the position the body had when the tick began (dynamic partition
    without repetition). *)
Theorem update_records_previous_position
    (this : Physics) (deltaTime : Q) (m : Mem) (h : handle) (c : Body) :
  NoDup (dynamicColliders this) ->
  h ∈ dynamicColliders this ->
  store m !! h = Some c -> active c = true ->
  exists c', store (update this deltaTime m) !! h = Some c' /\
             prevX c' = Some (x c) /\ prevY c' = Some (y c).
Proof.
  intros Hn Hh Hc Ha. unfold update.
  apply list_elem_of_split in Hh as (l1 & l2 & E). rewrite E in *.
  apply NoDup_app in Hn as (_ & H1 & H2).
  apply NoDup_cons in H2 as [H2 _].
  assert (Hl1 : h ∉ l1).
  { intros H. apply (H1 h H). left. }
  rewrite updateOver_app. simpl.
  set (m1 := updateOver this deltaTime l1 m).
  assert (Hc1 : store m1 !! h = Some c).
  { unfold m1. by rewrite updateOver_other. }
  destruct (stepCollider_keeps
              (fun b => prevX b = Some (x c) /\ prevY b = Some (y c))
              ltac:(intros a b; unfold resolveCollision; case_ifs; done)
              ltac:(intros v b; done)
              this deltaTime h m1 c Hc1 Ha) as (c' & Hc' & Hp).
  { unfold integrate, applyGravity, applyFriction. case_ifs; done. }
  exists c'. split; [|done].
  change (fold_left _ l2 ?a) with (updateOver this deltaTime l2 a).
  by rewrite updateOver_other.
Qed.

(** The body of [restScene], registered at (10, 68). *)
Lemma update_records_previous_position_witness :
  exists c', store (update restScene.1 (1 # 10) restMem) !! 2%nat = Some c' /\
             prevX c' = Some (x (withDefaults (rect 10 68 32 32 false))) /\
             prevY c' = Some (y (withDefaults (rect 10 68 32 32 false))).
Proof.
  apply (update_records_previous_position restScene.1 (1 # 10) restMem 2%nat).
  - apply NoDup_singleton.
  - simpl. left.
  - reflexivity.
  - reflexivity.
Defined.

(** X14.  A tick of length 0 does not displace a body, yet a grounded body
    still loses speed: friction is applied per tick, not per second. *)
Theorem zero_length_tick_still_applies_friction (this : Physics) (c : Body) :
  x (integrate this 0 c) == x c /\ y (integrate this 0 c) == y c /\
  (onGround c = true -> 1 # 100 < Qabs (velocityX c) ->
   velocityX (integrate this 0 c) == velocityX c * friction this).
Proof.
  split; [|split].
  - unfold integrate, applyGravity, applyFriction. case_ifs; simpl; ring.
  - unfold integrate, applyGravity, applyFriction. case_ifs; simpl; ring.
  - intros Hg Hv.
    assert (Hb : Qgtb (Math_abs (velocityX c)) (1 # 100) = true).
    { unfold Qgtb, Qltb, Math_abs. apply negb_true_iff. by apply Qle_bool_gt. }
    unfold integrate, applyGravity, applyFriction.
    destruct c; cbn -[Qgtb Math_abs Qgeb Qmult Qplus] in *. subst.
    case_ifs; cbn -[Qgtb Math_abs Qgeb Qmult Qplus] in *;
      try reflexivity; try congruence.
Qed.
(** * Properties of the entities *)

Lemma clampVelocity_bounded v limit :
  0 <= limit -> Qabs (Entity.clampVelocity v limit) <= limit.
Proof.
  intros Hl. unfold Entity.clampVelocity.
  case_ifs; q_reflect; apply Qabs_case; lra.
Qed.

Ltac entity_fields :=
  cbn [Entity.x Entity.y Entity.width Entity.height Entity.velocityX
       Entity.velocityY Entity.accelerationX Entity.accelerationY
       Entity.friction Entity.gravity Entity.solid Entity.mass
       Entity.bounciness Entity.collider Entity.collisionLayer
       Entity.collisionMask Entity.animation Entity.currentFrame
       Entity.frameTime Entity.frameDuration Entity.zIndex Entity.visible
       Entity.type Entity.active Entity.set_collider Entity.set_position
       Entity.set_velocity Entity.set_acceleration Entity.set_active
       Entity.box_x Entity.box_y Entity.box_width Entity.box_height
       Entity.offsetX Entity.offsetY] in *.

Lemma entity_update_fields physics dt e :
  let tv := terminalVelocity physics in
  let vx := Entity.clampVelocity
              ((Entity.velocityX e + Entity.accelerationX e * dt)
               * Entity.friction e) tv in
  let vy := Entity.clampVelocity
              (if Entity.gravity e
               then Entity.velocityY e + Entity.accelerationY e * dt
                    + gravity physics * Entity.mass e * dt
               else Entity.velocityY e + Entity.accelerationY e * dt) tv in
  let e' := Entity.update physics dt e in
  Entity.velocityX e' = vx /\ Entity.velocityY e' = vy /\
  Entity.x e' = Entity.x e + vx * dt /\ Entity.y e' = Entity.y e + vy * dt /\
  Entity.width e' = Entity.width e /\ Entity.height e' = Entity.height e /\
  Entity.animation e' = Entity.animation e /\
  Entity.type e' = Entity.type e /\ Entity.active e' = Entity.active e /\
  Entity.collider e' =
    Entity.mkBox (Entity.x e' + Entity.offsetX (Entity.collider e))
                 (Entity.y e' + Entity.offsetY (Entity.collider e))
                 (Entity.width e - 2 * Entity.offsetX (Entity.collider e))
                 (Entity.height e - 2 * Entity.offsetY (Entity.collider e))
                 (Entity.offsetX (Entity.collider e))
                 (Entity.offsetY (Entity.collider e)).
Proof.
  intros tv vx vy e'. subst e'.
  unfold Entity.update, Entity.animate, Entity.updateCollider,
    Entity.physics_gravity, Entity.physics_terminalVelocity.
  cbn [Entity.animation Entity.set_collider Entity.set_position
       Entity.set_velocity].
  destruct (Entity.animation e) eqn:EA; [destruct (Qgeb _ _)|];
    unfold Entity.set_frame; entity_fields; repeat split; done.
Qed.

(** X15.  [Entity.update] clamps both velocity components on both sides:
    with a terminal velocity that is not negative, neither component
    exceeds it in absolute value after an update, and the position is
    advanced with the clamped velocity, not with the one before the
    clamp. *)
Theorem entity_update_bounds_velocity
    (physics : Physics) (deltaTime : Q) (e : Entity.t) :
  0 <= terminalVelocity physics ->
  let e' := Entity.update physics deltaTime e in
  Qabs (Entity.velocityX e') <= terminalVelocity physics /\
  Qabs (Entity.velocityY e') <= terminalVelocity physics /\
  Entity.x e' = Entity.x e + Entity.velocityX e' * deltaTime /\
  Entity.y e' = Entity.y e + Entity.velocityY e' * deltaTime.
Proof.
  intros Hv e'.
  destruct (entity_update_fields physics deltaTime e)
    as (Evx & Evy & Ex & Ey & _).
  fold e' in Evx, Evy, Ex, Ey. rewrite Ex, Ey, Evx, Evy.
  split; [by apply clampVelocity_bounded|].
  split; [by apply clampVelocity_bounded|]. done.
Qed.

(** The runner, thrown at 300 units/s, under the default terminal velocity
    of 10. *)
Lemma entity_update_bounds_velocity_witness :
  let e' := Entity.update defaultPhysics (1 # 60) runner in
  Qabs (Entity.velocityX e') <= terminalVelocity defaultPhysics /\
  Qabs (Entity.velocityY e') <= terminalVelocity defaultPhysics /\
  Entity.x e' = Entity.x runner + Entity.velocityX e' * (1 # 60) /\
  Entity.y e' = Entity.y runner + Entity.velocityY e' * (1 # 60).
Proof.
  apply (entity_update_bounds_velocity defaultPhysics (1 # 60) runner).
  vm_compute. discriminate.
Defined.

Lemma orDefaultQ_nonzero v d : ~ d == 0 -> ~ orDefaultQ v d == 0.
Proof.
  intros Hd. destruct v as [v|]; simpl; [|done].
  destruct (Qeq_bool v 0) eqn:E; [done|].
  intros H. apply Qeq_bool_iff in H. congruence.
Qed.

Lemma orDefaultZ_nonzero v d : d <> 0%Z -> orDefaultZ v d <> 0%Z.
Proof.
  intros Hd. destruct v as [v|]; simpl; [|done].
  destruct (Z.eqb v 0) eqn:E; [done | by apply Z.eqb_neq].
Qed.

(** X16.  The collider box follows the entity: [update] always leaves it
    where [updateCollider] puts it, with the offsets it had, and
    [onCollision] keeps it there; the constructor does not apply the
    offsets, so a new entity has its collider in place exactly when both
    offsets are 0. *)
Theorem entity_collider_follows_position :
  (forall physics deltaTime e,
     Entity.colliderInSync (Entity.update physics deltaTime e) /\
     Entity.offsetX (Entity.collider (Entity.update physics deltaTime e))
       = Entity.offsetX (Entity.collider e) /\
     Entity.offsetY (Entity.collider (Entity.update physics deltaTime e))
       = Entity.offsetY (Entity.collider e)) /\
  (forall other collision e,
     Entity.colliderInSync e ->
     Entity.colliderInSync (Entity.onCollision other collision e)) /\
  (forall config,
     Entity.colliderInSync (Entity.new config) <->
     Entity.offsetX (Entity.collider (Entity.new config)) == 0 /\
     Entity.offsetY (Entity.collider (Entity.new config)) == 0).
Proof.
  split; [|split].
  - intros physics deltaTime e.
    destruct (entity_update_fields physics deltaTime e)
      as (_ & _ & _ & _ & Ew & Eh & _ & _ & _ & Ec).
    unfold Entity.colliderInSync. rewrite Ec, Ew, Eh. entity_fields.
    repeat split; reflexivity.
  - intros other collision e Hs. unfold Entity.onCollision.
    destruct (Entity.solid e && Entity.solid other); [|done].
    unfold Entity.colliderInSync, Entity.updateCollider. entity_fields.
    repeat split; reflexivity.
  - intros config. unfold Entity.colliderInSync, Entity.new. entity_fields.
    split.
    + intros (H1 & H2 & _). split; lra.
    + intros (H1 & H2). repeat split; lra.
Qed.

(** X17.  The animation frame of an entity stays within its animation: a
    frame index below the number of frames stays below it through
    [update], which advances it by one step at most (and wraps around),
    however long the time step; with an animation of no frames the first
    advance makes the index NaN. *)
Theorem entity_frame_stays_in_range
    (physics : Physics) (deltaTime : Q) (e : Entity.t) (a : Entity.Animation) :
  Entity.animation e = Some a ->
  let e' := Entity.update physics deltaTime e in
  (forall k, Entity.currentFrame e = Some k ->
     (k < Entity.frames_length a)%nat ->
     exists k', Entity.currentFrame e' = Some k' /\
                (k' < Entity.frames_length a)%nat /\
                (k' = k \/ k' = ((k + 1) mod Entity.frames_length a)%nat)) /\
  (Entity.frames_length a = 0%nat ->
   Entity.frameDuration e <= Entity.frameTime e + deltaTime ->
   Entity.currentFrame e' = None).
Proof.
  intros Ha e'. subst e'.
  unfold Entity.update, Entity.animate, Entity.updateCollider.
  cbn [Entity.animation Entity.set_collider Entity.set_position
       Entity.set_velocity Entity.frameTime Entity.frameDuration
       Entity.currentFrame].
  rewrite Ha. split.
  - intros k Hk Hlt. rewrite Hk.
    destruct (Qgeb _ _); unfold Entity.set_frame; entity_fields.
    + unfold Entity.nextFrame.
      destruct (Entity.frames_length a) as [|n] eqn:En; [lia|].
      eexists. split; [reflexivity|]. split; [|by right].
      apply Nat.mod_upper_bound. lia.
    + exists k. split; [done|]. split; [done | by left].
  - intros Hn Hd.
    assert (Hb : Qgeb (Entity.frameTime e + deltaTime) (Entity.frameDuration e)
                 = true) by (by apply Qle_bool_iff).
    rewrite Hb. unfold Entity.set_frame. entity_fields.
    rewrite Hn. unfold Entity.nextFrame. by destruct (Entity.currentFrame e).
Qed.

(** The runner and its animation of four frames. *)
Lemma entity_frame_stays_in_range_witness :
  let e' := Entity.update defaultPhysics (1 # 5) runner in
  (forall k, Entity.currentFrame runner = Some k ->
     (k < 4)%nat ->
     exists k', Entity.currentFrame e' = Some k' /\
                (k' < 4)%nat /\
                (k' = k \/ k' = ((k + 1) mod 4)%nat)) /\
  (4%nat = 0%nat ->
   Entity.frameDuration runner <= Entity.frameTime runner + (1 # 5) ->
   Entity.currentFrame e' = None).
Proof.
  apply (entity_frame_stays_in_range defaultPhysics (1 # 5) runner
           (Entity.mkAnimation 4)).
  reflexivity.
Defined.

(** X18.  The constructor takes its defaults with [||]: an entity is never
    created with a width, a height, a friction, a mass, a frame duration, a
    layer or a mask of 0, nor with an empty type; it starts active, at rest
    and on frame 0. *)
Theorem entity_constructor_defaults (config : Entity.Config) :
  let e := Entity.new config in
  ~ Entity.width e == 0 /\ ~ Entity.height e == 0 /\
  ~ Entity.friction e == 0 /\ ~ Entity.mass e == 0 /\
  ~ Entity.frameDuration e == 0 /\
  Entity.collisionLayer e <> 0%Z /\ Entity.collisionMask e <> 0%Z /\
  Entity.type e <> ""%string /\
  Entity.active e = true /\
  Entity.velocityX e = 0 /\ Entity.velocityY e = 0 /\
  Entity.currentFrame e = Some 0%nat.
Proof.
  unfold Entity.new. entity_fields.
  repeat apply conj; try reflexivity;
    try (apply orDefaultQ_nonzero; done);
    try (apply orDefaultZ_nonzero; done).
  unfold Entity.orDefaultString. destruct (Entity.config_type config) as [s|].
  - destruct (String.eqb s "") eqn:E; [done|]. by apply String.eqb_neq.
  - done.
Qed.

(** X19.  The base collision response never speeds an entity up: with a
    bounciness of at most 1, neither velocity component grows in absolute
    value through [onCollision]. *)
Theorem entity_collision_never_speeds_up
    (other : Entity.t) (collision : Entity.Collision) (e : Entity.t) :
  Entity.bounciness e <= 1 ->
  Qabs (Entity.velocityX (Entity.onCollision other collision e))
    <= Qabs (Entity.velocityX e) /\
  Qabs (Entity.velocityY (Entity.onCollision other collision e))
    <= Qabs (Entity.velocityY e).
Proof.
  intros Hb. unfold Entity.onCollision, Entity.updateCollider.
  pose proof (Qabs_nonneg (Entity.velocityX e)) as Hx.
  pose proof (Qabs_nonneg (Entity.velocityY e)) as Hy.
  assert (H0 : Qabs 0 == 0) by reflexivity.
  assert (Hbounce : 0 < Entity.bounciness e ->
            Qabs (- Entity.velocityY e * Entity.bounciness e)
              <= Qabs (Entity.velocityY e)).
  { intros Hp.
    pose proof (Qabs_Qmult (- Entity.velocityY e) (Entity.bounciness e)) as E.
    pose proof (Qabs_opp (Entity.velocityY e)) as E1.
    assert (E2 : Qabs (Entity.bounciness e) == Entity.bounciness e)
      by (apply Qabs_pos; lra).
    assert (E3 : Qabs (- Entity.velocityY e) * Qabs (Entity.bounciness e)
                 == Qabs (Entity.velocityY e) * Entity.bounciness e)
      by (rewrite E1, E2; reflexivity).
    pose proof (Qmult_le_nonneg_l (Qabs (Entity.velocityY e))
                  (Entity.bounciness e) 1 Hy Hb) as H.
    lra. }
  destruct (Entity.solid e && Entity.solid other); [|split; lra].
  destruct (negb (Qeq_bool (Entity.normal_x collision) 0));
  destruct (negb (Qeq_bool (Entity.normal_y collision) 0));
  entity_fields;
  try (destruct (Qgtb (Entity.bounciness e) 0) eqn:Eb); entity_fields;
  q_reflect; split; try lra; try (rewrite H0; lra); auto.
Qed.

(** The runner, of bounciness 1/2. *)
Lemma entity_collision_never_speeds_up_witness :
  Qabs (Entity.velocityX
          (Entity.onCollision crate (Entity.mkCollision 0 (-1) 3) runner))
    <= Qabs (Entity.velocityX runner) /\
  Qabs (Entity.velocityY
          (Entity.onCollision crate (Entity.mkCollision 0 (-1) 3) runner))
    <= Qabs (Entity.velocityY runner).
Proof.
  apply (entity_collision_never_speeds_up crate
           (Entity.mkCollision 0 (-1) 3) runner).
  vm_compute. discriminate.
Defined.
(** * Properties of the Entity Manager *)

Lemma filter_all {A} (p : A -> bool) l :
  (forall a, a ∈ l -> p a = true) -> List.filter p l = l.
Proof.
  induction l as [|a l IH]; intros H; simpl; [done|].
  rewrite (H a) by left. f_equal. apply IH. intros b Hb. apply H. by right.
Qed.

Lemma filter_filter_absorb {A} (p q : A -> bool) l :
  (forall a, a ∈ l -> p a = true -> q a = true) ->
  List.filter p (List.filter q l) = List.filter p l.
Proof.
  induction l as [|a l IH]; intros H; simpl; [done|].
  assert (IH' := IH (fun b Hb => H b (list_elem_of_further _ _ _ Hb))).
  destruct (q a) eqn:Eq; simpl.
  - rewrite IH'. done.
  - destruct (p a) eqn:Ep; [|done].
    rewrite (H a) in Eq by (done || left). discriminate.
Qed.

Lemma filter_filter_comm {A} (p q : A -> bool) l :
  List.filter p (List.filter q l) = List.filter q (List.filter p l).
Proof.
  induction l as [|a l IH]; simpl; [done|].
  destruct (q a) eqn:Eq, (p a) eqn:Ep; simpl; rewrite ?Eq, ?Ep, IH; done.
Qed.

Lemma elem_of_List_filter {A} (p : A -> bool) l a :
  a ∈ List.filter p l <-> a ∈ l /\ p a = true.
Proof. rewrite !list_elem_of_In. apply filter_In. Qed.

Lemma NoDup_List_filter {A} (p : A -> bool) l :
  NoDup l -> NoDup (List.filter p l).
Proof.
  induction l as [|a l IH]; intros Hn; simpl; [done|].
  apply NoDup_cons in Hn as [Ha Hn].
  destruct (p a); [|by apply IH].
  apply NoDup_cons. split; [|by apply IH].
  intros H. apply elem_of_List_filter in H as [H _]. done.
Qed.

Lemma includes_true l h : EntityManager.includes l h = true <-> h ∈ l.
Proof.
  unfold EntityManager.includes. rewrite existsb_exists. split.
  - intros (k & Hk & E). apply Nat.eqb_eq in E as ->. by apply list_elem_of_In.
  - intros H. exists h. split; [by apply list_elem_of_In | apply Nat.eqb_refl].
Qed.

Lemma filter_andb {A} (p q : A -> bool) l :
  List.filter p (List.filter q l) = List.filter (fun a => q a && p a) l.
Proof.
  induction l as [|a l IH]; simpl; [done|].
  destruct (q a); simpl; [|done]. destruct (p a); by rewrite IH.
Qed.

Lemma removeFirst_filter r l :
  NoDup l -> removeFirst r l = List.filter (fun h => negb (Nat.eqb h r)) l.
Proof.
  induction l as [|k l IH]; intros Hn; simpl; [done|].
  apply NoDup_cons in Hn as [Hk Hn].
  destruct (Nat.eqb k r) eqn:E; simpl.
  - apply Nat.eqb_eq in E as ->. symmetry. apply filter_all.
    intros a Ha. apply negb_true_iff, Nat.eqb_neq. by intros ->.
  - by rewrite IH.
Qed.

Lemma hasType_true st ty h :
  EntityManager.hasType st ty h = true <->
  exists e, st !! h = Some e /\ Entity.type e = ty.
Proof.
  unfold EntityManager.hasType. destruct (st !! h) as [e|]; split.
  - intros H. apply String.eqb_eq in H. by exists e.
  - intros (e' & [= <-] & <-). apply String.eqb_refl.
  - done.
  - by intros (e' & ? & _).
Qed.


Lemma inherited_empty_false : EntityManager.inherited "" = false.
Proof. reflexivity. Qed.

(** What one registration does to the arrays, when it returns. *)
Lemma registerType_spec st types a types' :
  EntityManager.registerType st types a = EntityManager.Returns types' ->
  forall ty,
    default [] (types' !! ty)
    = default [] (types !! ty)
      ++ (if EntityManager.hasType st ty a then [a] else []).
Proof.
  unfold EntityManager.registerType, EntityManager.getProperty,
    EntityManager.hasType.
  destruct (st !! a) as [e|].
  2:{ intros [= <-] ty. by rewrite app_nil_r. }
  destruct (types !! Entity.type e) as [l|] eqn:Hl.
  - intros [= <-] ty. destruct (String.eqb (Entity.type e) ty) eqn:E.
    + apply String.eqb_eq in E as <-. by rewrite lookup_insert_eq, Hl.
    + apply String.eqb_neq in E. rewrite lookup_insert_ne by done.
      by rewrite app_nil_r.
  - destruct (EntityManager.inherited (Entity.type e)); [discriminate|].
    intros [= <-] ty. destruct (String.eqb (Entity.type e) ty) eqn:E.
    + apply String.eqb_eq in E as <-. by rewrite lookup_insert_eq, Hl.
    + apply String.eqb_neq in E. rewrite lookup_insert_ne by done.
      by rewrite app_nil_r.
Qed.

Lemma registerType_returns st types a :
  (forall e, st !! a = Some e -> EntityManager.inherited (Entity.type e) = false) ->
  exists types', EntityManager.registerType st types a
                 = EntityManager.Returns types'.
Proof.
  intros Ho. unfold EntityManager.registerType, EntityManager.getProperty.
  destruct (st !! a) as [e|]; [|by eexists].
  destruct (types !! Entity.type e); [by eexists|].
  rewrite (Ho e eq_refl). by eexists.
Qed.

Lemma forEach_registerType st l : forall types types',
  EntityManager.forEach (EntityManager.registerType st) l types
    = EntityManager.Returns types' ->
  forall ty,
    default [] (types' !! ty)
    = default [] (types !! ty) ++ List.filter (EntityManager.hasType st ty) l.
Proof.
  induction l as [|a l IH]; intros types types'; simpl.
  - intros [= <-] ty. by rewrite app_nil_r.
  - destruct (EntityManager.registerType st types a) as [t1|] eqn:E;
      [|discriminate].
    intros H ty. rewrite (IH _ _ H), (registerType_spec _ _ _ _ E).
    rewrite <- app_assoc. by destruct (EntityManager.hasType st ty a).
Qed.

Lemma forEach_registerType_returns st l : forall types,
  (forall h e, h ∈ l -> st !! h = Some e ->
               EntityManager.inherited (Entity.type e) = false) ->
  exists types', EntityManager.forEach (EntityManager.registerType st) l types
                 = EntityManager.Returns types'.
Proof.
  induction l as [|a l IH]; intros types Ho; simpl; [by eexists|].
  destruct (registerType_returns st types a) as (t1 & ->).
  { intros e. apply Ho. left. }
  apply IH. intros h e Hh. apply Ho. by right.
Qed.

Lemma unregisterType_indexed st types E r types' :
  EntityManager.unregisterType st types r = EntityManager.Returns types' ->
  NoDup E ->
  (forall ty, default [] (types !! ty)
              = List.filter (EntityManager.hasType st ty) E) ->
  forall ty,
    default [] (types' !! ty)
    = List.filter (EntityManager.hasType st ty)
        (List.filter (fun h => negb (Nat.eqb h r)) E).
Proof.
  intros Hret Hn Hi ty.
  assert (Hskip : EntityManager.hasType st ty r = false ->
            List.filter (EntityManager.hasType st ty)
              (List.filter (fun h => negb (Nat.eqb h r)) E)
            = List.filter (EntityManager.hasType st ty) E).
  { intros Hf. apply filter_filter_absorb. intros a _ Ha.
    apply negb_true_iff, Nat.eqb_neq. intros ->. congruence. }
  unfold EntityManager.unregisterType, EntityManager.getProperty in Hret.
  destruct (st !! r) as [e|] eqn:Hr.
  2:{ injection Hret as <-. rewrite Hi, Hskip; [done|].
      unfold EntityManager.hasType. by rewrite Hr. }
  destruct (types !! Entity.type e) as [l|] eqn:Hl.
  - injection Hret as <-.
    destruct (String.eqb (Entity.type e) ty) eqn:Et.
    + apply String.eqb_eq in Et as <-. rewrite lookup_insert_eq. simpl.
      pose proof (Hi (Entity.type e)) as Hle. rewrite Hl in Hle. simpl in Hle.
      rewrite Hle, removeFirst_filter by (by apply NoDup_List_filter).
      apply filter_filter_comm.
    + apply String.eqb_neq in Et as Et'. rewrite lookup_insert_ne by done.
      rewrite Hi, Hskip; [done|]. unfold EntityManager.hasType. by rewrite Hr.
  - destruct (EntityManager.inherited (Entity.type e)); [discriminate|].
    injection Hret as <-.
    rewrite Hi. destruct (String.eqb (Entity.type e) ty) eqn:Et.
    + apply String.eqb_eq in Et as <-.
      pose proof (Hi (Entity.type e)) as Hle. rewrite Hl in Hle. simpl in Hle.
      assert (Hr' : r ∉ E).
      { intros Hin.
        assert (r ∈ List.filter (EntityManager.hasType st (Entity.type e)) E).
        { apply elem_of_List_filter. split; [done|].
          apply hasType_true. by exists e. }
        rewrite <- Hle in H. by apply elem_of_nil in H. }
      f_equal. symmetry. apply filter_all. intros a Ha.
      apply negb_true_iff, Nat.eqb_neq. by intros ->.
    + rewrite Hskip; [done|]. unfold EntityManager.hasType. by rewrite Hr.
Qed.

Lemma unregisterType_returns st types r :
  (forall e, st !! r = Some e -> EntityManager.inherited (Entity.type e) = false) ->
  exists types', EntityManager.unregisterType st types r
                 = EntityManager.Returns types'.
Proof.
  intros Ho. unfold EntityManager.unregisterType, EntityManager.getProperty.
  destruct (st !! r) as [e|]; [|by eexists].
  destruct (types !! Entity.type e); [by eexists|].
  rewrite (Ho e eq_refl). by eexists.
Qed.

Lemma forEach_unregisterType st R : forall types types' E,
  EntityManager.forEach (EntityManager.unregisterType st) R types
    = EntityManager.Returns types' ->
  NoDup E ->
  (forall ty, default [] (types !! ty)
              = List.filter (EntityManager.hasType st ty) E) ->
  forall ty,
    default [] (types' !! ty)
    = List.filter (EntityManager.hasType st ty)
        (List.filter (fun h => negb (EntityManager.includes R h)) E).
Proof.
  induction R as [|r R IH]; intros types types' E; simpl.
  - intros [= <-] Hn Hi ty. rewrite Hi. f_equal. symmetry. by apply filter_all.
  - destruct (EntityManager.unregisterType st types r) as [t1|] eqn:Er;
      [|discriminate].
    intros H Hn Hi ty.
    rewrite (IH _ _ (List.filter (fun h => negb (Nat.eqb h r)) E) H).
    + f_equal. rewrite filter_andb. apply List.filter_ext. intros a.
      by rewrite negb_orb.
    + by apply NoDup_List_filter.
    + by apply (unregisterType_indexed st types E r t1).
Qed.

Lemma forEach_unregisterType_returns st R : forall types,
  (forall h e, h ∈ R -> st !! h = Some e ->
               EntityManager.inherited (Entity.type e) = false) ->
  exists types', EntityManager.forEach (EntityManager.unregisterType st) R types
                 = EntityManager.Returns types'.
Proof.
  induction R as [|r R IH]; intros types Ho; simpl; [by eexists|].
  destruct (unregisterType_returns st types r) as (t1 & ->).
  { intros e. apply Ho. left. }
  apply IH. intros h e Hh. apply Ho. by right.
Qed.

Lemma processAdds_fields st this this1 :
  EntityManager.processAdds st this = EntityManager.Returns this1 ->
  EntityManager.entities this1
    = EntityManager.entities this ++ EntityManager.entitiesToAdd this /\
  EntityManager.entitiesToAdd this1 = [] /\
  EntityManager.entitiesToRemove this1 = EntityManager.entitiesToRemove this /\
  forall ty,
    EntityManager.ownArray ty this1
    = EntityManager.ownArray ty this
      ++ List.filter (EntityManager.hasType st ty)
           (EntityManager.entitiesToAdd this).
Proof.
  unfold EntityManager.processAdds, EntityManager.ownArray.
  destruct (EntityManager.entitiesToAdd this) as [|a l] eqn:E.
  - intros [= <-]. rewrite E, app_nil_r. repeat split; try done.
    intros ty. by rewrite app_nil_r.
  - destruct (EntityManager.forEach _ _ _) as [types|] eqn:F; [|discriminate].
    intros [= <-].
    cbn [EntityManager.entities EntityManager.entitiesToAdd
         EntityManager.entitiesToRemove EntityManager.entityTypes].
    repeat split; try done.
    intros ty. by apply (forEach_registerType st (a :: l) _ _ F).
Qed.

Lemma processAdds_returns st this :
  (forall h e, h ∈ EntityManager.entitiesToAdd this -> st !! h = Some e ->
               EntityManager.inherited (Entity.type e) = false) ->
  exists this1, EntityManager.processAdds st this = EntityManager.Returns this1.
Proof.
  intros Ho. unfold EntityManager.processAdds.
  destruct (EntityManager.entitiesToAdd this) as [|a l] eqn:E; [by eexists|].
  destruct (forEach_registerType_returns st (a :: l)
              (EntityManager.entityTypes this) Ho) as (types & ->).
  by eexists.
Qed.

Lemma processRemoves_fields st this this3 :
  EntityManager.processRemoves st this = EntityManager.Returns this3 ->
  EntityManager.entities this3
    = List.filter
        (fun h => negb (EntityManager.includes
                          (EntityManager.entitiesToRemove this) h))
        (EntityManager.entities this) /\
  EntityManager.entitiesToAdd this3 = EntityManager.entitiesToAdd this /\
  EntityManager.entitiesToRemove this3 = [] /\
  (NoDup (EntityManager.entities this) ->
   EntityManager.indexed st this -> EntityManager.indexed st this3).
Proof.
  unfold EntityManager.processRemoves, EntityManager.indexed,
    EntityManager.ownArray.
  destruct (EntityManager.entitiesToRemove this) as [|r R] eqn:E.
  - intros [= <-]. rewrite E, filter_all by done. done.
  - destruct (EntityManager.forEach _ _ _) as [types|] eqn:F; [|discriminate].
    intros [= <-].
    cbn [EntityManager.entities EntityManager.entitiesToAdd
         EntityManager.entitiesToRemove EntityManager.entityTypes].
    repeat split; try done.
    intros Hn Hi ty. by apply (forEach_unregisterType st (r :: R) _ _ _ F).
Qed.

Lemma processRemoves_returns st this :
  (forall h e, h ∈ EntityManager.entitiesToRemove this -> st !! h = Some e ->
               EntityManager.inherited (Entity.type e) = false) ->
  exists this3, EntityManager.processRemoves st this = EntityManager.Returns this3.
Proof.
  intros Ho. unfold EntityManager.processRemoves.
  destruct (EntityManager.entitiesToRemove this) as [|r R] eqn:E; [by eexists|].
  destruct (forEach_unregisterType_returns st (r :: R)
              (EntityManager.entityTypes this) Ho) as (types & ->).
  by eexists.
Qed.

(** A registration creates no property that [Object.prototype] has too. *)
Lemma registerType_noShadowing st types a types' :
  EntityManager.registerType st types a = EntityManager.Returns types' ->
  (forall key, EntityManager.inherited key = true -> types !! key = None) ->
  forall key, EntityManager.inherited key = true -> types' !! key = None.
Proof.
  unfold EntityManager.registerType, EntityManager.getProperty.
  destruct (st !! a) as [e|]; [|by intros [= <-]].
  destruct (types !! Entity.type e) as [l|] eqn:Hl.
  - intros [= <-] Hn key Hk. rewrite lookup_insert_ne; [by apply Hn|].
    intros E. rewrite E, (Hn key Hk) in Hl. discriminate.
  - destruct (EntityManager.inherited (Entity.type e)) eqn:Hi; [discriminate|].
    intros [= <-] Hn key Hk. rewrite lookup_insert_ne; [by apply Hn|].
    intros E. congruence.
Qed.

Lemma unregisterType_noShadowing st types r types' :
  EntityManager.unregisterType st types r = EntityManager.Returns types' ->
  (forall key, EntityManager.inherited key = true -> types !! key = None) ->
  forall key, EntityManager.inherited key = true -> types' !! key = None.
Proof.
  unfold EntityManager.unregisterType, EntityManager.getProperty.
  destruct (st !! r) as [e|]; [|by intros [= <-]].
  destruct (types !! Entity.type e) as [l|] eqn:Hl.
  - intros [= <-] Hn key Hk. rewrite lookup_insert_ne; [by apply Hn|].
    intros E. rewrite E, (Hn key Hk) in Hl. discriminate.
  - destruct (EntityManager.inherited (Entity.type e)); [discriminate|].
    by intros [= <-].
Qed.

Lemma forEach_noShadowing
    (f : gmap string (list handle) -> handle
         -> EntityManager.Outcome (gmap string (list handle))) l :
  (forall types a types',
     f types a = EntityManager.Returns types' ->
     (forall key, EntityManager.inherited key = true -> types !! key = None) ->
     forall key, EntityManager.inherited key = true -> types' !! key = None) ->
  forall types types',
    EntityManager.forEach f l types = EntityManager.Returns types' ->
    (forall key, EntityManager.inherited key = true -> types !! key = None) ->
    forall key, EntityManager.inherited key = true -> types' !! key = None.
Proof.
  intros Hf. induction l as [|a l IH]; intros types types'; simpl.
  - by intros [= <-].
  - destruct (f types a) as [t1|] eqn:E; [|discriminate].
    intros H Hn. apply (IH _ _ H). by apply (Hf types a t1).
Qed.

(** Registering an entity whose type names a property of
    [Object.prototype] throws, wherever it stands in the array. *)
Lemma forEach_registerType_throws st l h e : forall types,
  h ∈ l -> st !! h = Some e ->
  EntityManager.inherited (Entity.type e) = true ->
  (forall key, EntityManager.inherited key = true -> types !! key = None) ->
  EntityManager.forEach (EntityManager.registerType st) l types
    = EntityManager.Throws.
Proof.
  induction l as [|a l IH]; intros types Hh He Hi Hn;
    [by apply elem_of_nil in Hh|].
  simpl. destruct (EntityManager.registerType st types a) as [t1|] eqn:E;
    [|done].
  apply elem_of_cons in Hh as [->|Hh].
  - unfold EntityManager.registerType, EntityManager.getProperty in E.
    rewrite He, (Hn _ Hi), Hi in E. discriminate.
  - apply IH; [done | done | done |].
    by apply (registerType_noShadowing st types a t1).
Qed.

Section ManagerUpdate.

Variable entityUpdate :
  Q -> handle -> gmap handle Entity.t ->
  gmap handle Entity.t * list handle * list handle.
Variable deltaTime : Q.

Lemma updateEntity_queues w h :
  let w' := EntityManager.updateEntity entityUpdate deltaTime w h in
  EntityManager.entities w'.1 = EntityManager.entities w.1 /\
  EntityManager.entityTypes w'.1 = EntityManager.entityTypes w.1 /\
  (exists added, EntityManager.entitiesToAdd w'.1
                 = EntityManager.entitiesToAdd w.1 ++ added) /\
  (exists removed, EntityManager.entitiesToRemove w'.1
                   = EntityManager.entitiesToRemove w.1 ++ removed).
Proof.
  unfold EntityManager.updateEntity.
  assert (Hsame : EntityManager.entities w.1 = EntityManager.entities w.1 /\
    EntityManager.entityTypes w.1 = EntityManager.entityTypes w.1 /\
    (exists added, EntityManager.entitiesToAdd w.1
                   = EntityManager.entitiesToAdd w.1 ++ added) /\
    (exists removed, EntityManager.entitiesToRemove w.1
                     = EntityManager.entitiesToRemove w.1 ++ removed)).
  { repeat split; try done; exists []; by rewrite app_nil_r. }
  destruct (w.2 !! h) as [e|]; [|done].
  destruct (Entity.active e); [|done].
  destruct (entityUpdate deltaTime h w.2) as [[st' added] removed]. simpl.
  repeat split; try done; by eexists.
Qed.

Lemma fold_updateEntity_queues l : forall w,
  let w' := fold_left (EntityManager.updateEntity entityUpdate deltaTime) l w in
  EntityManager.entities w'.1 = EntityManager.entities w.1 /\
  EntityManager.entityTypes w'.1 = EntityManager.entityTypes w.1 /\
  (exists added, EntityManager.entitiesToAdd w'.1
                 = EntityManager.entitiesToAdd w.1 ++ added) /\
  (exists removed, EntityManager.entitiesToRemove w'.1
                   = EntityManager.entitiesToRemove w.1 ++ removed).
Proof.
  induction l as [|h l IH]; intros w; simpl.
  - repeat split; try done; exists []; by rewrite app_nil_r.
  - destruct (IH (EntityManager.updateEntity entityUpdate deltaTime w h))
      as (E1 & E2 & (a2 & E3) & (r2 & E4)).
    destruct (updateEntity_queues w h) as (F1 & F2 & (a1 & F3) & (r1 & F4)).
    simpl in *. rewrite E1, E2, E3, E4, F1, F2, F3, F4.
    repeat split; try done.
    + exists (a1 ++ a2). by rewrite app_assoc.
    + exists (r1 ++ r2). by rewrite app_assoc.
Qed.

Lemma updateAll_queues w :
  let w' := EntityManager.updateAll entityUpdate deltaTime w in
  EntityManager.entities w'.1 = EntityManager.entities w.1 /\
  EntityManager.entityTypes w'.1 = EntityManager.entityTypes w.1 /\
  (exists added, EntityManager.entitiesToAdd w'.1
                 = EntityManager.entitiesToAdd w.1 ++ added) /\
  (exists removed, EntityManager.entitiesToRemove w'.1
                   = EntityManager.entitiesToRemove w.1 ++ removed).
Proof. apply fold_updateEntity_queues. Qed.

Lemma updateAll_ordinary w :
  (forall k st0, EntityManager.ordinaryTypes st0 ->
     EntityManager.ordinaryTypes (entityUpdate deltaTime k st0).1.1) ->
  EntityManager.ordinaryTypes w.2 ->
  EntityManager.ordinaryTypes
    (EntityManager.updateAll entityUpdate deltaTime w).2.
Proof.
  intros Hord. unfold EntityManager.updateAll.
  generalize (EntityManager.entities w.1) as l. intros l. revert w.
  induction l as [|k l IH]; intros w Hw; simpl; [done|].
  apply IH. unfold EntityManager.updateEntity.
  destruct (w.2 !! k) as [e|]; [|done].
  destruct (Entity.active e); [|done].
  pose proof (Hord k w.2 Hw) as H.
  destruct (entityUpdate deltaTime k w.2) as [[st' added] removed]. done.
Qed.

(** What [update] does when it returns. *)
Lemma update_inv this st w' :
  EntityManager.update entityUpdate deltaTime (this, st)
    = EntityManager.Returns w' ->
  exists this1,
    EntityManager.processAdds st this = EntityManager.Returns this1 /\
    EntityManager.processRemoves
      (EntityManager.updateAll entityUpdate deltaTime (this1, st)).2
      (EntityManager.updateAll entityUpdate deltaTime (this1, st)).1
      = EntityManager.Returns w'.1 /\
    w'.2 = (EntityManager.updateAll entityUpdate deltaTime (this1, st)).2.
Proof.
  unfold EntityManager.update. cbn [fst snd].
  destruct (EntityManager.processAdds st this) as [this1|]; [|discriminate].
  cbv zeta.
  destruct (EntityManager.processRemoves _ _) as [this3|] eqn:E;
    [|discriminate].
  intros [= <-]. exists this1. by rewrite E.
Qed.

(** [update] returns when no entity it registers or unregisters has a type
    that names a property of [Object.prototype]. *)
Lemma update_returns this st :
  EntityManager.ordinaryTypes st ->
  (forall this1, EntityManager.ordinaryTypes
     (EntityManager.updateAll entityUpdate deltaTime (this1, st)).2) ->
  exists w', EntityManager.update entityUpdate deltaTime (this, st)
             = EntityManager.Returns w'.
Proof.
  intros Ho Ho2. unfold EntityManager.update. cbn [fst snd].
  destruct (processAdds_returns st this) as (this1 & ->).
  { intros h e _. apply Ho. }
  cbv zeta.
  destruct (processRemoves_returns
              (EntityManager.updateAll entityUpdate deltaTime (this1, st)).2
              (EntityManager.updateAll entityUpdate deltaTime (this1, st)).1)
    as (this3 & ->).
  { intros h e _. apply Ho2. }
  by eexists.
Qed.

Lemma manager_update_flushes_queues_aux this st w' :
  EntityManager.update entityUpdate deltaTime (this, st)
    = EntityManager.Returns w' ->
  exists this1,
    EntityManager.processAdds st this = EntityManager.Returns this1 /\
    let w2 := EntityManager.updateAll entityUpdate deltaTime (this1, st) in
    EntityManager.entities w'.1
      = List.filter
          (fun h => negb (EntityManager.includes
                            (EntityManager.entitiesToRemove w2.1) h))
          (EntityManager.entities this ++ EntityManager.entitiesToAdd this) /\
    (forall h, h ∈ EntityManager.entitiesToRemove this ->
               h ∉ EntityManager.entities w'.1) /\
    (forall h, h ∈ EntityManager.entitiesToAdd this ->
               h ∉ EntityManager.entitiesToRemove w2.1 ->
               h ∈ EntityManager.entities w'.1) /\
    EntityManager.entitiesToRemove w'.1 = [] /\
    EntityManager.entitiesToAdd w'.1 = EntityManager.entitiesToAdd w2.1 /\
    w'.2 = w2.2.
Proof.
  intros Hret. destruct (update_inv this st w' Hret) as (this1 & HA & HR & Hst).
  exists this1. split; [done|]. intros w2.
  destruct (processRemoves_fields _ _ _ HR) as (R1 & R2 & R3 & _).
  destruct (processAdds_fields _ _ _ HA) as (A1 & A2 & A3 & _).
  destruct (updateAll_queues (this1, st)) as (E1 & _ & _ & (removed & E4)).
  fold w2 in E1, E4, R1, R2. cbn [fst snd] in E1, E4.
  rewrite A1 in E1. rewrite A3 in E4. rewrite R1, E1.
  split; [done|]. split; [|split; [|done]].
  - intros h Hh Hin. apply elem_of_List_filter in Hin as [_ Hn].
    apply negb_true_iff in Hn.
    assert (EntityManager.includes (EntityManager.entitiesToRemove w2.1) h = true).
    { apply includes_true. rewrite E4. apply elem_of_app. by left. }
    congruence.
  - intros h Hh Hn. apply elem_of_List_filter. split.
    + apply elem_of_app. by right.
    + apply negb_true_iff. apply not_true_iff_false. by rewrite includes_true.
Qed.

(** X20.  [update] flushes both queues.  When it returns, the pending
    entities have joined [entities] before the loop (so they are updated in
    the same call); afterwards [entities] holds, in order, the old and the
    pending entities that were not passed to [removeEntity] before or
    during the loop, the removal queue is empty, and the entities passed to
    [addEntity] during the loop are still pending.  In particular an
    entity queued for removal is gone, and a pending entity that nobody
    removed is in.  It returns when no entity has a type that names a
    property of [Object.prototype], before the loop and after the updates
    of the entities. *)
Theorem manager_update_flushes_queues
    (this : EntityManager.t) (st : gmap handle Entity.t) :
  (forall w',
     EntityManager.update entityUpdate deltaTime (this, st)
       = EntityManager.Returns w' ->
     exists this1,
       EntityManager.processAdds st this = EntityManager.Returns this1 /\
       let w2 := EntityManager.updateAll entityUpdate deltaTime (this1, st) in
       EntityManager.entities w'.1
         = List.filter
             (fun h => negb (EntityManager.includes
                               (EntityManager.entitiesToRemove w2.1) h))
             (EntityManager.entities this ++ EntityManager.entitiesToAdd this) /\
       (forall h, h ∈ EntityManager.entitiesToRemove this ->
                  h ∉ EntityManager.entities w'.1) /\
       (forall h, h ∈ EntityManager.entitiesToAdd this ->
                  h ∉ EntityManager.entitiesToRemove w2.1 ->
                  h ∈ EntityManager.entities w'.1) /\
       EntityManager.entitiesToRemove w'.1 = [] /\
       EntityManager.entitiesToAdd w'.1 = EntityManager.entitiesToAdd w2.1 /\
       w'.2 = w2.2) /\
  (EntityManager.ordinaryTypes st ->
   (forall k st0, EntityManager.ordinaryTypes st0 ->
      EntityManager.ordinaryTypes (entityUpdate deltaTime k st0).1.1) ->
   exists w', EntityManager.update entityUpdate deltaTime (this, st)
              = EntityManager.Returns w').
Proof.
  split.
  - apply manager_update_flushes_queues_aux.
  - intros Ho Hord. apply update_returns; [done|].
    intros this1. by apply updateAll_ordinary.
Qed.




Lemma fold_updateEntity_types l : forall w,
  (forall k st ty j,
     EntityManager.hasType (entityUpdate deltaTime k st).1.1 ty j
     = EntityManager.hasType st ty j) ->
  forall ty j,
    EntityManager.hasType
      (fold_left (EntityManager.updateEntity entityUpdate deltaTime) l w).2 ty j
    = EntityManager.hasType w.2 ty j.
Proof.
  intros w Ht. revert w. induction l as [|k l IH]; intros w ty j; simpl; [done|].
  rewrite IH. unfold EntityManager.updateEntity.
  destruct (w.2 !! k) as [e|]; [|done].
  destruct (Entity.active e); [|done].
  pose proof (Ht k w.2 ty j) as H.
  destruct (entityUpdate deltaTime k w.2) as [[st' added] removed]. done.
Qed.

Lemma ordinaryTypes_hasType st st' :
  (forall ty j, EntityManager.hasType st' ty j = EntityManager.hasType st ty j) ->
  EntityManager.ordinaryTypes st -> EntityManager.ordinaryTypes st'.
Proof.
  intros Ht Ho h e' He'.
  assert (H : EntityManager.hasType st' (Entity.type e') h = true).
  { apply hasType_true. by exists e'. }
  rewrite Ht in H. apply hasType_true in H as (e & He & <-). by eapply Ho.
Qed.

Lemma update_indexed this st w' :
  (forall k st ty j,
     EntityManager.hasType (entityUpdate deltaTime k st).1.1 ty j
     = EntityManager.hasType st ty j) ->
  EntityManager.indexed st this ->
  NoDup (EntityManager.entities this ++ EntityManager.entitiesToAdd this) ->
  EntityManager.update entityUpdate deltaTime (this, st)
    = EntityManager.Returns w' ->
  EntityManager.indexed w'.2 w'.1 /\ NoDup (EntityManager.entities w'.1).
Proof.
  intros Ht Hi Hn Hret.
  destruct (update_inv this st w' Hret) as (this1 & HA & HR & Hst).
  assert (Hty : forall ty j,
            EntityManager.hasType
              (EntityManager.updateAll entityUpdate deltaTime (this1, st)).2 ty j
            = EntityManager.hasType st ty j).
  { intros ty j. unfold EntityManager.updateAll.
    by rewrite fold_updateEntity_types. }
  set (w2 := EntityManager.updateAll entityUpdate deltaTime (this1, st)) in *.
  destruct (processRemoves_fields _ _ _ HR) as (R1 & _ & _ & R4).
  destruct (processAdds_fields _ _ _ HA) as (A1 & _ & _ & A4).
  destruct (updateAll_queues (this1, st)) as (E1 & E2 & _).
  fold w2 in E1, E2. cbn [fst snd] in E1, E2. rewrite A1 in E1.
  assert (Hn2 : NoDup (EntityManager.entities w2.1)) by (by rewrite E1).
  split.
  - rewrite Hst. apply R4; [done|].
    intros ty. unfold EntityManager.ownArray. rewrite E2, E1.
    fold (EntityManager.ownArray ty this1). rewrite A4, List.filter_app.
    rewrite !(List.filter_ext _ _ (Hty ty)).
    f_equal. apply Hi.
  - rewrite R1. by apply NoDup_List_filter.
Qed.

Lemma update_returns_hasType this st :
  (forall k st ty j,
     EntityManager.hasType (entityUpdate deltaTime k st).1.1 ty j
     = EntityManager.hasType st ty j) ->
  EntityManager.ordinaryTypes st ->
  exists w', EntityManager.update entityUpdate deltaTime (this, st)
             = EntityManager.Returns w'.
Proof.
  intros Ht Ho. apply update_returns; [done|].
  intros this1. eapply ordinaryTypes_hasType; [|exact Ho].
  intros ty j. unfold EntityManager.updateAll.
  by rewrite fold_updateEntity_types.
Qed.

(** X22.  The type mapping stays consistent with [entities]: if the array
    kept for every type holds the entities of that type in the order of
    [entities], if no entity is registered or pending twice and the updates
    of the entities do not change types, then the same holds when [update]
    returns, and [entities] still has no repetition; [update] returns when
    no entity has a type that names a property of [Object.prototype]. *)
Theorem type_index_stays_consistent
    (this : EntityManager.t) (st : gmap handle Entity.t) :
  (forall k st ty j,
     EntityManager.hasType (entityUpdate deltaTime k st).1.1 ty j
     = EntityManager.hasType st ty j) ->
  EntityManager.indexed st this ->
  NoDup (EntityManager.entities this ++ EntityManager.entitiesToAdd this) ->
  (forall w',
     EntityManager.update entityUpdate deltaTime (this, st)
       = EntityManager.Returns w' ->
     EntityManager.indexed w'.2 w'.1 /\ NoDup (EntityManager.entities w'.1)) /\
  (EntityManager.ordinaryTypes st ->
   exists w', EntityManager.update entityUpdate deltaTime (this, st)
              = EntityManager.Returns w').
Proof.
  intros Ht Hi Hn. split.
  - intros w' Hret. by eapply update_indexed.
  - by apply update_returns_hasType.
Qed.

Lemma update_noShadowing this st w' :
  EntityManager.update entityUpdate deltaTime (this, st)
    = EntityManager.Returns w' ->
  EntityManager.noShadowing this -> EntityManager.noShadowing w'.1.
Proof.
  intros Hret Hn.
  destruct (update_inv this st w' Hret) as (this1 & HA & HR & _).
  assert (H1 : EntityManager.noShadowing this1).
  { unfold EntityManager.processAdds in HA.
    destruct (EntityManager.entitiesToAdd this) as [|a l]; [by injection HA as <-|].
    destruct (EntityManager.forEach _ _ _) as [types|] eqn:F; [|discriminate].
    injection HA as <-. unfold EntityManager.noShadowing. simpl.
    eapply forEach_noShadowing; [apply registerType_noShadowing | exact F | done]. }
  destruct (updateAll_queues (this1, st)) as (_ & E2 & _). cbn [fst] in E2.
  set (w2 := EntityManager.updateAll entityUpdate deltaTime (this1, st)) in *.
  assert (H2 : EntityManager.noShadowing w2.1).
  { unfold EntityManager.noShadowing. by rewrite E2. }
  unfold EntityManager.processRemoves in HR.
  destruct (EntityManager.entitiesToRemove w2.1) as [|r R]; [by injection HR as <-|].
  destruct (EntityManager.forEach _ _ _) as [types|] eqn:F; [|discriminate].
  injection HR as <-. unfold EntityManager.noShadowing. simpl.
  eapply forEach_noShadowing; [apply unregisterType_noShadowing | exact F | done].
Qed.

(** X28.  A type name that is a property of [Object.prototype] breaks the
    manager.  [entityTypes] never owns such a property (a new manager owns
    none, and [update] creates none); so [update] throws a [TypeError] as
    soon as a pending entity has such a type, where it calls [push] on what
    the lookup inherits, and [getEntitiesInArea] throws for such a type,
    where it calls [filter]. *)
Theorem inherited_type_name_throws :
  EntityManager.noShadowing EntityManager.new /\
  (forall this st w',
     EntityManager.update entityUpdate deltaTime (this, st)
       = EntityManager.Returns w' ->
     EntityManager.noShadowing this -> EntityManager.noShadowing w'.1) /\
  (forall this st h e,
     EntityManager.noShadowing this ->
     h ∈ EntityManager.entitiesToAdd this -> st !! h = Some e ->
     EntityManager.inherited (Entity.type e) = true ->
     EntityManager.update entityUpdate deltaTime (this, st)
       = EntityManager.Throws) /\
  (forall this st ax ay aw ah ty,
     EntityManager.noShadowing this ->
     EntityManager.inherited ty = true ->
     EntityManager.getEntitiesByType ty this = EntityManager.Inherited /\
     EntityManager.getEntitiesInArea st ax ay aw ah (Some ty) this
       = EntityManager.Throws) /\
  EntityManager.update entityUpdate deltaTime (gadgetPending, gadgetStore)
    = EntityManager.Throws.
Proof.
  assert (Hthrow : forall this st h e,
     EntityManager.noShadowing this ->
     h ∈ EntityManager.entitiesToAdd this -> st !! h = Some e ->
     EntityManager.inherited (Entity.type e) = true ->
     EntityManager.update entityUpdate deltaTime (this, st)
       = EntityManager.Throws).
  { intros this st h e Hn Hh He Hi.
    unfold EntityManager.update, EntityManager.processAdds. cbn [fst snd].
    destruct (EntityManager.entitiesToAdd this) as [|a l] eqn:E;
      [by apply elem_of_nil in Hh|].
    by rewrite (forEach_registerType_throws st (a :: l) h e
                  (EntityManager.entityTypes this) Hh He Hi Hn). }
  split; [intros key _; apply lookup_empty|].
  split; [apply update_noShadowing|]. split; [exact Hthrow|]. split.
  - intros this st ax ay aw ah ty Hn Hi.
    assert (Hg : EntityManager.getEntitiesByType ty this
                 = EntityManager.Inherited).
    { unfold EntityManager.getEntitiesByType, EntityManager.getProperty.
      by rewrite (Hn ty Hi), Hi. }
    split; [done|]. unfold EntityManager.getEntitiesInArea.
    destruct (String.eqb ty "") eqn:E.
    + apply String.eqb_eq in E as ->. discriminate.
    + by rewrite Hg.
  - apply (Hthrow gadgetPending gadgetStore 1%nat gadget).
    + intros key _. apply lookup_empty.
    + left.
    + reflexivity.
    + reflexivity.
Qed.

End ManagerUpdate.

Lemma indexed_new st : EntityManager.indexed st EntityManager.new.
Proof. intros ty. unfold EntityManager.ownArray. simpl. by rewrite lookup_empty. Qed.

Lemma baseUpdate_hasType physics dt k st ty j :
  EntityManager.hasType (EntityManager.baseUpdate physics dt k st).1.1 ty j
  = EntityManager.hasType st ty j.
Proof.
  unfold EntityManager.baseUpdate.
  destruct (st !! k) as [e|] eqn:Hk; [|done]. simpl.
  unfold EntityManager.hasType.
  destruct (decide (j = k)) as [->|Hne].
  - rewrite lookup_insert_eq, Hk.
    destruct (entity_update_fields physics dt e)
      as (_ & _ & _ & _ & _ & _ & _ & -> & _). done.
  - by rewrite lookup_insert_ne.
Qed.

Lemma destroyUpdate_hasType dt k st ty j :
  EntityManager.hasType (EntityManager.destroyUpdate dt k st).1.1 ty j
  = EntityManager.hasType st ty j.
Proof.
  unfold EntityManager.destroyUpdate.
  destruct (st !! k) as [e|] eqn:Hk; [|done]. simpl.
  unfold EntityManager.hasType.
  destruct (decide (j = k)) as [->|Hne].
  - by rewrite lookup_insert_eq, Hk.
  - by rewrite lookup_insert_ne.
Qed.

Lemma classUpdate_hasType physics doomed dt k st ty j :
  EntityManager.hasType (EntityManager.classUpdate physics doomed dt k st).1.1 ty j
  = EntityManager.hasType st ty j.
Proof.
  unfold EntityManager.classUpdate. destruct (EntityManager.includes doomed k).
  - apply destroyUpdate_hasType.
  - apply baseUpdate_hasType.
Qed.

Lemma baseUpdate_ordinary physics dt k st :
  EntityManager.ordinaryTypes st ->
  EntityManager.ordinaryTypes (EntityManager.baseUpdate physics dt k st).1.1.
Proof. apply ordinaryTypes_hasType. intros ty j. apply baseUpdate_hasType. Qed.

Lemma classUpdate_ordinary physics doomed dt k st :
  EntityManager.ordinaryTypes st ->
  EntityManager.ordinaryTypes
    (EntityManager.classUpdate physics doomed dt k st).1.1.
Proof. apply ordinaryTypes_hasType. intros ty j. apply classUpdate_hasType. Qed.

Lemma twoEntities_ordinary : EntityManager.ordinaryTypes twoEntities.
Proof.
  intros h e. unfold twoEntities.
  destruct (decide (h = 2%nat)) as [->|H2].
  { rewrite lookup_insert_eq. by intros [= <-]. }
  rewrite lookup_insert_ne by done.
  destruct (decide (h = 1%nat)) as [->|H1].
  { rewrite lookup_insert_eq. by intros [= <-]. }
  rewrite lookup_insert_ne by done. by rewrite lookup_empty.
Qed.

Lemma twoPending_NoDup :
  NoDup (EntityManager.entities twoPending
         ++ EntityManager.entitiesToAdd twoPending).
Proof.
  simpl. apply NoDup_cons. split; [|apply NoDup_singleton].
  intros H. apply list_elem_of_singleton in H. discriminate H.
Qed.

Lemma twoRegistered_indexed : EntityManager.indexed twoEntities twoRegistered.
Proof.
  intros ty. unfold EntityManager.ownArray, twoRegistered.
  cbn [EntityManager.entityTypes EntityManager.entities].
  destruct (decide (ty = "enemy"%string)) as [->|Hn]; [reflexivity|].
  rewrite lookup_insert_ne by done.
  destruct (decide (ty = "entity"%string)) as [->|He]; [reflexivity|].
  rewrite lookup_insert_ne by done. rewrite lookup_empty.
  unfold EntityManager.hasType, twoEntities. cbn [List.filter].
  rewrite lookup_insert_ne by done. rewrite !lookup_insert_eq.
  assert (H1 : String.eqb (Entity.type crate) ty = false).
  { apply String.eqb_neq. intros <-. by apply He. }
  assert (H2 : String.eqb (Entity.type runner) ty = false).
  { apply String.eqb_neq. intros <-. by apply Hn. }
  by rewrite H1, H2.
Qed.




(** The crate and the runner, taken in by the first update. *)
Lemma type_index_stays_consistent_witness :
  (forall w',
     EntityManager.update (EntityManager.baseUpdate defaultPhysics) (1 # 60)
       (twoPending, twoEntities) = EntityManager.Returns w' ->
     EntityManager.indexed w'.2 w'.1 /\ NoDup (EntityManager.entities w'.1)) /\
  (EntityManager.ordinaryTypes twoEntities ->
   exists w',
     EntityManager.update (EntityManager.baseUpdate defaultPhysics) (1 # 60)
       (twoPending, twoEntities) = EntityManager.Returns w').
Proof.
  apply (type_index_stays_consistent
           (EntityManager.baseUpdate defaultPhysics) (1 # 60)
           twoPending twoEntities).
  - intros k st ty j. apply baseUpdate_hasType.
  - apply indexed_new.
  - exact twoPending_NoDup.
Defined.

(** The first update registers the crate and the runner. *)
Lemma first_update_registers :
  exists st',
    EntityManager.update (EntityManager.baseUpdate defaultPhysics) (1 # 60)
      (twoPending, twoEntities) = EntityManager.Returns (twoRegistered, st').
Proof. eexists. vm_compute. reflexivity. Qed.

(** The update in which the runner destroys itself returns, and leaves the
    crate alone. *)
Lemma runner_destroyed_on_arrival :
  exists w',
    EntityManager.update (EntityManager.classUpdate defaultPhysics [2%nat])
      (1 # 60) (twoPending, twoEntities) = EntityManager.Returns w' /\
    EntityManager.entities w'.1 = [1%nat] /\
    EntityManager.ownArray "enemy" w'.1 = [] /\
    EntityManager.ownArray "entity" w'.1 = [1%nat].
Proof.
  destruct (update_returns (EntityManager.classUpdate defaultPhysics [2%nat])
              (1 # 60) twoPending twoEntities twoEntities_ordinary) as (w' & H).
  { intros this1. apply updateAll_ordinary; [|exact twoEntities_ordinary].
    intros k st0. apply classUpdate_ordinary. }
  exists w'. split; [exact H|]. revert H. vm_compute. by intros [= <-].
Qed.

Lemma getEntitiesByType_ordinary ty this :
  EntityManager.inherited ty = false ->
  EntityManager.getEntitiesByType ty this
  = EntityManager.Array (EntityManager.ownArray ty this).
Proof.
  intros Hi. unfold EntityManager.getEntitiesByType, EntityManager.getProperty,
    EntityManager.ownArray.
  destruct (EntityManager.entityTypes this !! ty); [done|]. by rewrite Hi.
Qed.

Lemma getEntitiesByType_returns ty this :
  EntityManager.getEntitiesByType ty this
  = EntityManager.Array (EntityManager.ownArray ty this) \/
  EntityManager.getEntitiesByType ty this = EntityManager.Inherited.
Proof.
  unfold EntityManager.getEntitiesByType, EntityManager.getProperty,
    EntityManager.ownArray.
  destruct (EntityManager.entityTypes this !! ty); [by left|].
  destruct (EntityManager.inherited ty); [by right | by left].
Qed.

Lemma getEntitiesInArea_sound st ax ay aw ah type this l h :
  EntityManager.getEntitiesInArea st ax ay aw ah type this
    = EntityManager.Returns l ->
  h ∈ l ->
  exists e, st !! h = Some e /\ Entity.active e = true /\
            Entity.x e < ax + aw /\ ax < Entity.x e + Entity.width e /\
            Entity.y e < ay + ah /\ ay < Entity.y e + Entity.height e.
Proof.
  unfold EntityManager.getEntitiesInArea. intros Hl H.
  destruct (match type with
            | Some ty => if String.eqb ty "" then _ else _
            | None => _ end) as [l0| |]; try discriminate.
  injection Hl as <-.
  apply elem_of_List_filter in H as [_ H].
  unfold EntityManager.inArea in H. destruct (st !! h) as [e|]; [|done].
  repeat (apply andb_true_iff in H as [H ?]). q_reflect. by exists e.
Qed.

(** X23.  With a consistent type mapping, the area query without a type
    returns, and when the query for a type (not the empty string) returns,
    it returns the entities of that type among those of the query without
    a type, in the same order; every entity it returns is registered,
    active, of that type, and its box meets the area with strict
    inequalities on all four sides.  The query for a type returns when the
    type does not name a property of [Object.prototype]. *)
Theorem typed_area_query_filters_by_type
    (st : gmap handle Entity.t) (this : EntityManager.t)
    (ax ay aw ah : Q) (ty : string) :
  EntityManager.indexed st this -> ty <> ""%string ->
  (exists every,
     EntityManager.getEntitiesInArea st ax ay aw ah None this
       = EntityManager.Returns every /\
     forall typed,
       EntityManager.getEntitiesInArea st ax ay aw ah (Some ty) this
         = EntityManager.Returns typed ->
       typed = List.filter (EntityManager.hasType st ty) every /\
       forall h,
         h ∈ typed ->
         h ∈ EntityManager.entities this /\
         exists e, st !! h = Some e /\ Entity.type e = ty /\
                   Entity.active e = true /\
                   Entity.x e < ax + aw /\ ax < Entity.x e + Entity.width e /\
                   Entity.y e < ay + ah /\ ay < Entity.y e + Entity.height e) /\
  (EntityManager.inherited ty = false ->
   exists typed,
     EntityManager.getEntitiesInArea st ax ay aw ah (Some ty) this
       = EntityManager.Returns typed).
Proof.
  intros Hi Hty.
  assert (E : forall typed,
    EntityManager.getEntitiesInArea st ax ay aw ah (Some ty) this
      = EntityManager.Returns typed ->
    typed = List.filter (EntityManager.hasType st ty)
              (List.filter (EntityManager.inArea st ax ay aw ah)
                 (EntityManager.entities this))).
  { intros typed. unfold EntityManager.getEntitiesInArea.
    apply String.eqb_neq in Hty. rewrite Hty.
    destruct (getEntitiesByType_returns ty this) as [-> | ->];
      [|discriminate].
    intros [= <-]. rewrite Hi. apply filter_filter_comm. }
  split.
  - eexists. split; [reflexivity|]. intros typed Hret.
    split; [by apply E|]. intros h Hh.
    destruct (getEntitiesInArea_sound _ _ _ _ _ _ _ _ _ Hret Hh)
      as (e & He & Hrest).
    rewrite (E typed Hret) in Hh.
    apply elem_of_List_filter in Hh as [Hh Ht].
    apply elem_of_List_filter in Hh as [Hh _]. split; [done|].
    apply hasType_true in Ht as (e' & He' & Het).
    assert (e' = e) as -> by congruence.
    exists e. by split.
  - intros Hord. unfold EntityManager.getEntitiesInArea.
    apply String.eqb_neq in Hty. rewrite Hty.
    rewrite (getEntitiesByType_ordinary ty this Hord). by eexists.
Qed.

(** The query for the enemies around the runner, with the crate and the
    runner registered. *)
Lemma typed_area_query_filters_by_type_witness :
  (exists every,
     EntityManager.getEntitiesInArea twoEntities 90 40 50 50 None twoRegistered
       = EntityManager.Returns every /\
     forall typed,
       EntityManager.getEntitiesInArea twoEntities 90 40 50 50
         (Some "enemy"%string) twoRegistered = EntityManager.Returns typed ->
       typed = List.filter (EntityManager.hasType twoEntities "enemy") every /\
       forall h,
         h ∈ typed ->
         h ∈ EntityManager.entities twoRegistered /\
         exists e, twoEntities !! h = Some e /\
                   Entity.type e = "enemy"%string /\
                   Entity.active e = true /\
                   Entity.x e < 90 + 50 /\ 90 < Entity.x e + Entity.width e /\
                   Entity.y e < 40 + 50 /\ 40 < Entity.y e + Entity.height e) /\
  (EntityManager.inherited "enemy" = false ->
   exists typed,
     EntityManager.getEntitiesInArea twoEntities 90 40 50 50
       (Some "enemy"%string) twoRegistered = EntityManager.Returns typed).
Proof.
  apply (typed_area_query_filters_by_type twoEntities twoRegistered
           90 40 50 50 "enemy").
  - exact twoRegistered_indexed.
  - discriminate.
Defined.

(** That query finds the runner. *)
Lemma enemies_around_the_runner :
  EntityManager.getEntitiesInArea twoEntities 90 40 50 50
    (Some "enemy"%string) twoRegistered = EntityManager.Returns [2%nat].
Proof. reflexivity. Qed.
(** * Properties of the probes of the power-up and of the player *)

Lemma raycast_none_if_all_miss Math_sqrt this st startX startY endX endY mask :
  (forall h c dirX dirY maxDistance,
     h ∈ colliders this -> candidate st (default 65535%Z mask) h c ->
     raycastCollider startX startY dirX dirY maxDistance h c = None) ->
  raycast Math_sqrt this st startX startY endX endY mask = None.
Proof.
  intros Hmiss.
  pose proof (raycast_closest Math_sqrt this st startX startY endX endY mask)
    as H. cbv zeta in H.
  destruct (raycast Math_sqrt this st startX startY endX endY mask)
    as [hit|] eqn:E; [|done].
  assert (Hd : ~ Math_sqrt ((endX - startX) * (endX - startX)
                            + (endY - startY) * (endY - startY)) == 0).
  { intros Hz. unfold raycast in E. apply Qeq_bool_iff in Hz.
    rewrite Hz in E. discriminate. }
  destruct (H Hd) as ((h & c & Hh & Hc & Hr) & _).
  rewrite (Hmiss h c _ _ _ Hh Hc) in Hr. discriminate.
Qed.

(** X24.  The ground probe starts 5 units below the feet of the power-up.
    When every active body of the terrain layer holds that point strictly
    inside (as the floor the power-up stands on does, if it is thicker
    than 5 units), and in particular when no such body is registered, the
    probe finds no ground and [checkForObstacles] turns the power-up
    around, on every call. *)
Theorem checkForObstacles_turns_on_solid_ground
    (Math_sqrt : Q -> Q) (physics : Physics) (st : gmap handle Body)
    (this : Powerup.t) :
  (forall h c, h ∈ colliders physics -> candidate st 1%Z h c ->
     x c < Powerup.edgeCheckX this /\
     Powerup.edgeCheckX this < x c + width c /\
     y c < Entity.y (Powerup.entity this)
           + Entity.height (Powerup.entity this) + 5 /\
     Entity.y (Powerup.entity this) + Entity.height (Powerup.entity this) + 5
       < y c + height c) ->
  Powerup.groundHit Math_sqrt physics st this = None /\
  Powerup.direction (Powerup.checkForObstacles Math_sqrt physics st this)
    = Powerup.direction this * - (1).
Proof.
  intros Hin.
  assert (Hg : Powerup.groundHit Math_sqrt physics st this = None).
  { unfold Powerup.groundHit. apply raycast_none_if_all_miss.
    intros h c dirX dirY maxDistance Hh Hc.
    destruct (Hin h c Hh Hc) as (H1 & H2 & H3 & H4).
    by apply raycastCollider_from_inside. }
  split; [done|].
  unfold Powerup.checkForObstacles. rewrite Hg. simpl.
  by rewrite orb_true_r.
Qed.

(** The power-up on the meadow: its feet are on the floor. *)
Lemma checkForObstacles_turns_on_solid_ground_witness :
  Powerup.groundHit sqrtFloor meadow.1 meadow.2 mushroom = None /\
  Powerup.direction (Powerup.checkForObstacles sqrtFloor meadow.1 meadow.2
                       mushroom)
    = Powerup.direction mushroom * - (1).
Proof.
  apply (checkForObstacles_turns_on_solid_ground sqrtFloor meadow.1 meadow.2
           mushroom).
  intros h c Hh (Hc & _). simpl in Hh.
  apply list_elem_of_singleton in Hh as ->.
  assert (Hfloor : Some c = Some (withDefaults (rect 0 124 400 32 true)))
    by (rewrite <- Hc; reflexivity).
  injection Hfloor as ->.
  repeat split; reflexivity.
Defined.

(** X25.  The wall probe hands [direction] and 5 to [raycast] where it
    takes the end point of the segment: the probe of a power-up that moves
    to the right, from a start to the right of [direction], runs to the
    left.  Whatever it reports lies at or behind its starting point; a wall
    ahead is never what it hits. *)
Theorem wall_probe_runs_backwards
    (Math_sqrt : Q -> Q) (physics : Physics) (st : gmap handle Body)
    (this : Powerup.t) (hit : Hit) :
  let startX := Powerup.wallCheckX this in
  let startY := Entity.y (Powerup.entity this)
                + Entity.height (Powerup.entity this) / 2 in
  let dirX := Powerup.direction this - startX in
  let dirY := 5 - startY in
  0 < Powerup.direction this ->
  Powerup.direction this < startX ->
  0 < Math_sqrt (dirX * dirX + dirY * dirY) ->
  Powerup.wallHit Math_sqrt physics st this = Some hit ->
  (point hit).1 <= startX /\
  startX = Entity.x (Powerup.entity this)
           + Entity.width (Powerup.entity this) + 5 /\
  forall c, st !! hitCollider hit = Some c -> 0 <= width c -> x c <= startX.
Proof.
  intros startX startY dirX dirY Hdir Hstart Hdist Hhit.
  pose proof (raycast_closest Math_sqrt physics st startX startY
                (Powerup.direction this) 5 (Some 1%Z)) as H.
  cbv zeta in H. fold dirX dirY in H.
  set (dist := Math_sqrt (dirX * dirX + dirY * dirY)) in *.
  unfold Powerup.wallHit in Hhit. fold startX startY in Hhit.
  rewrite Hhit in H.
  destruct H as ((h & c & Hh & Hc & Hr) & _); [lra|].
  destruct (raycastCollider_hit _ _ _ _ _ _ _ _ Hr) as (Eh & Ht & _ & Ep).
  assert (Hneg : dirX / dist < 0).
  { apply Qlt_shift_div_r; [done|]. unfold dirX. lra. }
  pose proof (Qmult_le_compat_r (dirX / dist) 0 (distance hit)
                (Qlt_le_weak _ _ Hneg) Ht) as Hm.
  assert (Hp : (point hit).1 <= startX).
  { rewrite Ep. cbn [fst]. lra. }
  split; [done|]. split.
  - unfold startX, Powerup.wallCheckX.
    assert (Qgtb (Powerup.direction this) 0 = true) as ->; [|done].
    unfold Qgtb, Qltb. apply negb_true_iff. by apply Qle_bool_gt.
  - intros c' Hc' Hw. rewrite Eh in Hc'.
    destruct Hc as (Hc & _). assert (c' = c) as -> by congruence.
    assert (Hnz : ~ dirX / dist == 0) by lra.
    destruct (slab_bounds _ _ _ _ _ _ _ _ Hr) as [BX _].
    destruct (BX Hnz) as [B1 B2].
    destruct (between_slab (x c) (x c + width c) startX (dirX / dist)
                (distance hit) Hnz ltac:(lra) B1 B2) as [Hlo _].
    rewrite Ep in Hp. cbn [fst] in Hp. lra.
Qed.

(** In the corridor the wall stands 3 units in front of the probe; the
    probe hits the block behind the power-up. *)
Lemma wall_probe_runs_backwards_witness :
  exists hit,
    Powerup.wallHit sqrtFloor corridor.1 corridor.2 mushroom = Some hit /\
    hitCollider hit = 2%nat /\
    (point hit).1 <= Powerup.wallCheckX mushroom /\
    Powerup.wallCheckX mushroom
      = Entity.x (Powerup.entity mushroom)
        + Entity.width (Powerup.entity mushroom) + 5 /\
    forall c, corridor.2 !! hitCollider hit = Some c -> 0 <= width c ->
              x c <= Powerup.wallCheckX mushroom.
Proof.
  eexists. split; [vm_compute; reflexivity|]. split; [reflexivity|].
  apply (wall_probe_runs_backwards sqrtFloor corridor.1 corridor.2 mushroom).
  - reflexivity.
  - reflexivity.
  - reflexivity.
  - vm_compute. reflexivity.
Defined.

(** A ray that points upwards, from a point that a body at or below holds
    strictly within its horizontal extent, does not hit that body. *)
Lemma raycastCollider_upwards_misses_below
    startX startY dirX dirY maxDistance h c :
  dirY < 0 -> startY <= y c -> 0 < height c ->
  x c < startX -> startX < x c + width c ->
  raycastCollider startX startY dirX dirY maxDistance h c = None.
Proof.
  intros Hd Hy Hh Hx1 Hx2.
  destruct (raycastCollider startX startY dirX dirY maxDistance h c)
    as [hit|] eqn:Hr; [|done]. exfalso.
  destruct (raycastCollider_hit _ _ _ _ _ _ _ _ Hr) as (_ & Ht & _).
  destruct (slab_entry _ _ _ _ _ _ _ _ Hr) as [[Hnz E]|[Hnz E]].
  - pose proof (min_div_neg (x c - startX) (x c + width c - startX) dirX
                  ltac:(lra) ltac:(lra) Hnz) as Hm.
    rewrite <- E in Hm. lra.
  - assert (H2 : (y c + height c - startY) / dirY < 0).
    { assert (E2 : (y c + height c - startY) / dirY
                   == (- (y c + height c - startY)) / (- dirY))
        by (field; lra).
      rewrite E2. apply Qlt_shift_div_r; lra. }
    destruct (Math_min_spec ((y c - startY) / dirY)
                ((y c + height c - startY) / dirY)) as [[? Em]|[? Em]];
      rewrite Em in E; rewrite E in Ht; lra.
Qed.

(** X27.  The ground probe of the player hands (0, 5) to [raycast] where it
    takes the end point of the segment: from the feet of a player who is
    below y = 5 it runs upwards.  A body of the terrain layer that lies
    entirely below the feet is not hit, nor is the floor the player stands
    on (top edge at the feet, the middle of the player strictly within its
    horizontal extent); when every active body of the terrain layer is of
    one of these two kinds the probe returns null and [canJump] is
    false. *)
Theorem player_ground_probe_misses_the_floor
    (Math_sqrt : Q -> Q) (physics : Physics) (st : gmap handle Body)
    (this : Entity.t) :
  let startX := Entity.x this + Entity.width this / 2 in
  let feet := Entity.y this + Entity.height this in
  5 < feet ->
  0 <= Math_sqrt ((0 - startX) * (0 - startX) + (5 - feet) * (5 - feet)) ->
  (forall h c, h ∈ colliders physics -> candidate st 1%Z h c ->
     0 < height c /\
     (feet < y c \/
      (feet <= y c /\ x c < startX /\ startX < x c + width c))) ->
  Player.groundHit Math_sqrt physics st this = None /\
  Player.canJump Math_sqrt physics st this = false.
Proof.
  intros startX feet Hfeet Hsqrt Hbodies.
  assert (Hg : Player.groundHit Math_sqrt physics st this = None).
  { unfold Player.groundHit. fold startX feet.
    pose proof (raycast_closest Math_sqrt physics st startX feet 0 5
                  (Some 1%Z)) as H. cbv zeta in H.
    set (dist := Math_sqrt ((0 - startX) * (0 - startX)
                            + (5 - feet) * (5 - feet))) in *.
    destruct (raycast Math_sqrt physics st startX feet 0 5 (Some 1%Z))
      as [hit|] eqn:E; [|done]. exfalso.
    assert (Hd : ~ dist == 0).
    { intros Hz. unfold raycast in E. fold dist in E.
      apply Qeq_bool_iff in Hz. rewrite Hz in E. discriminate. }
    destruct (H Hd) as ((h & c & Hh & Hc & Hr) & _).
    assert (Hup : (5 - feet) / dist < 0).
    { apply Qlt_shift_div_r; lra. }
    destruct (Hbodies h c Hh Hc) as (Hh0 & [Hbelow|(Hy & Hx1 & Hx2)]).
    - destruct (raycastCollider_hit _ _ _ _ _ _ _ _ Hr) as (_ & Ht & _ & Ep).
      destruct (slab_bounds _ _ _ _ _ _ _ _ Hr) as [_ BY].
      destruct (BY ltac:(lra)) as [B1 B2].
      destruct (between_slab (y c) (y c + height c) feet ((5 - feet) / dist)
                  (distance hit) ltac:(lra) ltac:(lra) B1 B2) as [Hlo _].
      pose proof (Qmult_le_compat_r ((5 - feet) / dist) 0 (distance hit)
                    (Qlt_le_weak _ _ Hup) Ht) as Hm.
      lra.
    - rewrite (raycastCollider_upwards_misses_below _ _ _ _ _ _ _
                 Hup Hy Hh0 Hx1 Hx2) in Hr. discriminate. }
  split; [done|]. unfold Player.canJump. by rewrite Hg.
Qed.

(** The player on the meadow. *)
Lemma player_ground_probe_misses_the_floor_witness :
  Player.groundHit sqrtFloor meadow.1 meadow.2 hero = None /\
  Player.canJump sqrtFloor meadow.1 meadow.2 hero = false.
Proof.
  apply (player_ground_probe_misses_the_floor sqrtFloor meadow.1 meadow.2 hero).
  - reflexivity.
  - vm_compute. discriminate.
  - intros h c Hh (Hc & _). simpl in Hh.
    apply list_elem_of_singleton in Hh as ->.
    assert (Hfloor : Some c = Some (withDefaults (rect 0 124 400 32 true)))
      by (rewrite <- Hc; reflexivity).
    injection Hfloor as ->.
    split; [reflexivity|]. right. repeat split; try reflexivity.
    vm_compute. discriminate.
Defined.
